(** * parse_doxygen_xml: doxygen XML to LaTeX for the seL4 manual

    A shallow embedding of [manual/tools/parse_doxygen_xml.py] and the
    properties of its translation engine.

    - Python strings are [string]s (sequences of 8-bit characters); a
      backslash is an ordinary character of a Rocq string, so ["\_"] is the
      two characters of Python's ['\\_'].
    - An exception is a value of [exn]; a computation that may raise returns
      a [result], and [let! x := e in k] sequences in Python's order of
      evaluation.
    - The parsed document (BeautifulSoup) is a [node] tree of tags and plain
      strings; comments, CDATA and the other special strings of bs4 are not
      nodes of the model. The navigation methods the script uses are in
      [Module bs4].
    - Dictionaries are [gmap]s.
    - The script runs with [LatexGenerator]; the methods below are those of a
      [LatexGenerator] instance, overrides resolved.
    - [parse_para] is recursive through the dispatch table; [fuel] bounds the
      depth of nested calls (Python's recursion limit), and a call that
      exceeds it raises [RecursionError]. *)

From Stdlib Require Import String Ascii List Arith Lia Bool.
From stdpp Require Import gmap strings list fin_maps.


(** ** Exceptions and results *)

Inductive exn : Set :=
  | KeyError
  | IndexError
  | AttributeError
  | TypeError
  | StopIteration
  | RecursionError.

Inductive result (A : Type) : Type :=
  | Ok (a : A)
  | Raise (e : exn).

Arguments Ok {A} a.
Arguments Raise {A} e.

Definition bind {A B : Type} (c : result A) (k : A -> result B) : result B :=
  match c with
  | Ok a => k a
  | Raise e => Raise e
  end.

Notation "'let!' x ':=' c 'in' k" := (bind c (fun x => k))
  (at level 10, x pattern, c at level 100, k at level 200).

Definition is_ok {A : Type} (c : result A) : bool :=
  match c with Ok _ => true | Raise _ => false end.

(** ** Python string methods *)

Definition LF : string := String "010"%char "".

(** [str.isspace] on the characters below 256. *)
Definition isspace (c : ascii) : bool :=
  let n := nat_of_ascii c in
  (Nat.leb 9 n && Nat.leb n 13) || (Nat.leb 28 n && Nat.leb n 32)
  || Nat.eqb n 133 || Nat.eqb n 160.

Definition is_empty (s : string) : bool :=
  match s with EmptyString => true | String _ _ => false end.

(** [s.split()]: the maximal runs of non-space characters, in order.
    [w] is the word being read. *)
Fixpoint split_go (w : string) (s : string) : list string :=
  match s with
  | EmptyString => if is_empty w then [] else [w]
  | String c r =>
      if isspace c
      then (if is_empty w then split_go "" r else w :: split_go "" r)
      else split_go (w +:+ String c "") r
  end.

Definition split (s : string) : list string := split_go "" s.

(** [l[-1]] *)
Definition last_item {A : Type} (l : list A) : result A :=
  match last l with
  | Some x => Ok x
  | None => Raise IndexError
  end.

Fixpoint lstrip (s : string) : string :=
  match s with
  | EmptyString => ""
  | String c r => if isspace c then lstrip r else s
  end.

Fixpoint rstrip (s : string) : string :=
  match s with
  | EmptyString => ""
  | String c r =>
      match rstrip r with
      | EmptyString => if isspace c then "" else String c ""
      | r' => String c r'
      end
  end.

(** [s.strip()] *)
Definition strip (s : string) : string := rstrip (lstrip s).

(** [sep.join(l)] *)
Fixpoint join (sep : string) (l : list string) : string :=
  match l with
  | [] => ""
  | [x] => x
  | x :: rest => x +:+ sep +:+ join sep rest
  end.

(** ** The parsed document *)

#[warnings="-register-all"] Inductive node : Type :=
  | NavigableString (s : string)
  | Tag (name : string) (attrs : gmap string string) (contents : list node).

Module bs4.

(** [node.name]: [None] for a string. *)
Definition name (n : node) : option string :=
  match n with
  | NavigableString _ => None
  | Tag nm _ _ => Some nm
  end.

Definition contents (n : node) : list node :=
  match n with
  | NavigableString _ => []
  | Tag _ _ cs => cs
  end.

(** [tag[key]] *)
Definition getitem (n : node) (key : string) : result string :=
  match n with
  | NavigableString _ => Raise TypeError
  | Tag _ attrs _ =>
      match attrs !! key with
      | Some v => Ok v
      | None => Raise KeyError
      end
  end.

(** [tag.descendants]: document order. *)
Fixpoint descendants (n : node) : list node :=
  match n with
  | NavigableString _ => []
  | Tag _ _ cs =>
      (fix go (l : list node) : list node :=
         match l with
         | [] => []
         | c :: l' => c :: descendants c ++ go l'
         end) cs
  end.

Definition named (nm : string) (n : node) : bool :=
  match n with
  | NavigableString _ => false
  | Tag nm' _ _ => String.eqb nm' nm
  end.

(** [tag.find_all(nm)] *)
Definition find_all (nm : string) (n : node) : list node :=
  List.filter (named nm) (descendants n).

(** [tag.find_all(nm, recursive=False)] *)
Definition find_all_children (nm : string) (n : node) : list node :=
  List.filter (named nm) (contents n).

(** [tag.find(nm)], also written [tag.nm]. *)
Definition find (nm : string) (n : node) : option node :=
  head (find_all nm n).

(** [tag.string] *)
Fixpoint dot_string (n : node) : option string :=
  match n with
  | NavigableString s => Some s
  | Tag _ _ [c] => dot_string c
  | Tag _ _ _ => None
  end.

(** [tag.get_text()], also [tag.text]. *)
Fixpoint get_text (n : node) : string :=
  match n with
  | NavigableString s => s
  | Tag _ _ cs =>
      (fix go (l : list node) : string :=
         match l with
         | [] => ""
         | c :: l' => get_text c +:+ go l'
         end) cs
  end.

(** [str(tag.string)] *)
Definition str_string (n : node) : string :=
  match dot_string n with
  | Some s => s
  | None => "None"
  end.

(** Nesting depth, for the recursion bound. *)
Fixpoint height (n : node) : nat :=
  match n with
  | NavigableString _ => 0
  | Tag _ _ cs =>
      S ((fix go (l : list node) : nat :=
            match l with
            | [] => 0
            | c :: l' => Nat.max (height c) (go l')
            end) cs)
  end.

End bs4.

(** ** Generator *)

(** The descriptor of a referee: [{"name": .., "label": .., "ref": ..}]. *)
Record ref_data : Type := mk_ref_data {
  rd_name : string;
  rd_label : string;
  rd_ref : string
}.

(** [{"type": .., "desc": ..}], the second key optional. *)
Record param_info : Type := mk_param_info {
  pi_type : string;
  pi_desc : option string
}.

Definition ESCAPE_PATTERNS : list (ascii * string) :=
  [ ("_"%char, "\_") ].

Fixpoint assoc (c : ascii) (l : list (ascii * string)) : option string :=
  match l with
  | [] => None
  | (k, v) :: rest => if Ascii.eqb k c then Some v else assoc c rest
  end.

(** [text_escape]: the regular expression is the alternation of the keys,
    each one character; every match is replaced by its entry. *)
Fixpoint text_escape (s : string) : string :=
  match s with
  | EmptyString => ""
  | String c r =>
      match assoc c ESCAPE_PATTERNS with
      | Some e => e +:+ text_escape r
      | None => String c (text_escape r)
      end
  end.

(** The string [get_text] works on: the node itself when it is a string,
    else its [.string] when that is not empty, else all its text. *)
Definition node_text (n : node) : string :=
  match n with
  | NavigableString s => s
  | Tag _ _ _ =>
      match bs4.dot_string n with
      | Some s => if is_empty s then bs4.get_text n else s
      | None => bs4.get_text n
      end
  end.

(** [get_text(soup, escape)]; a Python [str] argument is a
    [NavigableString], and [None] has no attribute [string]. *)
Definition get_text (soup : option node) (escape : bool) : result string :=
  match soup with
  | None => Raise AttributeError
  | Some n => Ok (if escape then text_escape (node_text n) else node_text n)
  end.

Definition default_return_doc (ret_type : string) : string :=
  if String.eqb ret_type "void" then "\noret" else "".

Definition ref_format (refid : string) (ref_dict : gmap string ref_data)
  : result string :=
  match ref_dict !! refid with
  | None => Raise KeyError
  | Some ref =>
      Ok ("\apifunc{" +:+ rd_name ref +:+ "}{" +:+ rd_label ref +:+ "}")
  end.

Definition ref_to_format (para : node) (ref_dict : gmap string ref_data)
  : result string :=
  if Nat.ltb 0 (size ref_dict)
  then (let! refid := bs4.getitem para "refid" in ref_format refid ref_dict)
  else Ok "".

Definition nref_to_format (para : node) (ref_dict : gmap string ref_data)
  : result string :=
  if Nat.ltb 0 (size ref_dict)
  then (let! nm := bs4.getitem para "name" in ref_format nm ref_dict)
  else Ok "".

Definition todo_if_empty (s : string) : string :=
  if is_empty s then "\todo" else s.

Definition generate_empty_param_string : string := "\param{void}{}{}".

Definition generate_param_string (info : param_info) (param_name : string)
  : result string :=
  let! ty := get_text (Some (NavigableString (pi_type info))) true in
  let! nm := get_text (Some (NavigableString param_name)) true in
  let desc := todo_if_empty (strip (default "" (pi_desc info))) in
  Ok ("\param{" +:+ ty +:+ "}{" +:+ nm +:+ "}{" +:+ desc +:+ "}" +:+ LF).

Section ParseTable.

(** [self.parse_para], as seen from the entries of the table. *)
Variable parse_para : option node -> gmap string ref_data -> result string.

(** The loop of [parse_recurse] and [parse_list]. *)
Fixpoint parse_items (output : string) (items : list node)
    (ref_dict : gmap string ref_data) : result string :=
  match items with
  | [] => Ok output
  | item :: rest =>
      let! s := parse_para (Some item) ref_dict in
      parse_items (output +:+ s) rest ref_dict
  end.

Definition parse_recurse (para : node) (ref_dict : gmap string ref_data)
  : result string :=
  parse_items "" (bs4.contents para) ref_dict.

Definition parse_list (para : node) (ref_dict : gmap string ref_data)
    (tag : string) : result string :=
  let! output :=
    parse_items ("\begin{" +:+ tag +:+ "}" +:+ LF) (bs4.contents para) ref_dict in
  Ok (output +:+ "\end{" +:+ tag +:+ "}" +:+ LF).

Definition parse_ordered_list (para : node) (ref_dict : gmap string ref_data) :=
  parse_list para ref_dict "enumerate".

Definition parse_itemized_list (para : node) (ref_dict : gmap string ref_data) :=
  parse_list para ref_dict "itemize".

Definition base_parse_table
  : gmap string (node -> gmap string ref_data -> result string) :=
  list_to_map
    [ ("para", parse_recurse);
      ("computeroutput", fun p r => get_text (Some p) true);
      ("texttt", fun p r =>
         let! t := bs4.getitem p "text" in
         get_text (Some (NavigableString t)) true);
      ("ref", ref_to_format);
      ("nameref", nref_to_format);
      ("shortref", fun p r => bs4.getitem p "sec");
      ("obj", fun p r => bs4.getitem p "name");
      ("errorenumdesc", fun p r => Ok "");
      ("orderedlist", parse_ordered_list);
      ("listitem", fun p r => parse_para (bs4.find "para" p) r);
      ("itemizedlist", parse_itemized_list);
      ("autoref", fun p r => bs4.getitem p "label") ].

Definition get_parse_table
  : gmap string (node -> gmap string ref_data -> result string) :=
  <[ "autoref" := fun p r =>
       let! l := bs4.getitem p "label" in Ok ("\autoref{" +:+ l +:+ "}") ]>
  (<[ "listitem" := fun p r =>
       let! s := parse_para (bs4.find "para" p) r in
       Ok ("\item " +:+ s +:+ LF) ]>
  (<[ "errorenumdesc" := fun p r => Ok "\errorenumdesc" ]>
  (<[ "obj" := fun p r =>
       let! o := bs4.getitem p "name" in Ok ("\obj{" +:+ o +:+ "}") ]>
  (<[ "shortref" := fun p r =>
       let! s := bs4.getitem p "sec" in Ok ("\ref{sec:" +:+ s +:+ "}") ]>
  (<[ "texttt" := fun p r =>
       let! t := bs4.getitem p "text" in
       let! s := get_text (Some (NavigableString t)) true in
       Ok ("\texttt{" +:+ s +:+ "}") ]>
  (<[ "computeroutput" := fun p r =>
       let! s := get_text (Some p) true in Ok ("\texttt{" +:+ s +:+ "}") ]>
   base_parse_table)))))).

End ParseTable.

Fixpoint parse_para (fuel : nat) (para_node : option node)
    (ref_dict : gmap string ref_data) : result string :=
  let self :=
    match fuel with
    | O => fun _ _ => Raise RecursionError
    | S fuel' => parse_para fuel'
    end in
  match para_node with
  | None => Raise AttributeError
  | Some n =>
      match bs4.name n with
      | None => get_text para_node true
      | Some nm =>
          match get_parse_table self !! nm with
          | Some rule => rule n ref_dict
          | None => Ok ""
          end
      end
  end.

(** [[f(x) for x in l]] *)
Fixpoint map_result {A B : Type} (f : A -> result B) (l : list A)
  : result (list B) :=
  match l with
  | [] => Ok []
  | x :: rest =>
      let! y := f x in
      let! ys := map_result f rest in
      Ok (y :: ys)
  end.

(** [node.attr] on a node that may be [None]. *)
Definition deref {A : Type} (o : option A) (e : exn) : result A :=
  match o with
  | Some x => Ok x
  | None => Raise e
  end.

Definition parse_brief (fuel : nat) (parent : node) : result string :=
  let! brief := deref (bs4.find "briefdescription" parent) AttributeError in
  let! rendered :=
    map_result (fun n => parse_para fuel (Some n) ∅) (bs4.find_all "para" brief) in
  Ok (join (LF +:+ LF) rendered).

(** *** parse_detailed_desc *)

(** The loop over the declared names: each takes the next type. *)
Fixpoint pair_params (names types_iter : list node)
    (params : gmap string param_info) (param_order : list string)
  : result (gmap string param_info * list string) :=
  match names with
  | [] => Ok (params, param_order)
  | n :: names' =>
      match types_iter with
      | [] => Raise StopIteration
      | t :: types_iter' =>
          let param_type := bs4.get_text t in
          if String.eqb param_type "void"
          then pair_params names' types_iter' params param_order
          else pair_params names' types_iter'
                 (<[ bs4.get_text n := mk_param_info param_type None ]> params)
                 (param_order ++ [bs4.get_text n])
      end
  end.

(** The loop over the documented parameter items. *)
Fixpoint attach_descs (fuel : nat) (param_items : list node)
    (ref_dict : gmap string ref_data) (params : gmap string param_info)
  : result (gmap string param_info) :=
  match param_items with
  | [] => Ok params
  | param_item :: rest =>
      let param_name_node := bs4.find "parametername" param_item in
      let param_desc_node := bs4.find "parameterdescription" param_item in
      let! param_name := get_text param_name_node false in
      let! desc := deref param_desc_node AttributeError in
      let! param_desc := parse_para fuel (bs4.find "para" desc) ref_dict in
      match params !! param_name with
      | None => Raise KeyError
      | Some info =>
          attach_descs fuel rest ref_dict
            (<[ param_name := mk_param_info (pi_type info) (Some param_desc) ]> params)
      end
  end.

Fixpoint params_loop (params : gmap string param_info)
    (param_order : list string) (params_str : string) : result string :=
  match param_order with
  | [] => Ok params_str
  | param_name :: rest =>
      let! param_info := deref (params !! param_name) KeyError in
      let! s := generate_param_string param_info param_name in
      params_loop params rest (params_str +:+ s)
  end.

Definition params_block (params : gmap string param_info)
    (param_order : list string) : result string :=
  if Nat.eqb (size params) 0
  then Ok generate_empty_param_string
  else params_loop params param_order "".

(** The declared parameters of a member: the return type node, the
    dictionary and the order. *)
Definition declared_params (parent : node)
  : result (node * gmap string param_info * list string) :=
  let types := bs4.find_all "type" parent in
  let names := bs4.find_all "declname" parent in
  match types with
  | [] => Raise StopIteration
  | ret_type :: types_iter =>
      let! (params, param_order) := pair_params names types_iter ∅ [] in
      Ok (ret_type, params, param_order)
  end.

Definition desc_params (fuel : nat) (parent : node)
    (ref_dict : gmap string ref_data) : result (node * string) :=
  let! (ret_type, params, param_order) := declared_params parent in
  let! params :=
    attach_descs fuel (bs4.find_all "parameteritem" parent) ref_dict params in
  let! params_str := params_block params param_order in
  Ok (ret_type, params_str).

Fixpoint details_loop (fuel : nat) (paras : list node)
    (ref_dict : gmap string ref_data) (details : string) : result string :=
  match paras with
  | [] => Ok details
  | n :: rest =>
      match bs4.find "parameterlist" n with
      | Some _ => details_loop fuel rest ref_dict details
      | None =>
          let! s := parse_para fuel (Some n) ref_dict in
          details_loop fuel rest ref_dict (details +:+ s +:+ LF +:+ LF)
      end
  end.

Definition desc_details (fuel : nat) (parent : node)
    (ref_dict : gmap string ref_data) : result string :=
  let! dd := deref (bs4.find "detaileddescription" parent) AttributeError in
  details_loop fuel (bs4.find_all_children "para" dd) ref_dict "".

(** The scan of the [simplesect] nodes; [ret] is the default. *)
Fixpoint return_scan (fuel : nat) (simplesects : list node)
    (ref_dict : gmap string ref_data) (ret : string) : result string :=
  match simplesects with
  | [] => Ok ret
  | n :: rest =>
      let! kind := bs4.getitem n "kind" in
      if String.eqb kind "return"
      then parse_para fuel (bs4.find "para" n) ref_dict
      else return_scan fuel rest ref_dict ret
  end.

Definition desc_return (fuel : nat) (ret_type parent : node)
    (ref_dict : gmap string ref_data) : result string :=
  let! ret_str := get_text (Some ret_type) false in
  let! last_word := last_item (split ret_str) in
  let ret := default_return_doc last_word in
  return_scan fuel (bs4.find_all "simplesect" parent) ref_dict ret.

Definition parse_detailed_desc (fuel : nat) (parent : node)
    (ref_dict : gmap string ref_data) : result (string * string * string) :=
  let! (ret_type, params_str) := desc_params fuel parent ref_dict in
  let! details := desc_details fuel parent ref_dict in
  let! ret := desc_return fuel ret_type parent ref_dict in
  Ok (todo_if_empty (strip details), params_str, todo_if_empty (strip ret)).

(** *** parse_prototype *)

Definition parse_prototype (parent : node) : result string :=
  let! i := bs4.getitem parent "inline" in
  let inline := String.eqb i "yes" in
  let! s := bs4.getitem parent "static" in
  let static := String.eqb s "yes" in
  let! ret_type := get_text (bs4.find "type" parent) true in
  let! name := get_text (bs4.find "name" parent) true in
  let output := ret_type +:+ " " +:+ name in
  let output := if inline then "inline " +:+ output else output in
  let output := if static then "static " +:+ output else output in
  Ok output.

(** *** build_ref_dict *)

(** The three fields read from one [memberdef]: name, label, id. *)
Definition member_fields (member : node) : result (string * string * string) :=
  let! name_node := deref (bs4.find "name" member) AttributeError in
  let name := bs4.str_string name_node in
  let! manual := deref (bs4.find "manual" member) TypeError in
  let! label := bs4.getitem manual "label" in
  let! ref_id := bs4.getitem member "id" in
  Ok (name, label, ref_id).

Fixpoint build_loop (members : list node) (ret : gmap string ref_data)
  : result (gmap string ref_data) :=
  match members with
  | [] => Ok ret
  | member :: rest =>
      let! (name, label, ref_id) := member_fields member in
      let data := mk_ref_data (text_escape name) label ref_id in
      build_loop rest (<[ name := data ]> (<[ ref_id := data ]> ret))
  end.

Definition build_ref_dict (soup : node) : result (gmap string ref_data) :=
  build_loop (bs4.find_all "memberdef" soup) ∅.

(** *** generate_api_doc *)

Definition generate_api_doc (fuel : nat) (level : string) (member : node)
    (params ret details : string) : result string :=
  let manual_node := bs4.find "manual" member in
  let! manual := deref manual_node TypeError in
  let! label := bs4.getitem manual "label" in
  let! name := bs4.getitem manual "name" in
  let! brief := parse_brief fuel member in
  let! prototype := parse_prototype member in
  Ok (LF +:+ "\apidoc" +:+ LF
      +:+ "[{" +:+ level +:+ "}]" +:+ LF
      +:+ "{" +:+ label +:+ "}" +:+ LF
      +:+ "{" +:+ text_escape name +:+ "}" +:+ LF
      +:+ "{" +:+ todo_if_empty brief +:+ "}" +:+ LF
      +:+ "{" +:+ prototype +:+ "}" +:+ LF
      +:+ "{" +:+ params +:+ "}" +:+ LF
      +:+ "{" +:+ ret +:+ "}" +:+ LF
      +:+ "{" +:+ details +:+ "}" +:+ LF
      +:+ "        ").

(** ** generate_general_syscall_doc *)

(** The top-level descriptions, rendered with the default (empty)
    reference table. *)
Fixpoint top_descriptions (fuel : nat) (ddescs : list node) (output : string)
  : result string :=
  match ddescs with
  | [] => Ok output
  | ddesc :: rest =>
      match bs4.find "para" ddesc with
      | Some p =>
          let! s := parse_para fuel (Some p) ∅ in
          top_descriptions fuel rest (output +:+ s)
      | None => top_descriptions fuel rest output
      end
  end.

Fixpoint members_loop (fuel : nat) (level : string)
    (ref_dict : gmap string ref_data) (elements : list node) (output : string)
  : result string :=
  match elements with
  | [] => Ok output
  | member :: rest =>
      let! (details, params, ret) := parse_detailed_desc fuel member ref_dict in
      let! doc := generate_api_doc fuel level member params ret details in
      members_loop fuel level ref_dict rest (output +:+ doc)
  end.

(** [soup] is the document as parsed from the input file. *)
Definition generate_general_syscall_doc (fuel : nat) (soup : node)
    (level : string) : result string :=
  let! ref_dict := build_ref_dict soup in
  let elements := bs4.find_all "memberdef" soup in
  let! summary := deref (bs4.find "compounddef" soup) AttributeError in
  let! output :=
    top_descriptions fuel (bs4.find_all_children "detaileddescription" summary) "" in
  if Nat.eqb (length elements) 0
  then Ok "No methods."
  else members_loop fuel level ref_dict elements output.

(** ** Sample documents *)

Definition elem (nm : string) (cs : list node) : node := Tag nm ∅ cs.

Definition txt (s : string) : node := NavigableString s.

(** [static inline void seL4_Yield(void)] *)
Definition yield_member : node :=
  Tag "memberdef" {[ "inline" := "yes"; "static" := "yes"; "id" := "group_1a" ]}
    [ elem "type" [txt "void"];
      elem "name" [txt "seL4_Yield"];
      elem "param" [elem "type" [txt "void"]];
      Tag "manual" {[ "label" := "sel4_yield"; "name" := "Yield" ]} [];
      elem "briefdescription" [elem "para" [txt "Yield the timeslice"]];
      elem "detaileddescription"
        [elem "para" [txt "See "; Tag "autoref" {[ "label" := "sec:sys_yield" ]} []]] ].

(** [inline int f(void)], both flags affirmative. *)
Definition proto_member : node :=
  Tag "memberdef" {[ "inline" := "yes"; "static" := "yes"; "id" := "f_1" ]}
    [ elem "type" [txt "int"]; elem "name" [txt "f"] ].

(** [seL4_Error seL4_Send(seL4_CPtr dest, seL4_MessageInfo_t msg_info)], one
    documented parameter and two return sections. *)
Definition send_member : node :=
  Tag "memberdef" {[ "inline" := "yes"; "static" := "no"; "id" := "group_2b" ]}
    [ elem "type" [txt "seL4_Error"];
      elem "name" [txt "seL4_Send"];
      elem "param" [elem "type" [txt "seL4_CPtr"]; elem "declname" [txt "dest"]];
      elem "param" [elem "type" [txt "seL4_MessageInfo_t"];
                    elem "declname" [txt "msg_info"]];
      Tag "manual" {[ "label" := "sel4_send"; "name" := "Send" ]} [];
      elem "briefdescription" [elem "para" [txt "Send to a capability"]];
      elem "detaileddescription"
        [ elem "para"
            [ elem "parameterlist"
                [ elem "parameteritem"
                    [ elem "parameternamelist" [elem "parametername" [txt "dest"]];
                      elem "parameterdescription" [elem "para" [txt "The cap."]] ] ];
              Tag "simplesect" {[ "kind" := "return" ]} [elem "para" [txt " first "]];
              Tag "simplesect" {[ "kind" := "return" ]} [elem "para" [txt "second"]] ];
          elem "para" [txt "See "; Tag "ref" {[ "refid" := "group_1a" ]} [txt "x"]] ] ].

(** A member whose return type is empty. *)
Definition untyped_member : node :=
  Tag "memberdef" {[ "id" := "h_1" ]}
    [ elem "type" []; elem "name" [txt "h"]; elem "detaileddescription" [] ].

Definition document (top : list node) (members : list node) : node :=
  elem "[document]"
    [ elem "doxygen"
        [ elem "compounddef"
            [ elem "detaileddescription" top; elem "sectiondef" members ] ] ].

(** [seL4_Send] with its parameter documented under the name "dst", which
    is not declared. *)
Definition misdocumented_member : node :=
  Tag "memberdef" {[ "inline" := "yes"; "static" := "no"; "id" := "group_3c" ]}
    [ elem "type" [txt "seL4_Error"];
      elem "name" [txt "seL4_Send"];
      elem "param" [elem "type" [txt "seL4_CPtr"]; elem "declname" [txt "dest"]];
      Tag "manual" {[ "label" := "sel4_send"; "name" := "Send" ]} [];
      elem "briefdescription" [elem "para" [txt "Send to a capability"]];
      elem "detaileddescription"
        [ elem "para"
            [ elem "parameterlist"
                [ elem "parameteritem"
                    [ elem "parameternamelist" [elem "parametername" [txt "dst"]];
                      elem "parameterdescription" [elem "para" [txt "The cap."]] ] ] ] ] ].

Definition misdocumented_doc : node :=
  document [] [misdocumented_member].

(** A compound with a top-level description and no member. *)
Definition empty_doc : node :=
  document [elem "para" [txt "System calls"]] [].

(** Two members under one compound, with a top-level description. *)
Definition two_member_doc : node :=
  document [elem "para" [txt "System calls"]] [yield_member; send_member].

(** ** Characters reserved by the output format *)

Definition reserved (c : ascii) : bool :=
  match assoc c ESCAPE_PATTERNS with Some _ => true | None => false end.

Definition has_reserved (s : string) : bool :=
  existsb reserved (list_ascii_of_string s).

(** ** Order of the prefixes of a prototype *)

(** The first ["inline"] of [out] starts before its first ["static"]. *)
Definition inline_before_static (out : string) : bool :=
  match index 0 "inline" out, index 0 "static" out with
  | Some i, Some j => Nat.ltb i j
  | _, _ => false
  end.

(** ** Whitespace and description sections *)

Definition all_space (s : string) : bool :=
  forallb isspace (list_ascii_of_string s).

(** A [simplesect] whose [kind] is "return". *)
Definition return_section (n : node) : bool :=
  match bs4.getitem n "kind" with
  | Ok k => String.eqb k "return"
  | Raise _ => false
  end.

(** A [simplesect] with a [kind] other than "return". *)
Definition other_section (n : node) : bool :=
  match bs4.getitem n "kind" with
  | Ok k => negb (String.eqb k "return")
  | Raise _ => false
  end.

(** ** The declared parameters, as the data model describes them *)

(** A declared name paired with a type that is literally "void". *)
Definition void_typed (p : node * node) : bool :=
  String.eqb (bs4.get_text (snd p)) "void".

(** The declared names, in declaration order, without the positions whose
    paired type is "void"; [types_iter] is the type sequence after the return
    type. *)
Definition non_void_names (names types_iter : list node) : list string :=
  List.map (fun p => bs4.get_text (fst p))
    (List.filter (fun p => negb (void_typed p)) (combine names types_iter)).

(** [e] is the line emitted for parameter [nm] of [params]. *)
Definition param_entry (params : gmap string param_info) (nm e : string) : Prop :=
  exists info,
    params !! nm = Some info
    /\ e = "\param{" +:+ text_escape (pi_type info) +:+ "}{" +:+ text_escape nm
          +:+ "}{" +:+ todo_if_empty (strip (default "" (pi_desc info)))
          +:+ "}" +:+ LF.

(** ** The dispatch table *)

(** [self.parse_para] as the table built at [fuel] sees it. *)
Definition self_call (fuel : nat)
  : option node -> gmap string ref_data -> result string :=
  match fuel with
  | O => fun _ _ => Raise RecursionError
  | S fuel' => parse_para fuel'
  end.

(** The rule of the table built over [self] for kind [nm], applied. *)
Definition dispatch
    (self : option node -> gmap string ref_data -> result string)
    (nm : string) (n : node) (rd : gmap string ref_data) : result string :=
  match get_parse_table self !! nm with
  | Some rule => rule n rd
  | None => Ok ""
  end.

(** [self2] agrees with [self1] wherever [self1] stays within its bound. *)
Definition stable
    (self1 self2 : option node -> gmap string ref_data -> result string) : Prop :=
  forall pn rd, self1 pn rd <> Raise RecursionError -> self2 pn rd = self1 pn rd.

(** The node kinds of the dispatch table. *)
Definition parse_table_keys : list string :=
  [ "para"; "computeroutput"; "texttt"; "ref"; "nameref"; "shortref"; "obj";
    "errorenumdesc"; "orderedlist"; "listitem"; "itemizedlist"; "autoref" ].

(** ** The reference table, member by member *)

Definition field_name (f : string * string * string) : string := fst (fst f).

Definition field_label (f : string * string * string) : string := snd (fst f).

Definition field_id (f : string * string * string) : string := snd f.

(** The descriptor [build_ref_dict] stores for a member. *)
Definition member_data (f : string * string * string) : ref_data :=
  mk_ref_data (text_escape (field_name f)) (field_label f) (field_id f).

(** One round of the loop of [build_ref_dict]. *)
Definition add_member (ret : gmap string ref_data)
    (f : string * string * string) : gmap string ref_data :=
  <[ field_name f := member_data f ]> (<[ field_id f := member_data f ]> ret).

(** ** Shape of escaped text *)

(** Every underscore of [s] comes right after a backslash; [after_backslash]
    tells whether the character before [s] is one. *)
Fixpoint underscores_escaped (after_backslash : bool) (s : string) : bool :=
  match s with
  | EmptyString => true
  | String c r =>
      if Ascii.eqb c "_"
      then after_backslash && underscores_escaped false r
      else underscores_escaped (Ascii.eqb c "\") r
  end.

(** The number of reserved characters of [s]. *)
Fixpoint count_reserved (s : string) : nat :=
  match s with
  | EmptyString => 0
  | String c r => (if reserved c then 1 else 0) + count_reserved r
  end.

(** ** What rendering can raise *)

Definition render_exn (e : exn) : bool :=
  match e with
  | KeyError | AttributeError | RecursionError => true
  | IndexError | TypeError | StopIteration => false
  end.

(** [r] raises nothing outside [render_exn]. *)
Definition raises_render_exn (r : result string) : Prop :=
  forall e, r = Raise e -> render_exn e = true.

(** A document whose only member has no [manual] node. *)
Definition unlabelled_doc : node := document [] [untyped_member].

(** A member that declares a name but no type for it. *)
Definition short_typed_member : node :=
  Tag "memberdef" {[ "id" := "k_1" ]}
    [ elem "type" [txt "int"]; elem "name" [txt "k"];
      elem "param" [elem "declname" [txt "x"]];
      elem "detaileddescription" [] ].

(** ** Paragraphs of the details and blocks of the document *)

(** A paragraph that holds no parameter list. *)
Definition plain_paragraph (n : node) : bool :=
  match bs4.find "parameterlist" n with
  | None => true
  | Some _ => false
  end.

(** The body of the loop over the members: the block of one member. *)
Definition member_block (fuel : nat) (level : string)
    (ref_dict : gmap string ref_data) (member : node) : result string :=
  let! (details, params, ret) := parse_detailed_desc fuel member ref_dict in
  generate_api_doc fuel level member params ret details.

(** A document with neither compound nor member. *)
Definition bare_doc : node := elem "[document]" [elem "doxygen" []].

(** ** Documented parameter items *)

(** A documented item that can be attached to [params]: it has a name that
    is a key of [params] and a description whose paragraph renders. *)
Definition attachable (fuel : nat) (rd : gmap string ref_data)
    (params : gmap string param_info) (item : node) : Prop :=
  exists nm desc,
    get_text (bs4.find "parametername" item) false = Ok nm
    /\ is_Some (params !! nm)
    /\ bs4.find "parameterdescription" item = Some desc
    /\ is_ok (parse_para fuel (bs4.find "para" desc) rd) = true.

(** [int m(seL4_Word msg_info)], nothing documented. *)
Definition undocumented_member : node :=
  Tag "memberdef" {[ "id" := "m_1" ]}
    [ elem "type" [txt "int"]; elem "name" [txt "m"];
      elem "param" [elem "type" [txt "seL4_Word"]; elem "declname" [txt "msg_info"]];
      elem "detaileddescription" [] ].

(** A member whose return section refers to an id that no member has. *)
Definition dangling_return_member : node :=
  Tag "memberdef" {[ "inline" := "no"; "static" := "no"; "id" := "group_4d" ]}
    [ elem "type" [txt "int"];
      elem "name" [txt "seL4_Poll"];
      Tag "manual" {[ "label" := "sel4_poll"; "name" := "Poll" ]} [];
      elem "briefdescription" [elem "para" [txt "Poll"]];
      elem "detaileddescription"
        [ elem "para" [txt "Polls."];
          elem "para"
            [ elem "parameterlist" [];
              Tag "simplesect" {[ "kind" := "return" ]}
                [ elem "para"
                    [ txt "see ";
                      elem "itemizedlist"
                        [ elem "listitem"
                            [ elem "para"
                                [Tag "ref" {[ "refid" := "group_9z" ]} [txt "x"]] ] ] ] ] ] ] ].

Definition dangling_return_doc : node := document [] [dangling_return_member].

(** * Properties *)

(** ** The model on the sample documents *)

Example split_strip_example :
  split "  unsigned   void " = ["unsigned"; "void"]
  /\ strip "  unsigned   void " = "unsigned   void".
Proof. split; reflexivity. Qed.

(** Plain text, a code span, an unknown kind and a list, in order. *)
Example parse_para_example :
  parse_para 4
    (Some (elem "para"
             [ txt "a_b "; elem "computeroutput" [txt "x_y"]; elem "bold" [txt "z"];
               elem "itemizedlist" [elem "listitem" [elem "para" [txt "one"]]] ])) ∅
  = Ok ("a\_b \texttt{x\_y}\begin{itemize}" +:+ LF +:+ "\item one" +:+ LF
        +:+ "\end{itemize}" +:+ LF).
Proof. reflexivity. Qed.

Example generate_example :
  generate_general_syscall_doc 3 two_member_doc "subsection"
  = Ok ("System calls" +:+ LF
        +:+ "\apidoc" +:+ LF
        +:+ "[{subsection}]" +:+ LF
        +:+ "{sel4_yield}" +:+ LF
        +:+ "{Yield}" +:+ LF
        +:+ "{Yield the timeslice}" +:+ LF
        +:+ "{static inline void seL4\_Yield}" +:+ LF
        +:+ "{\param{void}{}{}}" +:+ LF
        +:+ "{\noret}" +:+ LF
        +:+ "{See \autoref{sec:sys_yield}}" +:+ LF
        +:+ "        " +:+ LF
        +:+ "\apidoc" +:+ LF
        +:+ "[{subsection}]" +:+ LF
        +:+ "{sel4_send}" +:+ LF
        +:+ "{Send}" +:+ LF
        +:+ "{Send to a capability}" +:+ LF
        +:+ "{inline seL4\_Error seL4\_Send}" +:+ LF
        +:+ "{\param{seL4\_CPtr}{dest}{The cap.}" +:+ LF
        +:+ "\param{seL4\_MessageInfo\_t}{msg\_info}{\todo}" +:+ LF
        +:+ "}" +:+ LF
        +:+ "{first}" +:+ LF
        +:+ "{See \apifunc{seL4\_Yield}{sel4_yield}}" +:+ LF
        +:+ "        ").
Proof. vm_compute. reflexivity. Qed.

(** ** Results *)

Lemma bind_Ok {A B : Type} (c : result A) (k : A -> result B) (b : B) :
  bind c k = Ok b <-> exists a, c = Ok a /\ k a = Ok b.
Proof.
  split.
  - destruct c as [a|e]; simpl; [eauto | discriminate].
  - intros (a & -> & Hk). exact Hk.
Qed.

Lemma bind_Raise {A B : Type} (c : result A) (k : A -> result B) (e : exn) :
  c = Raise e -> bind c k = Raise e.
Proof. intros ->. reflexivity. Qed.

Lemma is_ok_true {A : Type} (c : result A) :
  is_ok c = true <-> exists a, c = Ok a.
Proof.
  destruct c as [x|e]; simpl; split; eauto; try discriminate.
  intros [a Ha]. discriminate.
Qed.

Lemma is_ok_false {A : Type} (c : result A) :
  is_ok c = false <-> exists e, c = Raise e.
Proof.
  destruct c as [x|e]; simpl; split; eauto; try discriminate.
  intros [e' Ha]. discriminate.
Qed.

Lemma bind_not_ok_cont {A B : Type} (c : result A) (k : A -> result B) :
  (forall a, is_ok (k a) = false) -> is_ok (bind c k) = false.
Proof. intros H. destruct c; simpl; [apply H | reflexivity]. Qed.

Lemma bind_not_ok {A B : Type} (c : result A) (k : A -> result B) :
  is_ok c = false -> is_ok (bind c k) = false.
Proof. destruct c; simpl; [discriminate | reflexivity]. Qed.

(** ** Strings *)

Lemma append_cons (c : ascii) (s t : string) :
  String c s +:+ t = String c (s +:+ t).
Proof. reflexivity. Qed.

Lemma append_nil_l (s : string) : "" +:+ s = s.
Proof. reflexivity. Qed.

Lemma append_nil_r (s : string) : s +:+ "" = s.
Proof. induction s as [|c s IH]; [reflexivity|]. rewrite append_cons, IH. reflexivity. Qed.

Lemma append_assoc (s t u : string) : (s +:+ t) +:+ u = s +:+ (t +:+ u).
Proof.
  induction s as [|c s IH]; [reflexivity|].
  rewrite !append_cons, IH. reflexivity.
Qed.

Lemma length_append (s t : string) :
  String.length (s +:+ t) = String.length s + String.length t.
Proof.
  induction s as [|c s IH]; [reflexivity|].
  rewrite append_cons. simpl. rewrite IH. reflexivity.
Qed.

Lemma list_ascii_append (s t : string) :
  list_ascii_of_string (s +:+ t)
  = (list_ascii_of_string s ++ list_ascii_of_string t)%list.
Proof.
  induction s as [|c s IH]; [reflexivity|].
  rewrite append_cons. simpl. rewrite IH. reflexivity.
Qed.

(** ** The Text Escaper *)

Lemma text_escape_cons (c : ascii) (s : string) :
  text_escape (String c s) =
  (if reserved c then text_escape (String c "") else String c "") +:+ text_escape s.
Proof.
  unfold reserved. cbn [text_escape].
  destruct (assoc c ESCAPE_PATTERNS) as [e|]; [|reflexivity].
  rewrite append_nil_r. reflexivity.
Qed.

Lemma text_escape_app (s1 s2 : string) :
  text_escape (s1 +:+ s2) = text_escape s1 +:+ text_escape s2.
Proof.
  induction s1 as [|c s1 IH]; [reflexivity|].
  rewrite append_cons, (text_escape_cons c (s1 +:+ s2)), (text_escape_cons c s1).
  rewrite IH, append_assoc. reflexivity.
Qed.

Lemma reserved_underscore (c : ascii) : reserved c = true <-> c = "_"%char.
Proof.
  unfold reserved, ESCAPE_PATTERNS. cbn [assoc].
  destruct (Ascii.eqb_spec "_"%char c) as [<-|Hne].
  - split; reflexivity.
  - split; [discriminate | congruence].
Qed.

Lemma text_escape_unreserved (s : string) :
  has_reserved s = false -> text_escape s = s.
Proof.
  unfold has_reserved. induction s as [|c s IH]; [reflexivity|].
  simpl list_ascii_of_string. simpl existsb.
  intros [Hc Hs]%orb_false_iff.
  rewrite text_escape_cons, Hc, IH by exact Hs. reflexivity.
Qed.

(** C7. [text_escape] is a total function on strings (it has no failure
    case: the result type is [string], and the empty string maps to the empty
    string). It acts character by character: it distributes over
    concatenation, maps each reserved character (a key of [ESCAPE_PATTERNS],
    which is the underscore alone) to exactly its entry (backslash,
    underscore), and maps every other character to itself. On a string with
    no reserved character it is the identity. *)
Theorem text_escape_exact :
  text_escape "" = ""
  /\ (forall s1 s2, text_escape (s1 +:+ s2) = text_escape s1 +:+ text_escape s2)
  /\ (forall c e, In (c, e) ESCAPE_PATTERNS -> text_escape (String c "") = e)
  /\ (forall c, reserved c = true <-> c = "_"%char)
  /\ text_escape "_" = "\_"
  /\ (forall c, reserved c = false -> text_escape (String c "") = String c "")
  /\ (forall s, has_reserved s = false -> text_escape s = s).
Proof.
  split; [reflexivity|].
  split; [exact text_escape_app|].
  split.
  { intros c e [Heq|[]]. inversion Heq; subst. reflexivity. }
  split; [exact reserved_underscore|].
  split; [reflexivity|].
  split.
  { intros c Hc. apply text_escape_unreserved.
    unfold has_reserved. simpl. rewrite Hc. reflexivity. }
  exact text_escape_unreserved.
Qed.

Lemma text_escape_exact_witness :
  has_reserved "seL4 Yield" = false /\ text_escape "seL4 Yield" = "seL4 Yield".
Proof.
  split; [reflexivity|].
  apply (proj2 (proj2 (proj2 (proj2 (proj2 (proj2 text_escape_exact)))))).
  reflexivity.
Defined.

(** ** parse_prototype *)

(** C1, as stated, fails: with both flags affirmative the prototype of
    [proto_member] reads "static inline int f", where "static" comes first;
    it is not "inline static int f". *)
Lemma prototype_order_counterexample :
  bs4.getitem proto_member "inline" = Ok "yes"
  /\ bs4.getitem proto_member "static" = Ok "yes"
  /\ parse_prototype proto_member = Ok "static inline int f"
  /\ index 0 "static" "static inline int f" = Some 0
  /\ index 0 "inline" "static inline int f" = Some 7
  /\ inline_before_static "static inline int f" = false
  /\ parse_prototype proto_member <> Ok "inline static int f".
Proof.
  assert (H : parse_prototype proto_member = Ok "static inline int f")
    by (vm_compute; reflexivity).
  repeat split; try (vm_compute; reflexivity).
  rewrite H. discriminate.
Qed.

(** C1, amended. For a member that carries the [inline] and [static]
    attributes and has a type and a name node, [parse_prototype] returns the
    escaped return-type text, a space and the escaped name text, prefixed by
    "inline " exactly when the inline flag is "yes", and that in turn by
    "static " exactly when the static flag is "yes". With both flags
    affirmative the output is "static inline <type> <name>": "static" comes
    before "inline". *)
Theorem parse_prototype_exact (parent t n : node) (i s : string) :
  bs4.getitem parent "inline" = Ok i ->
  bs4.getitem parent "static" = Ok s ->
  bs4.find "type" parent = Some t ->
  bs4.find "name" parent = Some n ->
  parse_prototype parent
  = Ok ((if String.eqb s "yes" then "static " else "")
        +:+ (if String.eqb i "yes" then "inline " else "")
        +:+ text_escape (node_text t) +:+ " " +:+ text_escape (node_text n))
  /\ (i = "yes" -> s = "yes" ->
      parse_prototype parent
      = Ok ("static inline " +:+ text_escape (node_text t)
            +:+ " " +:+ text_escape (node_text n))).
Proof.
  intros Hi Hs Ht Hn.
  assert (H : parse_prototype parent
    = Ok ((if String.eqb s "yes" then "static " else "")
          +:+ (if String.eqb i "yes" then "inline " else "")
          +:+ text_escape (node_text t) +:+ " " +:+ text_escape (node_text n))).
  { unfold parse_prototype. rewrite Hi, Hs, Ht, Hn. cbn [bind get_text].
    destruct (String.eqb s "yes"), (String.eqb i "yes"); reflexivity. }
  split; [exact H|].
  intros -> ->. rewrite H. reflexivity.
Qed.

Lemma parse_prototype_exact_witness :
  parse_prototype proto_member = Ok "static inline int f".
Proof.
  apply (parse_prototype_exact proto_member (elem "type" [txt "int"])
           (elem "name" [txt "f"]) "yes" "yes"); reflexivity.
Defined.

(** ** split and strip *)

Lemma append_not_empty (w : string) (c : ascii) :
  is_empty (w +:+ String c "") = false.
Proof. destruct w; reflexivity. Qed.

Lemma split_go_nil (s w : string) :
  split_go w s = [] <-> w = "" /\ all_space s = true.
Proof.
  revert w. induction s as [|c r IH]; intros w.
  - cbn. destruct w; cbn; split; try tauto; try discriminate.
    intros [? _]. discriminate.
  - cbn [split_go all_space list_ascii_of_string forallb].
    destruct (isspace c) eqn:Hc; cbn [andb].
    + destruct w as [|a w]; cbn [is_empty].
      * rewrite IH. tauto.
      * split; [discriminate | intros [? _]; discriminate].
    + rewrite IH. split.
      * intros [Hw _]. pose proof (append_not_empty w c) as Hne.
        rewrite Hw in Hne. discriminate.
      * intros [_ ?]. discriminate.
Qed.

Lemma split_nil (s : string) : split s = [] <-> all_space s = true.
Proof. unfold split. rewrite split_go_nil. tauto. Qed.

Lemma last_item_snoc {A : Type} (l : list A) (x : A) :
  last_item (l ++ [x]) = Ok x.
Proof. unfold last_item. rewrite last_snoc. reflexivity. Qed.

Lemma last_item_ok {A : Type} (l : list A) :
  l <> [] -> exists x l', l = l' ++ [x] /\ last_item l = Ok x.
Proof.
  intros Hne. destruct (last l) as [x|] eqn:Hl.
  - apply last_Some in Hl as [l' ->]. exists x, l'. split; [reflexivity|].
    apply last_item_snoc.
  - apply last_None in Hl. contradiction.
Qed.

(** ** The stages of parse_detailed_desc *)

Lemma declared_params_ret (parent ret_type : node)
    (params : gmap string param_info) (order : list string) :
  declared_params parent = Ok (ret_type, params, order) ->
  bs4.find "type" parent = Some ret_type.
Proof.
  unfold declared_params, bs4.find.
  destruct (bs4.find_all "type" parent) as [|r types_iter]; [discriminate|].
  intros H. apply bind_Ok in H as ([p o] & _ & H). inversion H; subst. reflexivity.
Qed.

Lemma desc_params_ret (fuel : nat) (parent ret_type : node)
    (rd : gmap string ref_data) (ps : string) :
  desc_params fuel parent rd = Ok (ret_type, ps) ->
  bs4.find "type" parent = Some ret_type.
Proof.
  unfold desc_params. intros H.
  apply bind_Ok in H as ([[r p] o] & Hd & H).
  apply bind_Ok in H as (p' & _ & H).
  apply bind_Ok in H as (str & _ & H).
  inversion H; subst. eapply declared_params_ret; eassumption.
Qed.

Lemma parse_detailed_desc_stages (fuel : nat) (parent ret_type : node)
    (rd : gmap string ref_data) (ps d : string) :
  desc_params fuel parent rd = Ok (ret_type, ps) ->
  desc_details fuel parent rd = Ok d ->
  parse_detailed_desc fuel parent rd
  = (let! ret := desc_return fuel ret_type parent rd in
     Ok (todo_if_empty (strip d), ps, todo_if_empty (strip ret))).
Proof.
  intros Hp Hd. unfold parse_detailed_desc. rewrite Hp. cbn [bind].
  rewrite Hd. reflexivity.
Qed.

Lemma desc_return_split (fuel : nat) (ret_type parent : node)
    (rd : gmap string ref_data) :
  desc_return fuel ret_type parent rd
  = (let! w := last_item (split (node_text ret_type)) in
     return_scan fuel (bs4.find_all "simplesect" parent) rd (default_return_doc w)).
Proof. reflexivity. Qed.


Lemma return_scan_first (fuel : nat) (pre post : list node) (n : node)
    (rd : gmap string ref_data) (ret : string) :
  forallb other_section pre = true ->
  return_section n = true ->
  return_scan fuel (pre ++ n :: post) rd ret
  = parse_para fuel (bs4.find "para" n) rd.
Proof.
  intros Hpre Hn. induction pre as [|m pre IH].
  - cbn [app return_scan]. unfold return_section in Hn.
    destruct (bs4.getitem n "kind") as [k|e]; [|discriminate].
    cbn [bind]. rewrite Hn. reflexivity.
  - cbn [forallb] in Hpre. apply andb_true_iff in Hpre as [Hm Hpre].
    cbn [app return_scan]. unfold other_section in Hm.
    destruct (bs4.getitem m "kind") as [k|e]; [|discriminate].
    cbn [bind]. apply negb_true_iff in Hm. rewrite Hm. auto.
Qed.


(** C9. [parse_detailed_desc] takes [split()[-1]] of the return-type text
    without a guard. The split is empty exactly when the text is empty or all
    whitespace; then the return stage raises [IndexError], the whole
    operation raises it once the earlier stages have succeeded, and in no
    case does the operation return. When the text has a character that is
    not whitespace the last component exists and the stage goes on to the
    scan of the description sections. *)
Theorem empty_return_type_raises (fuel : nat) (parent ret_type : node)
    (rd : gmap string ref_data) :
  (split (node_text ret_type) = [] <-> all_space (node_text ret_type) = true)
  /\ (all_space (node_text ret_type) = true ->
      desc_return fuel ret_type parent rd = Raise IndexError
      /\ (forall ps d,
            desc_params fuel parent rd = Ok (ret_type, ps) ->
            desc_details fuel parent rd = Ok d ->
            parse_detailed_desc fuel parent rd = Raise IndexError)
      /\ (bs4.find "type" parent = Some ret_type ->
          is_ok (parse_detailed_desc fuel parent rd) = false))
  /\ (all_space (node_text ret_type) = false ->
      exists w ws,
        split (node_text ret_type) = ws ++ [w]
        /\ desc_return fuel ret_type parent rd
           = return_scan fuel (bs4.find_all "simplesect" parent) rd
               (default_return_doc w)).
Proof.
  split; [apply split_nil|]. split.
  - intros Hsp. apply split_nil in Hsp.
    assert (Hret : desc_return fuel ret_type parent rd = Raise IndexError).
    { rewrite desc_return_split, Hsp. reflexivity. }
    split; [exact Hret|]. split.
    + intros ps d Hp Hd.
      rewrite (parse_detailed_desc_stages _ _ _ _ _ _ Hp Hd), Hret. reflexivity.
    + intros Hty. unfold parse_detailed_desc.
      destruct (desc_params fuel parent rd) as [[r ps]|e] eqn:Hp; [|reflexivity].
      apply desc_params_ret in Hp. rewrite Hty in Hp. inversion Hp; subst r.
      cbn [bind]. destruct (desc_details fuel parent rd); [|reflexivity].
      cbn [bind]. rewrite Hret. reflexivity.
  - intros Hsp.
    destruct (last_item_ok (split (node_text ret_type))) as (w & ws & Hs & Hl).
    { intros Hnil. apply split_nil in Hnil. congruence. }
    exists w, ws. split; [exact Hs|].
    rewrite desc_return_split, Hl. reflexivity.
Qed.

Lemma empty_return_type_raises_witness :
  all_space (node_text (elem "type" [])) = true
  /\ parse_detailed_desc 1 untyped_member ∅ = Raise IndexError.
Proof.
  split; [reflexivity|].
  apply (proj1 (proj2 (proj1 (proj2
           (empty_return_type_raises 1 untyped_member (elem "type" []) ∅))
           eq_refl)) "\param{void}{}{}" ""); reflexivity.
Defined.

(** ** The return documentation *)




(** ** The parameter list *)

Lemma filter_negb_length {A : Type} (f : A -> bool) (l : list A) :
  length (List.filter (fun x => negb (f x)) l) + length (List.filter f l)
  = length l.
Proof.
  induction l as [|x l IH]; [reflexivity|].
  cbn [List.filter]. destruct (f x); cbn [negb length]; lia.
Qed.

Lemma non_void_names_length (names types_iter : list node) :
  length names <= length types_iter ->
  length (non_void_names names types_iter)
  + length (List.filter void_typed (combine names types_iter))
  = length names.
Proof.
  intros Hle. unfold non_void_names.
  rewrite length_map, filter_negb_length, length_combine. lia.
Qed.

Lemma non_void_names_cons (n t : node) (names types_iter : list node) :
  non_void_names (n :: names) (t :: types_iter)
  = if String.eqb (bs4.get_text t) "void"
    then non_void_names names types_iter
    else bs4.get_text n :: non_void_names names types_iter.
Proof.
  unfold non_void_names. cbn [combine List.filter]. unfold void_typed at 1.
  cbn [snd]. destruct (String.eqb (bs4.get_text t) "void"); reflexivity.
Qed.

Lemma pair_params_ok (names types_iter : list node)
    (params : gmap string param_info) (order : list string) :
  length names <= length types_iter ->
  exists params',
    pair_params names types_iter params order
    = Ok (params', order ++ non_void_names names types_iter)
    /\ dom params' = dom params ∪ list_to_set (non_void_names names types_iter).
Proof.
  revert types_iter params order.
  induction names as [|n names IH]; intros types_iter params order Hle.
  - exists params. cbn. rewrite app_nil_r. split; [reflexivity|].
    rewrite union_empty_r_L. reflexivity.
  - destruct types_iter as [|t types_iter]; [cbn in Hle; lia|].
    cbn [length] in Hle. apply le_S_n in Hle.
    rewrite non_void_names_cons. cbn [pair_params].
    destruct (String.eqb (bs4.get_text t) "void").
    + apply IH. exact Hle.
    + destruct (IH types_iter
                  (<[bs4.get_text n := mk_param_info (bs4.get_text t) None]> params)
                  (order ++ [bs4.get_text n]) Hle) as (params' & Heq & Hdom).
      exists params'. split.
      * rewrite Heq, <- app_assoc. reflexivity.
      * rewrite Hdom, dom_insert_L, list_to_set_cons.
        rewrite (union_comm_L {[bs4.get_text n]} (dom params)), union_assoc_L.
        reflexivity.
Qed.

Lemma pair_params_short (names types_iter : list node)
    (params : gmap string param_info) (order : list string) :
  length types_iter < length names ->
  pair_params names types_iter params order = Raise StopIteration.
Proof.
  revert types_iter params order.
  induction names as [|n names IH]; intros types_iter params order Hlt.
  - cbn in Hlt. lia.
  - destruct types_iter as [|t types_iter]; [reflexivity|].
    cbn [length] in Hlt. cbn [pair_params].
    destruct (String.eqb (bs4.get_text t) "void"); apply IH; lia.
Qed.

Lemma attach_descs_dom (fuel : nat) (items : list node)
    (rd : gmap string ref_data) (params params' : gmap string param_info) :
  attach_descs fuel items rd params = Ok params' -> dom params' = dom params.
Proof.
  revert params. induction items as [|item items IH]; intros params.
  - cbn. intros H. inversion H. reflexivity.
  - cbn [attach_descs]. intros H.
    apply bind_Ok in H as (nm & _ & H).
    apply bind_Ok in H as (desc & _ & H).
    apply bind_Ok in H as (r & _ & H).
    destruct (params !! nm) as [info|] eqn:Hl; [|discriminate].
    apply IH in H. rewrite H. apply dom_insert_lookup_L. eauto.
Qed.

Lemma join_empty_cons (x : string) (l : list string) :
  join "" (x :: l) = x +:+ join "" l.
Proof. destruct l; cbn [join]; [rewrite append_nil_r|]; reflexivity. Qed.

Lemma params_loop_ok (params : gmap string param_info) (order : list string)
    (acc : string) :
  (forall nm, nm ∈ order -> is_Some (params !! nm)) ->
  exists entries,
    Forall2 (param_entry params) order entries
    /\ params_loop params order acc = Ok (acc +:+ join "" entries).
Proof.
  revert acc. induction order as [|nm order IH]; intros acc Hin.
  - exists []. split; [constructor|]. cbn. rewrite append_nil_r. reflexivity.
  - destruct (Hin nm) as [info Hinfo]; [left|].
    destruct (IH (acc +:+ ("\param{" +:+ text_escape (pi_type info) +:+ "}{"
                           +:+ text_escape nm +:+ "}{"
                           +:+ todo_if_empty (strip (default "" (pi_desc info)))
                           +:+ "}" +:+ LF)))
      as (entries & Hall & Heq).
    { intros x Hx. apply Hin. right. exact Hx. }
    eexists (_ :: entries). split.
    + constructor; [|exact Hall]. exists info. split; [exact Hinfo | reflexivity].
    + cbn [params_loop]. rewrite Hinfo. cbn [deref bind generate_param_string get_text].
      unfold node_text. rewrite Heq, join_empty_cons, append_assoc. reflexivity.
Qed.

Lemma desc_params_block (fuel : nat) (parent ret_type : node)
    (rd : gmap string ref_data) (params : gmap string param_info)
    (order : list string) (ps : string) :
  declared_params parent = Ok (ret_type, params, order) ->
  dom params = list_to_set order ->
  desc_params fuel parent rd = Ok (ret_type, ps) ->
  exists params',
    attach_descs fuel (bs4.find_all "parameteritem" parent) rd params = Ok params'
    /\ dom params' = list_to_set order
    /\ (order = [] -> ps = generate_empty_param_string)
    /\ (order <> [] ->
        exists entries,
          Forall2 (param_entry params') order entries /\ ps = join "" entries).
Proof.
  intros Hd Hdom. unfold desc_params. rewrite Hd. cbn [bind].
  intros H. apply bind_Ok in H as (params' & Hatt & H).
  apply bind_Ok in H as (str & Hblock & H). inversion H; subst str.
  pose proof (attach_descs_dom _ _ _ _ _ Hatt) as Hdom'. rewrite Hdom in Hdom'.
  exists params'. split; [exact Hatt|]. split; [exact Hdom'|].
  unfold params_block in Hblock. split.
  - intros ->. rewrite list_to_set_nil in Hdom'.
    apply dom_empty_inv_L in Hdom'. subst params'.
    rewrite map_size_empty in Hblock. cbn in Hblock. inversion Hblock. reflexivity.
  - intros Hne.
    destruct (Nat.eqb_spec (size params') 0) as [Hz|Hnz].
    + apply map_size_empty_inv in Hz. subst params'.
      rewrite dom_empty_L in Hdom'. destruct order as [|x order]; [contradiction|].
      rewrite list_to_set_cons in Hdom'.
      assert (Hx : x ∈ (∅ : gset string)).
      { rewrite Hdom'. apply elem_of_union_l, elem_of_singleton. reflexivity. }
      apply not_elem_of_empty in Hx. contradiction.
    + destruct (params_loop_ok params' order "") as (entries & Hall & Heq).
      { intros nm Hnm. apply elem_of_dom. rewrite Hdom'.
        apply elem_of_list_to_set. exact Hnm. }
      exists entries. split; [exact Hall|].
      rewrite Heq in Hblock. inversion Hblock. reflexivity.
Qed.

(** The parameter stage: the list of declared parameters and the block
    made from it. *)
Lemma parameter_stage_exact (parent ret_type : node) (types_iter : list node) :
  bs4.find_all "type" parent = ret_type :: types_iter ->
  length (bs4.find_all "declname" parent) <= length types_iter ->
  let names := bs4.find_all "declname" parent in
  let order := non_void_names names types_iter in
  let voids := List.filter void_typed (combine names types_iter) in
  exists params,
    declared_params parent = Ok (ret_type, params, order)
    /\ dom params = list_to_set order
    /\ length order = length names - length voids
    /\ length order + length voids = length names
    /\ (forall fuel rd ps,
          desc_params fuel parent rd = Ok (ret_type, ps) ->
          (order = [] -> ps = "\param{void}{}{}")
          /\ (order <> [] ->
              exists params' entries,
                Forall2 (param_entry params') order entries
                /\ ps = join "" entries))
    /\ (forall fuel rd,
          order = [] ->
          bs4.find_all "parameteritem" parent = [] ->
          desc_params fuel parent rd = Ok (ret_type, "\param{void}{}{}")).
Proof.
  intros Hty Hle names order voids.
  destruct (pair_params_ok names types_iter ∅ [] Hle) as (params & Hpair & Hdom).
  rewrite dom_empty_L, union_empty_l_L in Hdom. cbn [app] in Hpair.
  assert (Hdecl : declared_params parent = Ok (ret_type, params, order)).
  { unfold declared_params. rewrite Hty. fold names. rewrite Hpair. reflexivity. }
  pose proof (non_void_names_length names types_iter Hle) as Hlen.
  fold order voids in Hlen.
  exists params. split; [exact Hdecl|]. split; [exact Hdom|].
  split; [lia|]. split; [exact Hlen|]. split.
  - intros fuel rd ps Hps.
    destruct (desc_params_block _ _ _ _ _ _ _ Hdecl Hdom Hps)
      as (params' & _ & _ & Hnil & Hcons).
    split; [exact Hnil|]. intros Hne. destruct (Hcons Hne) as (entries & ? & ?).
    exists params', entries. split; assumption.
  - intros fuel rd Hnil Hitems. unfold desc_params. rewrite Hdecl. cbn [bind].
    rewrite Hitems. cbn [attach_descs bind].
    unfold order in Hnil. rewrite Hnil, list_to_set_nil in Hdom.
    apply dom_empty_inv_L in Hdom.
    rewrite Hdom. unfold params_block. rewrite map_size_empty. reflexivity.
Qed.

(** ** parse_para *)

Lemma parse_para_tag (fuel : nat) (nm : string) (attrs : gmap string string)
    (cs : list node) (rd : gmap string ref_data) :
  parse_para fuel (Some (Tag nm attrs cs)) rd
  = match get_parse_table (self_call fuel) !! nm with
    | Some rule => rule (Tag nm attrs cs) rd
    | None => Ok ""
    end.
Proof. destruct fuel; reflexivity. Qed.

Lemma parse_para_text (fuel : nat) (s : string) (rd : gmap string ref_data) :
  parse_para fuel (Some (NavigableString s)) rd = Ok (text_escape s).
Proof. destruct fuel; reflexivity. Qed.

Lemma parse_para_None (fuel : nat) (rd : gmap string ref_data) :
  parse_para fuel None rd = Raise AttributeError.
Proof. destruct fuel; reflexivity. Qed.

Lemma dom_get_parse_table
    (self : option node -> gmap string ref_data -> result string) :
  dom (get_parse_table self) = list_to_set parse_table_keys.
Proof. reflexivity. Qed.

Lemma get_parse_table_unknown
    (self : option node -> gmap string ref_data -> result string) (nm : string) :
  nm ∉ parse_table_keys -> get_parse_table self !! nm = None.
Proof.
  intros Hnm. apply not_elem_of_dom.
  rewrite dom_get_parse_table, elem_of_list_to_set. exact Hnm.
Qed.

Lemma parse_para_ref (fuel : nat) (attrs : gmap string string)
    (cs : list node) (rd : gmap string ref_data) :
  parse_para fuel (Some (Tag "ref" attrs cs)) rd
  = ref_to_format (Tag "ref" attrs cs) rd.
Proof. rewrite parse_para_tag. reflexivity. Qed.

Lemma parse_para_nameref (fuel : nat) (attrs : gmap string string)
    (cs : list node) (rd : gmap string ref_data) :
  parse_para fuel (Some (Tag "nameref" attrs cs)) rd
  = nref_to_format (Tag "nameref" attrs cs) rd.
Proof. rewrite parse_para_tag. reflexivity. Qed.

Lemma parse_para_para (fuel : nat) (attrs : gmap string string)
    (cs : list node) (rd : gmap string ref_data) :
  parse_para (S fuel) (Some (Tag "para" attrs cs)) rd
  = parse_items (parse_para fuel) "" cs rd.
Proof. rewrite parse_para_tag. reflexivity. Qed.

(** C5. The dispatch table has exactly the twelve kinds of
    [parse_table_keys]. A node of any other kind renders as the empty
    string, whatever its attributes, contents and the reference table; and a
    reference by id or by name renders as the empty string when the
    reference table is empty, without reading the node. Neither raises. *)
Theorem unknown_kind_and_empty_table_render_empty :
  (forall self, dom (get_parse_table self) = list_to_set parse_table_keys)
  /\ (forall fuel nm attrs cs rd,
        nm ∉ parse_table_keys ->
        parse_para fuel (Some (Tag nm attrs cs)) rd = Ok "")
  /\ (forall fuel attrs cs,
        parse_para fuel (Some (Tag "ref" attrs cs)) ∅ = Ok ""
        /\ parse_para fuel (Some (Tag "nameref" attrs cs)) ∅ = Ok "").
Proof.
  split; [exact dom_get_parse_table|]. split.
  - intros fuel nm attrs cs rd Hnm.
    rewrite parse_para_tag, get_parse_table_unknown by exact Hnm. reflexivity.
  - intros fuel attrs cs. rewrite parse_para_ref, parse_para_nameref.
    split; reflexivity.
Qed.

Lemma unknown_kind_and_empty_table_render_empty_witness :
  parse_para 0 (Some (Tag "bold" ∅ [txt "seL4"])) ∅ = Ok "".
Proof.
  apply (proj1 (proj2 unknown_kind_and_empty_table_render_empty)).
  refine (bool_decide_unpack _ _). vm_compute. exact I.
Defined.

(** ** build_ref_dict *)

Lemma build_loop_fields (members : list node) (ret : gmap string ref_data) :
  build_loop members ret
  = (let! fs := map_result member_fields members in
     Ok (foldl add_member ret fs)).
Proof.
  revert ret. induction members as [|m members IH]; intros ret; [reflexivity|].
  cbn [build_loop map_result].
  destruct (member_fields m) as [[[nm lbl] id]|e]; [|reflexivity].
  cbn [bind]. rewrite IH.
  destruct (map_result member_fields members); reflexivity.
Qed.

Lemma map_result_length {A B : Type} (f : A -> result B) (l : list A)
    (k : list B) :
  map_result f l = Ok k -> length k = length l.
Proof.
  revert k. induction l as [|x l IH]; intros k H.
  - inversion H. reflexivity.
  - cbn [map_result] in H. apply bind_Ok in H as (y & _ & H).
    apply bind_Ok in H as (ys & Hys & H). inversion H; subst.
    cbn [length]. f_equal. apply IH. exact Hys.
Qed.

Lemma add_member_lookup (ret : gmap string ref_data)
    (f : string * string * string) (k : string) :
  add_member ret f !! k
  = if decide (k = field_name f) then Some (member_data f)
    else if decide (k = field_id f) then Some (member_data f)
    else ret !! k.
Proof.
  unfold add_member. rewrite !lookup_insert.
  destruct (decide (k = field_name f)) as [->|Hn].
  - rewrite decide_True by reflexivity. reflexivity.
  - rewrite (decide_False (P := field_name f = k)) by congruence.
    destruct (decide (k = field_id f)) as [->|Hi].
    + rewrite decide_True by reflexivity. reflexivity.
    + rewrite (decide_False (P := field_id f = k)) by congruence. reflexivity.
Qed.

Lemma table_snoc (ret : gmap string ref_data)
    (fs : list (string * string * string)) (f : string * string * string) :
  foldl add_member ret (fs ++ [f]) = add_member (foldl add_member ret fs) f.
Proof. rewrite foldl_app. reflexivity. Qed.

Lemma table_dom (fs : list (string * string * string)) :
  dom (foldl add_member ∅ fs)
  = (list_to_set (field_id <$> fs) ∪ list_to_set (field_name <$> fs) : gset string).
Proof.
  induction fs as [|f fs IH] using rev_ind.
  - cbn. rewrite dom_empty_L, union_empty_r_L. reflexivity.
  - rewrite table_snoc. unfold add_member at 1. rewrite !dom_insert_L, IH.
    rewrite !fmap_app, !list_to_set_app_L. cbn [fmap list_fmap].
    rewrite !list_to_set_singleton_L.
    apply set_eq. intros x. rewrite !elem_of_union. tauto.
Qed.

Lemma table_entry (fs : list (string * string * string)) (k : string)
    (d : ref_data) :
  foldl add_member ∅ fs !! k = Some d ->
  exists f, f ∈ fs /\ d = member_data f /\ (k = field_id f \/ k = field_name f).
Proof.
  induction fs as [|f fs IH] using rev_ind.
  - cbn. rewrite lookup_empty. discriminate.
  - rewrite table_snoc, add_member_lookup.
    destruct (decide (k = field_name f)) as [->|Hn].
    { intros H. inversion H. exists f. rewrite elem_of_app, list_elem_of_singleton. auto. }
    destruct (decide (k = field_id f)) as [->|Hi].
    { intros H. inversion H. exists f. rewrite elem_of_app, list_elem_of_singleton. auto. }
    intros H. destruct (IH H) as (g & Hg & Hd & Hk).
    exists g. rewrite elem_of_app. auto.
Qed.

Lemma table_lookup_id (fs : list (string * string * string))
    (f : string * string * string) :
  NoDup (field_id <$> fs) ->
  Forall (fun k => k ∉ field_name <$> fs) (field_id <$> fs) ->
  f ∈ fs ->
  foldl add_member ∅ fs !! field_id f = Some (member_data f).
Proof.
  induction fs as [|g fs IH] using rev_ind; intros Hnd Hdis Hf.
  - inversion Hf.
  - rewrite (fmap_app field_id) in Hnd, Hdis. rewrite (fmap_app field_name) in Hdis.
    cbn [fmap list_fmap] in Hnd, Hdis.
    apply NoDup_app in Hnd as (Hnd & Hfresh & _).
    apply Forall_app in Hdis as [Hdis Hg].
    rewrite table_snoc, add_member_lookup.
    apply elem_of_app in Hf as [Hf|Hf].
    + assert (Hin : field_id f ∈ field_id <$> fs) by (apply list_elem_of_fmap_2; exact Hf).
      rewrite decide_False.
      2:{ intros Heq. rewrite Forall_forall in Hdis. apply (Hdis _ Hin).
          rewrite elem_of_app. right. rewrite Heq. left. }
      rewrite decide_False.
      2:{ intros Heq. apply (Hfresh _ Hin). rewrite Heq. left. }
      apply IH; [exact Hnd | | exact Hf].
      eapply Forall_impl; [exact Hdis|]. cbn. intros k Hk Hk'. apply Hk.
      rewrite elem_of_app. left. exact Hk'.
    + apply list_elem_of_singleton in Hf. subst g.
      destruct (decide (field_id f = field_name f)); [reflexivity|].
      rewrite decide_True by reflexivity. reflexivity.
Qed.

Lemma table_lookup_name (pre post : list (string * string * string))
    (f : string * string * string) :
  field_name f ∉ field_name <$> post ->
  field_name f ∉ field_id <$> post ->
  foldl add_member ∅ (pre ++ f :: post) !! field_name f = Some (member_data f).
Proof.
  induction post as [|g post IH] using rev_ind; intros Hn Hi.
  - rewrite table_snoc, add_member_lookup, decide_True by reflexivity. reflexivity.
  - rewrite fmap_app, elem_of_app in Hn, Hi. cbn [fmap list_fmap] in Hn, Hi.
    rewrite app_comm_cons, app_assoc, table_snoc, add_member_lookup.
    rewrite decide_False by (intros Heq; apply Hn; right; rewrite Heq; left).
    rewrite decide_False by (intros Heq; apply Hi; right; rewrite Heq; left).
    apply IH; tauto.
Qed.

Lemma last_occurrence {A : Type} (h : A -> string) (l : list A) (x : string) :
  x ∈ h <$> l ->
  exists pre g post, l = pre ++ g :: post /\ h g = x /\ x ∉ h <$> post.
Proof.
  induction l as [|a l IH]; intros Hx; [inversion Hx|].
  destruct (decide (x ∈ h <$> l)) as [Hin|Hnin].
  - destruct (IH Hin) as (pre & g & post & -> & Hg & Hpost).
    exists (a :: pre), g, post. auto.
  - cbn [fmap list_fmap] in Hx. apply elem_of_cons in Hx as [Hx|Hx]; [|contradiction].
    exists [], a, l. auto.
Qed.

Lemma table_size (fs : list (string * string * string)) :
  NoDup (field_id <$> fs) ->
  Forall (fun k => k ∉ field_name <$> fs) (field_id <$> fs) ->
  size (foldl add_member ∅ fs)
  = length fs + size (list_to_set (field_name <$> fs) : gset string).
Proof.
  intros Hnd Hdis. rewrite <- size_dom, table_dom, size_union.
  - rewrite size_list_to_set by exact Hnd. rewrite length_fmap. reflexivity.
  - intros k Hi Hn. rewrite elem_of_list_to_set in Hi, Hn.
    rewrite Forall_forall in Hdis. exact (Hdis k Hi Hn).
Qed.

Lemma build_ref_dict_fields (soup : node) (fs : list (string * string * string)) :
  map_result member_fields (bs4.find_all "memberdef" soup) = Ok fs ->
  build_ref_dict soup = Ok (foldl add_member ∅ fs).
Proof.
  intros Hfs. unfold build_ref_dict. rewrite build_loop_fields, Hfs. reflexivity.
Qed.

Lemma disjoint_name_not_id (fs : list (string * string * string))
    (f : string * string * string) :
  Forall (fun k => k ∉ field_name <$> fs) (field_id <$> fs) ->
  f ∈ fs ->
  field_name f ∉ field_id <$> fs.
Proof.
  intros Hdis Hf Hin. rewrite Forall_forall in Hdis.
  apply (Hdis _ Hin). apply list_elem_of_fmap_2. exact Hf.
Qed.

(** C4. Let [fs] be the (name, label, id) read from the members of a
    document whose ids are pairwise distinct and differ from every display
    name. The table has one id key per member, bound to that member's
    descriptor, and one name key per distinct display name: with unique names
    it has exactly 2N entries and both keys of a member return the same
    descriptor. When two members share a display name and no later member
    has it, the name key returns the later member's descriptor, while the two
    id keys are distinct and each keeps its own descriptor. *)
Theorem ref_table_two_keys_per_member (soup : node)
    (fs : list (string * string * string)) :
  map_result member_fields (bs4.find_all "memberdef" soup) = Ok fs ->
  NoDup (field_id <$> fs) ->
  Forall (fun k => k ∉ field_name <$> fs) (field_id <$> fs) ->
  exists rd,
    build_ref_dict soup = Ok rd
    /\ length fs = length (bs4.find_all "memberdef" soup)
    /\ (NoDup (field_name <$> fs) ->
        size rd = 2 * length fs
        /\ forall f, f ∈ fs ->
             rd !! field_id f = Some (member_data f)
             /\ rd !! field_name f = Some (member_data f))
    /\ size rd = length fs + size (list_to_set (field_name <$> fs) : gset string)
    /\ (forall pre f mid g post,
          fs = pre ++ f :: mid ++ g :: post ->
          field_name f = field_name g ->
          field_name g ∉ field_name <$> post ->
          rd !! field_name f = Some (member_data g)
          /\ rd !! field_id f = Some (member_data f)
          /\ rd !! field_id g = Some (member_data g)
          /\ field_id f <> field_id g).
Proof.
  intros Hfs Hnd Hdis. exists (foldl add_member ∅ fs).
  split; [apply build_ref_dict_fields; exact Hfs|].
  split; [eapply map_result_length; exact Hfs|].
  pose proof (table_size fs Hnd Hdis) as Hsize.
  split; [|split; [exact Hsize|]].
  - intros Hnames. split.
    + rewrite Hsize, size_list_to_set by exact Hnames. rewrite length_fmap. lia.
    + intros f Hf. split; [apply table_lookup_id; assumption|].
      pose proof (disjoint_name_not_id fs f Hdis Hf) as Hni.
      apply list_elem_of_split in Hf as (pre & post & ->).
      rewrite fmap_app in Hnames, Hni. cbn [fmap list_fmap] in Hnames, Hni.
      apply NoDup_app in Hnames as (_ & _ & Hpost).
      apply NoDup_cons in Hpost as [Hpost _].
      apply table_lookup_name; [exact Hpost|].
      intros Hin. apply Hni. rewrite elem_of_app. right. right. exact Hin.
  - intros pre f mid g post -> Hfg Hpost.
    assert (Hf : f ∈ pre ++ f :: mid ++ g :: post).
    { rewrite elem_of_app. right. left. }
    assert (Hg : g ∈ pre ++ f :: mid ++ g :: post).
    { rewrite elem_of_app. right. right. rewrite elem_of_app. right. left. }
    split; [|split; [|split]].
    + rewrite Hfg, app_comm_cons, app_assoc.
      apply table_lookup_name; [exact Hpost|].
      pose proof (disjoint_name_not_id _ g Hdis Hg) as Hni.
      intros Hin. apply Hni. rewrite !fmap_app, !elem_of_app. right.
      cbn [fmap list_fmap]. right. rewrite fmap_app, elem_of_app. right. right. exact Hin.
    + apply table_lookup_id; assumption.
    + apply table_lookup_id; assumption.
    + rewrite fmap_app in Hnd. cbn [fmap list_fmap] in Hnd.
      apply NoDup_app in Hnd as (_ & _ & Hnd).
      apply NoDup_cons in Hnd as [Hnd _].
      intros Heq. apply Hnd. rewrite Heq, fmap_app, elem_of_app. right. left.
Qed.

Lemma ref_table_two_keys_per_member_witness :
  exists rd,
    build_ref_dict two_member_doc = Ok rd
    /\ size rd = 4
    /\ rd !! "group_1a" = rd !! "seL4_Yield"
    /\ rd !! "seL4_Send" = Some (mk_ref_data "seL4\_Send" "sel4_send" "group_2b").
Proof.
  destruct (ref_table_two_keys_per_member two_member_doc
              [ ("seL4_Yield", "sel4_yield", "group_1a");
                ("seL4_Send", "sel4_send", "group_2b") ])
    as (rd & Hb & _ & Huniq & _).
  - reflexivity.
  - refine (bool_decide_unpack _ _). vm_compute. exact I.
  - refine (bool_decide_unpack _ _). vm_compute. exact I.
  - destruct Huniq as [Hsize Hkeys].
    { refine (bool_decide_unpack _ _). vm_compute. exact I. }
    exists rd. split; [exact Hb|]. split; [exact Hsize|].
    destruct (Hkeys ("seL4_Yield", "sel4_yield", "group_1a")) as [Hi Hn]; [left|].
    destruct (Hkeys ("seL4_Send", "sel4_send", "group_2b")) as [_ Hn']; [right; left|].
    split; [|exact Hn'].
    etransitivity; [exact Hi | symmetry; exact Hn].
Defined.

(** ** Escaping once *)

Lemma has_reserved_app (s t : string) :
  has_reserved (s +:+ t) = has_reserved s || has_reserved t.
Proof. unfold has_reserved. rewrite list_ascii_append. apply existsb_app. Qed.

Lemma has_reserved_cons (c : ascii) (s : string) :
  has_reserved (String c s) = reserved c || has_reserved s.
Proof. reflexivity. Qed.

Lemma text_escape_reserved (c : ascii) :
  reserved c = true -> text_escape (String c "") = "\_".
Proof. intros ->%reserved_underscore. reflexivity. Qed.

Lemma text_escape_length (s : string) :
  String.length s <= String.length (text_escape s)
  /\ (has_reserved s = true -> String.length s < String.length (text_escape s)).
Proof.
  induction s as [|c s [IHle IHlt]].
  - split; [reflexivity | discriminate].
  - rewrite text_escape_cons, length_append, has_reserved_cons.
    destruct (reserved c) eqn:Hc.
    + rewrite (text_escape_reserved c Hc). cbn. split; [lia | intros _; lia].
    + cbn. split; [lia|]. intros H. apply IHlt in H. lia.
Qed.

Lemma has_reserved_escape (s : string) :
  has_reserved s = true -> has_reserved (text_escape s) = true.
Proof.
  induction s as [|c s IH]; [discriminate|].
  rewrite text_escape_cons, has_reserved_app, has_reserved_cons.
  destruct (reserved c) eqn:Hc.
  - intros _. rewrite (text_escape_reserved c Hc). reflexivity.
  - cbn [orb]. intros H. rewrite (IH H). apply orb_true_r.
Qed.

Lemma escape_twice_differs (s : string) :
  has_reserved s = true ->
  text_escape s <> s /\ text_escape (text_escape s) <> text_escape s.
Proof.
  intros H. split; intros Heq.
  - pose proof (proj2 (text_escape_length s) H) as Hlt. rewrite Heq in Hlt. lia.
  - pose proof (proj2 (text_escape_length _) (has_reserved_escape s H)) as Hlt.
    rewrite Heq in Hlt. lia.
Qed.

Lemma size_pos_lookup (rd : gmap string ref_data) (k : string) (d : ref_data) :
  rd !! k = Some d -> Nat.ltb 0 (size rd) = true.
Proof.
  intros H. apply Nat.ltb_lt.
  assert (size rd <> 0); [|lia].
  apply map_size_non_empty_iff. intros ->. rewrite lookup_empty in H. discriminate.
Qed.

Lemma nameref_found (fuel : nat) (attrs : gmap string string) (cs : list node)
    (rd : gmap string ref_data) (k : string) (d : ref_data) :
  attrs !! "name" = Some k ->
  rd !! k = Some d ->
  parse_para fuel (Some (Tag "nameref" attrs cs)) rd
  = Ok ("\apifunc{" +:+ rd_name d +:+ "}{" +:+ rd_label d +:+ "}").
Proof.
  intros Ha Hk. rewrite parse_para_nameref. unfold nref_to_format.
  rewrite (size_pos_lookup _ _ _ Hk). cbn [bs4.getitem]. rewrite Ha. cbn [bind].
  unfold ref_format. rewrite Hk. reflexivity.
Qed.

Lemma nameref_missing (fuel : nat) (attrs : gmap string string) (cs : list node)
    (rd : gmap string ref_data) (k : string) :
  rd <> ∅ ->
  attrs !! "name" = Some k ->
  rd !! k = None ->
  parse_para fuel (Some (Tag "nameref" attrs cs)) rd = Raise KeyError.
Proof.
  intros Hne Ha Hk. rewrite parse_para_nameref. unfold nref_to_format.
  apply map_size_non_empty_iff in Hne.
  destruct (Nat.ltb_spec 0 (size rd)) as [_|Hz]; [|lia].
  cbn [bs4.getitem]. rewrite Ha. cbn [bind]. unfold ref_format. rewrite Hk.
  reflexivity.
Qed.

Lemma ref_missing (fuel : nat) (attrs : gmap string string) (cs : list node)
    (rd : gmap string ref_data) (k : string) :
  rd <> ∅ ->
  attrs !! "refid" = Some k ->
  rd !! k = None ->
  parse_para fuel (Some (Tag "ref" attrs cs)) rd = Raise KeyError.
Proof.
  intros Hne Ha Hk. rewrite parse_para_ref. unfold ref_to_format.
  apply map_size_non_empty_iff in Hne.
  destruct (Nat.ltb_spec 0 (size rd)) as [_|Hz]; [|lia].
  cbn [bs4.getitem]. rewrite Ha. cbn [bind]. unfold ref_format. rewrite Hk.
  reflexivity.
Qed.

(** C10. In the table built from a document, every entry is the descriptor
    of a member, filed under that member's id or under its raw display name,
    and the descriptor's name field is the escaped display name. So for a
    member whose display name is not also an id, the raw name is a key, a
    reference by that name renders "\apifunc" with the name escaped once,
    and a reference by the escaped name fails with [KeyError] unless the
    escaped name happens to be a key as well. For a name with a reserved
    character, escaping once differs from the raw name and from escaping
    twice. *)
Theorem name_key_raw_descriptor_escaped (soup : node)
    (fs : list (string * string * string)) (rd : gmap string ref_data) :
  map_result member_fields (bs4.find_all "memberdef" soup) = Ok fs ->
  build_ref_dict soup = Ok rd ->
  (forall k d, rd !! k = Some d ->
     exists f, f ∈ fs /\ (k = field_id f \/ k = field_name f)
               /\ d = member_data f
               /\ rd_name d = text_escape (field_name f))
  /\ (forall f, f ∈ fs -> field_name f ∉ field_id <$> fs ->
       exists d,
         rd !! field_name f = Some d
         /\ rd_name d = text_escape (field_name f)
         /\ forall fuel attrs cs,
              attrs !! "name" = Some (field_name f) ->
              parse_para fuel (Some (Tag "nameref" attrs cs)) rd
              = Ok ("\apifunc{" +:+ text_escape (field_name f) +:+ "}{"
                    +:+ rd_label d +:+ "}"))
  /\ (forall f fuel attrs cs,
       f ∈ fs ->
       text_escape (field_name f) ∉ field_id <$> fs ->
       text_escape (field_name f) ∉ field_name <$> fs ->
       attrs !! "name" = Some (text_escape (field_name f)) ->
       parse_para fuel (Some (Tag "nameref" attrs cs)) rd = Raise KeyError)
  /\ (forall f, has_reserved (field_name f) = true ->
       text_escape (field_name f) <> field_name f
       /\ text_escape (text_escape (field_name f)) <> text_escape (field_name f)).
Proof.
  intros Hfs Hrd. rewrite (build_ref_dict_fields _ _ Hfs) in Hrd.
  inversion Hrd; subst rd; clear Hrd.
  split; [|split; [|split]].
  - intros k d Hk. destruct (table_entry _ _ _ Hk) as (f & Hf & -> & Hkey).
    exists f. auto.
  - intros f Hf Hni.
    destruct (last_occurrence field_name fs (field_name f)) as (pre & g & post & -> & Hg & Hpost).
    { apply list_elem_of_fmap_2. exact Hf. }
    assert (Hl : foldl add_member ∅ (pre ++ g :: post) !! field_name f
                 = Some (member_data g)).
    { rewrite <- Hg. apply table_lookup_name; rewrite Hg; [exact Hpost|].
      intros Hin. apply Hni. rewrite fmap_app, elem_of_app. right. right. exact Hin. }
    exists (member_data g). split; [exact Hl|].
    split; [cbn; rewrite Hg; reflexivity|].
    intros fuel attrs cs Ha. rewrite (nameref_found _ _ _ _ _ _ Ha Hl).
    cbn [rd_name member_data]. rewrite Hg. reflexivity.
  - intros f fuel attrs cs Hf Hni Hnn Ha.
    apply nameref_missing with (k := text_escape (field_name f)); [|exact Ha|].
    + intros Hempty.
      assert (Hin : field_id f ∈ dom (foldl add_member ∅ fs)).
      { rewrite table_dom, elem_of_union, !elem_of_list_to_set. left.
        apply list_elem_of_fmap_2. exact Hf. }
      rewrite Hempty, dom_empty_L in Hin. apply not_elem_of_empty in Hin. exact Hin.
    + apply not_elem_of_dom.
      rewrite table_dom, elem_of_union, !elem_of_list_to_set. tauto.
  - intros f. apply escape_twice_differs.
Qed.

Lemma name_key_raw_descriptor_escaped_witness :
  exists rd,
    build_ref_dict two_member_doc = Ok rd
    /\ parse_para 0 (Some (Tag "nameref" {[ "name" := "seL4_Send" ]} [])) rd
       = Ok "\apifunc{seL4\_Send}{sel4_send}"
    /\ parse_para 0 (Some (Tag "nameref" {[ "name" := "seL4\_Send" ]} [])) rd
       = Raise KeyError.
Proof.
  exists (foldl add_member ∅
            [ ("seL4_Yield", "sel4_yield", "group_1a");
              ("seL4_Send", "sel4_send", "group_2b") ]).
  assert (Hb : build_ref_dict two_member_doc
               = Ok (foldl add_member ∅
                       [ ("seL4_Yield", "sel4_yield", "group_1a");
                         ("seL4_Send", "sel4_send", "group_2b") ]))
    by reflexivity.
  destruct (name_key_raw_descriptor_escaped two_member_doc
              [ ("seL4_Yield", "sel4_yield", "group_1a");
                ("seL4_Send", "sel4_send", "group_2b") ] _ eq_refl Hb)
    as (_ & Hname & Hesc & _).
  split; [exact Hb|]. split.
  - destruct (Hname ("seL4_Send", "sel4_send", "group_2b")) as (d & Hd & _ & Hr).
    + right. left.
    + refine (bool_decide_unpack _ _). vm_compute. exact I.
    + assert (Ha : ({[ "name" := "seL4_Send" ]} : gmap string string) !! "name"
                     = Some "seL4_Send") by reflexivity.
      rewrite (Hr 0 _ [] Ha).
      vm_compute in Hd. inversion Hd. reflexivity.
  - apply (Hesc ("seL4_Send", "sel4_send", "group_2b")).
    + right. left.
    + refine (bool_decide_unpack _ _). vm_compute. exact I.
    + refine (bool_decide_unpack _ _). vm_compute. exact I.
    + reflexivity.
Defined.

(** ** Failures reach the caller *)

Lemma parse_items_raise
    (self : option node -> gmap string ref_data -> result string)
    (pre post : list node) (item : node) (rd : gmap string ref_data)
    (acc : string) (e : exn) :
  Forall (fun x => is_ok (self (Some x) rd) = true) pre ->
  self (Some item) rd = Raise e ->
  parse_items self acc (pre ++ item :: post) rd = Raise e.
Proof.
  intros Hpre Hitem. revert acc.
  induction Hpre as [|x pre Hx _ IH]; intros acc.
  - cbn [app parse_items]. rewrite Hitem. reflexivity.
  - cbn [app parse_items]. apply is_ok_true in Hx as [sx ->]. cbn [bind]. apply IH.
Qed.

Lemma pair_params_dom (names types_iter : list node)
    (params params' : gmap string param_info) (order order' : list string) :
  pair_params names types_iter params order = Ok (params', order') ->
  dom params = list_to_set order ->
  dom params' = list_to_set order'.
Proof.
  revert types_iter params order.
  induction names as [|n names IH]; intros types_iter params order H Hdom.
  - inversion H; subst. exact Hdom.
  - destruct types_iter as [|t types_iter]; [discriminate|].
    cbn [pair_params] in H.
    destruct (String.eqb (bs4.get_text t) "void").
    + eapply IH; eassumption.
    + eapply IH; [exact H|].
      rewrite dom_insert_L, list_to_set_app_L, list_to_set_singleton_L, Hdom.
      apply union_comm_L.
Qed.

Lemma declared_params_dom (parent ret_type : node)
    (params : gmap string param_info) (order : list string) :
  declared_params parent = Ok (ret_type, params, order) ->
  dom params = list_to_set order.
Proof.
  unfold declared_params.
  destruct (bs4.find_all "type" parent) as [|r types_iter]; [discriminate|].
  intros H. apply bind_Ok in H as ([p o] & Hpair & H). inversion H; subst.
  eapply pair_params_dom; [exact Hpair|].
  rewrite dom_empty_L, list_to_set_nil. reflexivity.
Qed.

Lemma attach_descs_app (fuel : nat) (l1 l2 : list node)
    (rd : gmap string ref_data) (params : gmap string param_info) :
  attach_descs fuel (l1 ++ l2) rd params
  = (let! params' := attach_descs fuel l1 rd params in
     attach_descs fuel l2 rd params').
Proof.
  revert params. induction l1 as [|item l1 IH]; intros params; [reflexivity|].
  cbn [app attach_descs].
  destruct (get_text (bs4.find "parametername" item) false) as [nm|]; [|reflexivity].
  cbn [bind].
  destruct (deref (bs4.find "parameterdescription" item) AttributeError) as [desc|];
    [|reflexivity].
  cbn [bind].
  destruct (parse_para fuel (bs4.find "para" desc) rd); [|reflexivity].
  cbn [bind]. destruct (params !! nm); [apply IH | reflexivity].
Qed.

Lemma attach_descs_undeclared (fuel : nat) (item : node) (post : list node)
    (rd : gmap string ref_data) (params : gmap string param_info) (nm : string) :
  get_text (bs4.find "parametername" item) false = Ok nm ->
  params !! nm = None ->
  is_ok (attach_descs fuel (item :: post) rd params) = false
  /\ (forall desc r,
        bs4.find "parameterdescription" item = Some desc ->
        parse_para fuel (bs4.find "para" desc) rd = Ok r ->
        attach_descs fuel (item :: post) rd params = Raise KeyError).
Proof.
  intros Hnm Hl. cbn [attach_descs]. rewrite Hnm. cbn [bind]. split.
  - destruct (deref (bs4.find "parameterdescription" item) AttributeError) as [desc|];
      [|reflexivity].
    cbn [bind]. destruct (parse_para fuel (bs4.find "para" desc) rd); [|reflexivity].
    cbn [bind]. rewrite Hl. reflexivity.
  - intros desc r Hdesc Hr. rewrite Hdesc. cbn [deref bind]. rewrite Hr. cbn [bind].
    rewrite Hl. reflexivity.
Qed.

Lemma desc_params_raise (fuel : nat) (parent : node)
    (rd : gmap string ref_data) :
  is_ok (desc_params fuel parent rd) = false ->
  is_ok (parse_detailed_desc fuel parent rd) = false.
Proof. intros H. unfold parse_detailed_desc. apply bind_not_ok. exact H. Qed.

Lemma members_loop_app (fuel : nat) (level : string)
    (rd : gmap string ref_data) (l1 l2 : list node) (out : string) :
  members_loop fuel level rd (l1 ++ l2) out
  = (let! out' := members_loop fuel level rd l1 out in
     members_loop fuel level rd l2 out').
Proof.
  revert out. induction l1 as [|m l1 IH]; intros out; [reflexivity|].
  cbn [app members_loop].
  destruct (parse_detailed_desc fuel m rd) as [[[d ps] r]|]; [|reflexivity].
  cbn [bind]. destruct (generate_api_doc fuel level m ps r d); [|reflexivity].
  cbn [bind]. apply IH.
Qed.

Lemma members_loop_not_ok (fuel : nat) (level : string)
    (rd : gmap string ref_data) (members : list node) (member : node)
    (out : string) :
  member ∈ members ->
  is_ok (parse_detailed_desc fuel member rd) = false ->
  is_ok (members_loop fuel level rd members out) = false.
Proof.
  intros Hin Hm. apply list_elem_of_split in Hin as (pre & post & ->).
  rewrite members_loop_app.
  destruct (members_loop fuel level rd pre out); [|reflexivity].
  cbn [bind members_loop]. apply bind_not_ok. exact Hm.
Qed.

(** Where a lookup fails first, and how the failure leaves
    [parse_detailed_desc] and [generate_general_syscall_doc]. *)
Lemma lookup_failures_first :
  (forall refid rd, rd !! refid = None -> ref_format refid rd = Raise KeyError)
  /\ (forall fuel attrs cs (rd : gmap string ref_data) key,
        rd <> ∅ -> rd !! key = None ->
        (attrs !! "refid" = Some key ->
         parse_para fuel (Some (Tag "ref" attrs cs)) rd = Raise KeyError)
        /\ (attrs !! "name" = Some key ->
            parse_para fuel (Some (Tag "nameref" attrs cs)) rd = Raise KeyError))
  /\ (forall fuel attrs pre item post rd e,
        Forall (fun x => is_ok (parse_para fuel (Some x) rd) = true) pre ->
        parse_para fuel (Some item) rd = Raise e ->
        parse_para (S fuel) (Some (Tag "para" attrs (pre ++ item :: post))) rd
        = Raise e)
  /\ (forall fuel parent rd ret_type params order pre item post params' nm desc r,
        declared_params parent = Ok (ret_type, params, order) ->
        bs4.find_all "parameteritem" parent = pre ++ item :: post ->
        attach_descs fuel pre rd params = Ok params' ->
        get_text (bs4.find "parametername" item) false = Ok nm ->
        nm ∉ order ->
        bs4.find "parameterdescription" item = Some desc ->
        parse_para fuel (bs4.find "para" desc) rd = Ok r ->
        parse_detailed_desc fuel parent rd = Raise KeyError)
  /\ (forall fuel parent rd ret_type params order item nm,
        declared_params parent = Ok (ret_type, params, order) ->
        item ∈ bs4.find_all "parameteritem" parent ->
        get_text (bs4.find "parametername" item) false = Ok nm ->
        nm ∉ order ->
        is_ok (parse_detailed_desc fuel parent rd) = false)
  /\ (forall fuel parent rd ret_type ps e,
        desc_params fuel parent rd = Ok (ret_type, ps) ->
        desc_details fuel parent rd = Raise e ->
        parse_detailed_desc fuel parent rd = Raise e)
  /\ (forall fuel soup level rd summary out pre member post out' e,
        build_ref_dict soup = Ok rd ->
        bs4.find "compounddef" soup = Some summary ->
        top_descriptions fuel
          (bs4.find_all_children "detaileddescription" summary) "" = Ok out ->
        bs4.find_all "memberdef" soup = pre ++ member :: post ->
        members_loop fuel level rd pre out = Ok out' ->
        parse_detailed_desc fuel member rd = Raise e ->
        generate_general_syscall_doc fuel soup level = Raise e)
  /\ (forall fuel soup level rd member,
        build_ref_dict soup = Ok rd ->
        member ∈ bs4.find_all "memberdef" soup ->
        is_ok (parse_detailed_desc fuel member rd) = false ->
        is_ok (generate_general_syscall_doc fuel soup level) = false).
Proof.
  split; [|split; [|split; [|split; [|split; [|split; [|split]]]]]].
  - intros refid rd H. unfold ref_format. rewrite H. reflexivity.
  - intros fuel attrs cs rd key Hne Hk. split; intros Ha.
    + eapply ref_missing; eassumption.
    + eapply nameref_missing; eassumption.
  - intros fuel attrs pre item post rd e Hpre Hitem.
    rewrite parse_para_para. apply parse_items_raise; assumption.
  - intros fuel parent rd ret_type params order pre item post params' nm desc r
      Hd Hitems Hpre Hnm Hni Hdesc Hr.
    assert (Hl : params' !! nm = None).
    { apply not_elem_of_dom. rewrite (attach_descs_dom _ _ _ _ _ Hpre).
      rewrite (declared_params_dom _ _ _ _ Hd), elem_of_list_to_set. exact Hni. }
    unfold parse_detailed_desc, desc_params. rewrite Hd. cbn [bind].
    rewrite Hitems, attach_descs_app, Hpre. cbn [bind].
    rewrite (proj2 (attach_descs_undeclared fuel item post rd params' nm Hnm Hl)
               desc r Hdesc Hr).
    reflexivity.
  - intros fuel parent rd ret_type params order item nm Hd Hin Hnm Hni.
    apply desc_params_raise. unfold desc_params. rewrite Hd. cbn [bind].
    apply bind_not_ok.
    apply list_elem_of_split in Hin as (pre & post & ->).
    rewrite attach_descs_app.
    destruct (attach_descs fuel pre rd params) as [params'|] eqn:Hpre; [|reflexivity].
    cbn [bind]. apply attach_descs_undeclared with (nm := nm); [exact Hnm|].
    apply not_elem_of_dom. rewrite (attach_descs_dom _ _ _ _ _ Hpre).
    rewrite (declared_params_dom _ _ _ _ Hd), elem_of_list_to_set. exact Hni.
  - intros fuel parent rd ret_type ps e Hp Hd.
    unfold parse_detailed_desc. rewrite Hp. cbn [bind]. rewrite Hd. reflexivity.
  - intros fuel soup level rd summary out pre member post out' e
      Hb Hs Htop Hm Hpre He.
    unfold generate_general_syscall_doc. rewrite Hb. cbn [bind].
    rewrite Hs. cbn [deref bind]. rewrite Htop. cbn [bind]. rewrite Hm.
    rewrite length_app. cbn [length].
    replace (length pre + S (length post)) with (S (length pre + length post)) by lia.
    cbn [Nat.eqb]. rewrite members_loop_app, Hpre. cbn [bind members_loop].
    rewrite He. reflexivity.
  - intros fuel soup level rd member Hb Hin Hm.
    unfold generate_general_syscall_doc. rewrite Hb. cbn [bind].
    apply bind_not_ok_cont. intros summary. apply bind_not_ok_cont. intros out.
    destruct (bs4.find_all "memberdef" soup) as [|m ms] eqn:Hms; [inversion Hin|].
    cbn [length Nat.eqb]. apply members_loop_not_ok with (member := member); assumption.
Qed.

(** ** A document without members *)

(** C8. For a document with no member, [generate_general_syscall_doc]
    returns nothing but "No methods.": whenever it returns, that is the
    whole output; and it does return it when the document has its compound
    and the top-level descriptions render, whatever they contain. The
    rendered descriptions are dropped and no template is applied. *)
Theorem no_members_sentinel (fuel : nat) (soup : node) (level : string) :
  bs4.find_all "memberdef" soup = [] ->
  (forall out, generate_general_syscall_doc fuel soup level = Ok out ->
     out = "No methods.")
  /\ (forall summary,
        bs4.find "compounddef" soup = Some summary ->
        is_ok (top_descriptions fuel
                 (bs4.find_all_children "detaileddescription" summary) "") = true ->
        generate_general_syscall_doc fuel soup level = Ok "No methods.").
Proof.
  intros Hm. unfold generate_general_syscall_doc, build_ref_dict. rewrite Hm.
  cbn [build_loop bind length Nat.eqb]. split.
  - intros out H. apply bind_Ok in H as (summary & _ & H).
    apply bind_Ok in H as (top & _ & H). inversion H. reflexivity.
  - intros summary Hs Htop. rewrite Hs. cbn [deref bind].
    apply is_ok_true in Htop as [top ->]. reflexivity.
Qed.

Lemma no_members_sentinel_witness :
  generate_general_syscall_doc 1 empty_doc "subsection" = Ok "No methods.".
Proof.
  refine (proj2 (no_members_sentinel 1 empty_doc "subsection" eq_refl) _ _ _);
    reflexivity.
Defined.

(** ** The recursion bound *)

Lemma node_induction (P : node -> Prop) :
  (forall s, P (NavigableString s)) ->
  (forall nm attrs cs, Forall P cs -> P (Tag nm attrs cs)) ->
  forall n, P n.
Proof.
  intros Hs Ht. fix IH 1. intros [s|nm attrs cs]; [apply Hs|].
  apply Ht. induction cs as [|c cs IHcs]; constructor; [apply IH | exact IHcs].
Qed.

Lemma height_child (nm : string) (attrs : gmap string string)
    (cs : list node) (c : node) :
  c ∈ cs -> bs4.height c < bs4.height (Tag nm attrs cs).
Proof.
  cbn [bs4.height]. induction cs as [|x cs IH]; intros Hc; [inversion Hc|].
  apply elem_of_cons in Hc as [->|Hc]; [lia|]. specialize (IH Hc). lia.
Qed.

Lemma height_descendant (n d : node) :
  d ∈ bs4.descendants n -> bs4.height d < bs4.height n.
Proof.
  revert d. induction n as [s|nm attrs cs IH] using node_induction; intros d Hd.
  - inversion Hd.
  - cbn [bs4.descendants] in Hd.
    assert (Hex : exists c, c ∈ cs /\ (d = c \/ d ∈ bs4.descendants c)).
    { clear IH. induction cs as [|x cs IHcs]; [inversion Hd|].
      apply elem_of_cons in Hd as [->|Hd]; [exists x; split; [left | auto]|].
      apply elem_of_app in Hd as [Hd|Hd].
      - exists x. split; [left | auto].
      - destruct (IHcs Hd) as (c & Hc & Hdc). exists c. split; [right; exact Hc | exact Hdc]. }
    destruct Hex as (c & Hc & Hdc).
    pose proof (height_child nm attrs cs c Hc) as Hlt.
    destruct Hdc as [->|Hdc]; [exact Hlt|].
    rewrite Forall_forall in IH. specialize (IH c Hc d Hdc). lia.
Qed.

Lemma height_find (nm : string) (n q : node) :
  bs4.find nm n = Some q -> bs4.height q < bs4.height n.
Proof.
  unfold bs4.find, bs4.find_all. intros H. apply height_descendant.
  apply head_Some in H as [l Hl].
  assert (Hq : In q (List.filter (bs4.named nm) (bs4.descendants n)))
    by (rewrite Hl; left; reflexivity).
  apply filter_In in Hq as [Hq _]. apply list_elem_of_In. exact Hq.
Qed.

Lemma parse_para_dispatch (fuel : nat) (nm : string)
    (attrs : gmap string string) (cs : list node) (rd : gmap string ref_data) :
  parse_para fuel (Some (Tag nm attrs cs)) rd
  = dispatch (self_call fuel) nm (Tag nm attrs cs) rd.
Proof. apply parse_para_tag. Qed.

Lemma parse_items_stable
    (self1 self2 : option node -> gmap string ref_data -> result string)
    (items : list node) (acc : string) (rd : gmap string ref_data) :
  stable self1 self2 ->
  parse_items self1 acc items rd <> Raise RecursionError ->
  parse_items self2 acc items rd = parse_items self1 acc items rd.
Proof.
  intros Hst. revert acc. induction items as [|x items IH]; intros acc H; [reflexivity|].
  cbn [parse_items] in *.
  destruct (self1 (Some x) rd) as [sx|e] eqn:Hx.
  - rewrite (Hst (Some x) rd), Hx by (rewrite Hx; discriminate).
    cbn [bind] in *. apply IH. exact H.
  - rewrite (Hst (Some x) rd), Hx by (rewrite Hx; exact H). reflexivity.
Qed.

Lemma parse_list_stable
    (self1 self2 : option node -> gmap string ref_data -> result string)
    (n : node) (rd : gmap string ref_data) (tag : string) :
  stable self1 self2 ->
  parse_list self1 n rd tag <> Raise RecursionError ->
  parse_list self2 n rd tag = parse_list self1 n rd tag.
Proof.
  intros Hst H. unfold parse_list in *.
  rewrite (parse_items_stable self1 self2); [reflexivity | exact Hst |].
  intros Heq. rewrite Heq in H. apply H. reflexivity.
Qed.

Lemma dispatch_stable
    (self1 self2 : option node -> gmap string ref_data -> result string)
    (nm : string) (n : node) (rd : gmap string ref_data) :
  stable self1 self2 ->
  dispatch self1 nm n rd <> Raise RecursionError ->
  dispatch self2 nm n rd = dispatch self1 nm n rd.
Proof.
  intros Hst. unfold dispatch.
  destruct (decide (nm ∈ parse_table_keys)) as [Hin|Hnin].
  - unfold parse_table_keys in Hin.
    repeat (apply elem_of_cons in Hin as [->|Hin]); try (intros _; reflexivity).
    + change (parse_items self1 "" (bs4.contents n) rd <> Raise RecursionError ->
              parse_items self2 "" (bs4.contents n) rd
              = parse_items self1 "" (bs4.contents n) rd).
      apply parse_items_stable. exact Hst.
    + change (parse_list self1 n rd "enumerate" <> Raise RecursionError ->
              parse_list self2 n rd "enumerate" = parse_list self1 n rd "enumerate").
      apply parse_list_stable. exact Hst.
    + change ((let! s := self1 (bs4.find "para" n) rd in Ok ("\item " +:+ s +:+ LF))
              <> Raise RecursionError ->
              (let! s := self2 (bs4.find "para" n) rd in Ok ("\item " +:+ s +:+ LF))
              = (let! s := self1 (bs4.find "para" n) rd in Ok ("\item " +:+ s +:+ LF))).
      intros H. rewrite (Hst (bs4.find "para" n) rd); [reflexivity|].
      intros Heq. rewrite Heq in H. apply H. reflexivity.
    + change (parse_list self1 n rd "itemize" <> Raise RecursionError ->
              parse_list self2 n rd "itemize" = parse_list self1 n rd "itemize").
      apply parse_list_stable. exact Hst.
    + inversion Hin.
  - rewrite !get_parse_table_unknown by exact Hnin. reflexivity.
Qed.

Lemma parse_para_stable (fuel : nat) :
  stable (parse_para fuel) (parse_para (S fuel)).
Proof.
  induction fuel as [|fuel IH]; intros [[s|nm attrs cs]|] rd H.
  - rewrite !parse_para_text. reflexivity.
  - rewrite !parse_para_dispatch in *. apply dispatch_stable; [|exact H].
    intros pn rd' Hne. contradiction Hne. reflexivity.
  - rewrite !parse_para_None. reflexivity.
  - rewrite !parse_para_text. reflexivity.
  - rewrite !parse_para_dispatch in *. apply dispatch_stable; [exact IH | exact H].
  - rewrite !parse_para_None. reflexivity.
Qed.

Lemma parse_para_more_fuel (fuel extra : nat) (pn : option node)
    (rd : gmap string ref_data) :
  parse_para fuel pn rd <> Raise RecursionError ->
  parse_para (extra + fuel) pn rd = parse_para fuel pn rd.
Proof.
  intros H. induction extra as [|extra IH]; [reflexivity|].
  cbn [Nat.add]. rewrite parse_para_stable; [exact IH|]. rewrite IH. exact H.
Qed.

Lemma parse_items_within_bound
    (self : option node -> gmap string ref_data -> result string)
    (items : list node) (acc : string) (rd : gmap string ref_data) :
  (forall x, x ∈ items -> self (Some x) rd <> Raise RecursionError) ->
  parse_items self acc items rd <> Raise RecursionError.
Proof.
  revert acc. induction items as [|x items IH]; intros acc H; [discriminate|].
  cbn [parse_items]. destruct (self (Some x) rd) as [sx|e] eqn:Hx.
  - cbn [bind]. apply IH. intros y Hy. apply H. right. exact Hy.
  - cbn [bind]. rewrite <- Hx. apply H. left.
Qed.

Lemma parse_list_within_bound
    (self : option node -> gmap string ref_data -> result string)
    (n : node) (rd : gmap string ref_data) (tag : string) :
  (forall x, x ∈ bs4.contents n -> self (Some x) rd <> Raise RecursionError) ->
  parse_list self n rd tag <> Raise RecursionError.
Proof.
  intros H. unfold parse_list.
  pose proof (parse_items_within_bound self (bs4.contents n)
                ("\begin{" +:+ tag +:+ "}" +:+ LF) rd H) as Hi.
  destruct (parse_items self ("\begin{" +:+ tag +:+ "}" +:+ LF) (bs4.contents n) rd);
    [discriminate | exact Hi].
Qed.

Lemma getitem_within_bound (n : node) (key : string)
    (k : string -> result string) :
  (forall v, k v <> Raise RecursionError) ->
  (let! v := bs4.getitem n key in k v) <> Raise RecursionError.
Proof.
  intros Hk. destruct n as [s|nm attrs cs]; cbn [bs4.getitem bind]; [discriminate|].
  destruct (attrs !! key); cbn [bind]; [apply Hk | discriminate].
Qed.

Lemma ref_format_within_bound (key : string) (rd : gmap string ref_data) :
  ref_format key rd <> Raise RecursionError.
Proof. unfold ref_format. destruct (rd !! key); discriminate. Qed.

Lemma parse_para_within_bound (fuel : nat) (n : node)
    (rd : gmap string ref_data) :
  bs4.height n <= fuel ->
  parse_para fuel (Some n) rd <> Raise RecursionError.
Proof.
  revert n rd. induction fuel as [|fuel IH]; intros [s|nm attrs cs] rd Hh;
    try (rewrite parse_para_text; discriminate).
  { cbn [bs4.height] in Hh. lia. }
  assert (Hchild : forall x, x ∈ cs -> parse_para fuel (Some x) rd <> Raise RecursionError).
  { intros x Hx. apply IH. pose proof (height_child nm attrs cs x Hx). lia. }
  rewrite parse_para_dispatch. unfold dispatch. cbn [self_call].
  destruct (decide (nm ∈ parse_table_keys)) as [Hin|Hnin].
  2:{ rewrite get_parse_table_unknown by exact Hnin. discriminate. }
  unfold parse_table_keys in Hin.
  repeat (apply elem_of_cons in Hin as [->|Hin]); try (inversion Hin; fail).
  - change (parse_items (parse_para fuel) "" cs rd <> Raise RecursionError).
    apply parse_items_within_bound. exact Hchild.
  - discriminate.
  - change ((let! t := bs4.getitem (Tag "texttt" attrs cs) "text" in
             Ok ("\texttt{" +:+ text_escape t +:+ "}")) <> Raise RecursionError).
    apply getitem_within_bound. discriminate.
  - change (ref_to_format (Tag "ref" attrs cs) rd <> Raise RecursionError).
    unfold ref_to_format. destruct (Nat.ltb 0 (size rd)); [|discriminate].
    apply getitem_within_bound. intros v. apply ref_format_within_bound.
  - change (nref_to_format (Tag "nameref" attrs cs) rd <> Raise RecursionError).
    unfold nref_to_format. destruct (Nat.ltb 0 (size rd)); [|discriminate].
    apply getitem_within_bound. intros v. apply ref_format_within_bound.
  - change ((let! v := bs4.getitem (Tag "shortref" attrs cs) "sec" in
             Ok ("\ref{sec:" +:+ v +:+ "}")) <> Raise RecursionError).
    apply getitem_within_bound. discriminate.
  - change ((let! v := bs4.getitem (Tag "obj" attrs cs) "name" in
             Ok ("\obj{" +:+ v +:+ "}")) <> Raise RecursionError).
    apply getitem_within_bound. discriminate.
  - discriminate.
  - change (parse_list (parse_para fuel) (Tag "orderedlist" attrs cs) rd "enumerate"
            <> Raise RecursionError).
    apply parse_list_within_bound. exact Hchild.
  - change ((let! s := parse_para fuel (bs4.find "para" (Tag "listitem" attrs cs)) rd in
             Ok ("\item " +:+ s +:+ LF)) <> Raise RecursionError).
    destruct (bs4.find "para" (Tag "listitem" attrs cs)) as [q|] eqn:Hq.
    + apply height_find in Hq.
      assert (Hne : parse_para fuel (Some q) rd <> Raise RecursionError)
        by (apply IH; lia).
      destruct (parse_para fuel (Some q) rd); [discriminate | exact Hne].
    + rewrite parse_para_None. discriminate.
  - change (parse_list (parse_para fuel) (Tag "itemizedlist" attrs cs) rd "itemize"
            <> Raise RecursionError).
    apply parse_list_within_bound. exact Hchild.
  - change ((let! v := bs4.getitem (Tag "autoref" attrs cs) "label" in
             Ok ("\autoref{" +:+ v +:+ "}")) <> Raise RecursionError).
    apply getitem_within_bound. discriminate.
Qed.

(** Enough fuel gives the result: from the nesting depth of the node on,
    [parse_para] does not hit the bound and its result no longer changes. *)
Lemma parse_para_enough_fuel (n : node) (rd : gmap string ref_data)
    (fuel : nat) :
  bs4.height n <= fuel ->
  parse_para fuel (Some n) rd <> Raise RecursionError
  /\ parse_para fuel (Some n) rd = parse_para (bs4.height n) (Some n) rd.
Proof.
  intros Hh. split; [apply parse_para_within_bound; exact Hh|].
  replace fuel with ((fuel - bs4.height n) + bs4.height n) by lia.
  apply parse_para_more_fuel. apply parse_para_within_bound. lia.
Qed.

(** * Further properties *)

(** ** get_text *)

Lemma dot_string_get_text (n : node) (s : string) :
  bs4.dot_string n = Some s -> bs4.get_text n = s.
Proof.
  revert s. induction n as [t|nm attrs cs IH] using node_induction; intros s H.
  - inversion H. reflexivity.
  - destruct cs as [|c [|c' cs]]; try discriminate.
    cbn [bs4.dot_string] in H. cbn [bs4.get_text].
    apply Forall_cons in IH as [IHc _]. rewrite append_nil_r. apply IHc. exact H.
Qed.

Lemma node_text_get_text (n : node) : node_text n = bs4.get_text n.
Proof.
  destruct n as [t|nm attrs cs]; [reflexivity|]. unfold node_text.
  destruct (bs4.dot_string (Tag nm attrs cs)) as [s|] eqn:Hs; [|reflexivity].
  destruct (is_empty s); [reflexivity|]. symmetry. apply dot_string_get_text. exact Hs.
Qed.

(** X1. On a tree of tags and plain strings (the trees of this model: a
    comment or another special string of bs4 is not a node here) the shortcut
    through [.string] never changes what [get_text] returns: the result is
    the concatenation of all the text of the node, escaped when asked; only
    [None] raises ([AttributeError]). *)
Theorem get_text_all_text :
  (forall n escape,
     get_text (Some n) escape
     = Ok (if escape then text_escape (bs4.get_text n) else bs4.get_text n))
  /\ (forall escape, get_text None escape = Raise AttributeError).
Proof.
  split; [|reflexivity]. intros n escape. unfold get_text.
  rewrite node_text_get_text. reflexivity.
Qed.

(** ** text_escape, further *)

Lemma text_escape_head (s t : string) : text_escape s <> String "_" t.
Proof.
  destruct s as [|c s]; [discriminate|]. rewrite text_escape_cons.
  destruct (reserved c) eqn:Hc.
  - rewrite (text_escape_reserved c Hc). discriminate.
  - rewrite append_cons. intros H. inversion H; subst c. discriminate.
Qed.

Lemma text_escape_nil (s : string) : text_escape s = "" -> s = "".
Proof.
  intros H. destruct s as [|c s]; [reflexivity|].
  pose proof (proj1 (text_escape_length (String c s))) as Hlen.
  rewrite H in Hlen. cbn in Hlen. lia.
Qed.

(** X2. [text_escape] is injective: two strings with the same escaped form
    are equal, so escaping loses nothing. *)
Theorem text_escape_injective (s1 s2 : string) :
  text_escape s1 = text_escape s2 -> s1 = s2.
Proof.
  revert s2. induction s1 as [|c1 r1 IH]; intros s2 H.
  - symmetry. apply text_escape_nil. symmetry. exact H.
  - destruct s2 as [|c2 r2]; [apply text_escape_nil; exact H|].
    rewrite (text_escape_cons c1), (text_escape_cons c2) in H.
    destruct (reserved c1) eqn:H1, (reserved c2) eqn:H2.
    + rewrite (text_escape_reserved c1 H1), (text_escape_reserved c2 H2) in H.
      apply reserved_underscore in H1, H2. subst c1 c2.
      rewrite !append_cons, !append_nil_l in H. inversion H as [Hr].
      f_equal. apply IH. exact Hr.
    + rewrite (text_escape_reserved c1 H1) in H.
      rewrite !append_cons, !append_nil_l in H. inversion H as [[Hc Hr]].
      symmetry in Hr. apply text_escape_head in Hr. contradiction.
    + rewrite (text_escape_reserved c2 H2) in H.
      rewrite !append_cons, !append_nil_l in H. inversion H as [[Hc Hr]].
      apply text_escape_head in Hr. contradiction.
    + rewrite !append_cons, !append_nil_l in H. inversion H as [[Hc Hr]].
      f_equal. apply IH. exact Hr.
Qed.

Lemma text_escape_injective_witness :
  text_escape "seL4_Send" = text_escape "seL4_Send" /\ "seL4_Send" = "seL4_Send".
Proof.
  split; [reflexivity|]. apply (text_escape_injective "seL4_Send" "seL4_Send").
  reflexivity.
Defined.

Lemma underscores_escaped_escape (b : bool) (s : string) :
  underscores_escaped b (text_escape s) = true.
Proof.
  revert b. induction s as [|c s IH]; intros b; [reflexivity|].
  rewrite text_escape_cons. destruct (reserved c) eqn:Hc.
  - rewrite (text_escape_reserved c Hc), !append_cons, append_nil_l.
    cbn [underscores_escaped]. change (Ascii.eqb "\" "_") with false.
    change (Ascii.eqb "\" "\") with true. change (Ascii.eqb "_" "_") with true.
    cbn [andb]. apply IH.
  - rewrite append_cons, append_nil_l. cbn [underscores_escaped].
    destruct (Ascii.eqb_spec c "_") as [->|Hne]; [discriminate|]. apply IH.
Qed.

Lemma text_escape_count (s : string) :
  String.length (text_escape s) = String.length s + count_reserved s.
Proof.
  induction s as [|c s IH]; [reflexivity|].
  rewrite text_escape_cons, length_append. cbn [count_reserved String.length].
  destruct (reserved c) eqn:Hc.
  - rewrite (text_escape_reserved c Hc). cbn [String.length]. lia.
  - cbn [String.length]. lia.
Qed.

(** X3. In the output of [text_escape] every underscore comes right after a
    backslash, whatever the input; and the output is longer than the input
    by exactly the number of reserved characters of the input. *)
Theorem text_escape_output_shape (s : string) :
  underscores_escaped false (text_escape s) = true
  /\ String.length (text_escape s) = String.length s + count_reserved s.
Proof. split; [apply underscores_escaped_escape | apply text_escape_count]. Qed.

(** ** The rendering rules *)

Lemma map_result_app {A B : Type} (f : A -> result B) (l1 l2 : list A) :
  map_result f (l1 ++ l2)
  = (let! k1 := map_result f l1 in
     let! k2 := map_result f l2 in
     Ok (k1 ++ k2)).
Proof.
  induction l1 as [|x l1 IH].
  - cbn [app map_result bind]. destruct (map_result f l2); reflexivity.
  - cbn [app map_result]. destruct (f x) as [y|e]; [|reflexivity]. cbn [bind].
    rewrite IH. destruct (map_result f l1) as [k1|e]; [|reflexivity]. cbn [bind].
    destruct (map_result f l2); reflexivity.
Qed.

Lemma join_empty_app (l1 l2 : list string) :
  join "" (l1 ++ l2) = join "" l1 +:+ join "" l2.
Proof.
  induction l1 as [|x l1 IH]; [reflexivity|].
  cbn [app]. rewrite !join_empty_cons, IH, append_assoc. reflexivity.
Qed.

Lemma parse_items_map
    (self : option node -> gmap string ref_data -> result string)
    (items : list node) (acc : string) (rd : gmap string ref_data) :
  parse_items self acc items rd
  = (let! rendered := map_result (fun c => self (Some c) rd) items in
     Ok (acc +:+ join "" rendered)).
Proof.
  revert acc. induction items as [|x items IH]; intros acc.
  - cbn. rewrite append_nil_r. reflexivity.
  - cbn [parse_items map_result]. destruct (self (Some x) rd) as [sx|e]; [|reflexivity].
    cbn [bind]. rewrite IH.
    destruct (map_result (fun c => self (Some c) rd) items) as [l|e]; [|reflexivity].
    cbn [bind]. rewrite join_empty_cons, append_assoc. reflexivity.
Qed.

(** X4. A paragraph renders as the concatenation, in order, of the
    renderings of its children, and raises when a child raises; so the
    rendering of a paragraph with contents [cs1 ++ cs2] is the rendering of
    [cs1] followed by that of [cs2]. The attributes play no part. *)
Theorem para_concatenates (fuel : nat) (rd : gmap string ref_data) :
  (forall attrs cs,
     parse_para (S fuel) (Some (Tag "para" attrs cs)) rd
     = (let! rendered := map_result (fun c => parse_para fuel (Some c) rd) cs in
        Ok (join "" rendered)))
  /\ (forall attrs attrs1 attrs2 cs1 cs2,
        parse_para (S fuel) (Some (Tag "para" attrs (cs1 ++ cs2))) rd
        = (let! s1 := parse_para (S fuel) (Some (Tag "para" attrs1 cs1)) rd in
           let! s2 := parse_para (S fuel) (Some (Tag "para" attrs2 cs2)) rd in
           Ok (s1 +:+ s2))).
Proof.
  assert (H : forall attrs cs,
     parse_para (S fuel) (Some (Tag "para" attrs cs)) rd
     = (let! rendered := map_result (fun c => parse_para fuel (Some c) rd) cs in
        Ok (join "" rendered))).
  { intros attrs cs. rewrite parse_para_para, parse_items_map.
    destruct (map_result _ cs); reflexivity. }
  split; [exact H|]. intros attrs attrs1 attrs2 cs1 cs2.
  rewrite !H, map_result_app.
  destruct (map_result _ cs1) as [k1|e]; [|reflexivity]. cbn [bind].
  destruct (map_result _ cs2) as [k2|e]; [|reflexivity]. cbn [bind].
  rewrite join_empty_app. reflexivity.
Qed.

Lemma parse_para_list (fuel : nat) (kind tag : string)
    (attrs : gmap string string) (cs : list node) (rd : gmap string ref_data) :
  (kind = "orderedlist" /\ tag = "enumerate")
  \/ (kind = "itemizedlist" /\ tag = "itemize") ->
  parse_para (S fuel) (Some (Tag kind attrs cs)) rd
  = parse_list (parse_para fuel) (Tag kind attrs cs) rd tag.
Proof. intros [[-> ->]|[-> ->]]; rewrite parse_para_tag; reflexivity. Qed.

Lemma parse_para_listitem (fuel : nat) (attrs : gmap string string)
    (cs : list node) (rd : gmap string ref_data) :
  parse_para (S fuel) (Some (Tag "listitem" attrs cs)) rd
  = (let! s := parse_para fuel (bs4.find "para" (Tag "listitem" attrs cs)) rd in
     Ok ("\item " +:+ s +:+ LF)).
Proof. rewrite parse_para_tag. reflexivity. Qed.

(** X5. An ordered list renders as its children between "\begin{enumerate}"
    and "\end{enumerate}" lines, an itemized list likewise with "itemize";
    what stands between is what a paragraph with the same children renders.
    A list item renders as "\item ", its first paragraph descendant and a
    line break, and raises [AttributeError] when it has no paragraph. *)
Theorem list_environments (fuel : nat) (attrs attrs' : gmap string string)
    (cs : list node) (rd : gmap string ref_data) :
  parse_para (S fuel) (Some (Tag "orderedlist" attrs cs)) rd
  = (let! body := parse_para (S fuel) (Some (Tag "para" attrs' cs)) rd in
     Ok ("\begin{enumerate}" +:+ LF +:+ body +:+ "\end{enumerate}" +:+ LF))
  /\ parse_para (S fuel) (Some (Tag "itemizedlist" attrs cs)) rd
     = (let! body := parse_para (S fuel) (Some (Tag "para" attrs' cs)) rd in
        Ok ("\begin{itemize}" +:+ LF +:+ body +:+ "\end{itemize}" +:+ LF))
  /\ (bs4.find "para" (Tag "listitem" attrs cs) = None ->
      parse_para (S fuel) (Some (Tag "listitem" attrs cs)) rd = Raise AttributeError)
  /\ (forall q s,
        bs4.find "para" (Tag "listitem" attrs cs) = Some q ->
        parse_para fuel (Some q) rd = Ok s ->
        parse_para (S fuel) (Some (Tag "listitem" attrs cs)) rd
        = Ok ("\item " +:+ s +:+ LF)).
Proof.
  assert (Hlist : forall kind tag,
     (kind = "orderedlist" /\ tag = "enumerate")
     \/ (kind = "itemizedlist" /\ tag = "itemize") ->
     parse_para (S fuel) (Some (Tag kind attrs cs)) rd
     = (let! body := parse_para (S fuel) (Some (Tag "para" attrs' cs)) rd in
        Ok (("\begin{" +:+ tag +:+ "}" +:+ LF) +:+ body
            +:+ "\end{" +:+ tag +:+ "}" +:+ LF))).
  { intros kind tag Hk. rewrite (parse_para_list fuel kind tag) by exact Hk.
    unfold parse_list. cbn [bs4.contents].
    rewrite parse_para_para, !parse_items_map.
    destruct (map_result _ cs) as [l|e]; [|reflexivity]. cbn [bind].
    rewrite append_nil_l, append_assoc. reflexivity. }
  split; [|split; [|split]].
  - rewrite (Hlist "orderedlist" "enumerate") by auto.
    destruct (parse_para (S fuel) (Some (Tag "para" attrs' cs)) rd); reflexivity.
  - rewrite (Hlist "itemizedlist" "itemize") by auto.
    destruct (parse_para (S fuel) (Some (Tag "para" attrs' cs)) rd); reflexivity.
  - intros Hq. rewrite parse_para_listitem, Hq, parse_para_None. reflexivity.
  - intros q s Hq Hs. rewrite parse_para_listitem, Hq, Hs. reflexivity.
Qed.

Lemma list_environments_witness :
  parse_para 2
    (Some (elem "listitem" [elem "para" [txt "one"]; elem "para" [txt "two"]])) ∅
  = Ok ("\item one" +:+ LF)
  /\ parse_para 1 (Some (elem "listitem" [txt "one"])) ∅ = Raise AttributeError.
Proof.
  split.
  - apply (proj2 (proj2 (proj2
      (list_environments 1 ∅ ∅ [elem "para" [txt "one"]; elem "para" [txt "two"]] ∅)))
      (elem "para" [txt "one"]) "one"); reflexivity.
  - apply (proj1 (proj2 (proj2 (list_environments 0 ∅ ∅ [txt "one"] ∅)))).
    reflexivity.
Defined.

(** X6. The kinds rendered from the node alone give the same result at
    every recursion bound and for every reference table: a text leaf is its
    escaped text; a code span is "\texttt" around all its text, escaped;
    [texttt] is "\texttt" around its escaped [text] attribute; [shortref],
    [obj] and [autoref] wrap their [sec], [name] and [label] attribute as it
    is, without escaping; [errorenumdesc] is a fixed marker whatever it
    contains. A missing attribute raises [KeyError]. *)
Theorem attribute_rules (fuel : nat) (attrs : gmap string string)
    (cs : list node) (rd : gmap string ref_data) :
  (forall s, parse_para fuel (Some (NavigableString s)) rd = Ok (text_escape s))
  /\ parse_para fuel (Some (Tag "computeroutput" attrs cs)) rd
     = Ok ("\texttt{" +:+ text_escape (bs4.get_text (Tag "computeroutput" attrs cs))
           +:+ "}")
  /\ parse_para fuel (Some (Tag "errorenumdesc" attrs cs)) rd = Ok "\errorenumdesc"
  /\ (forall v,
        (attrs !! "text" = Some v ->
         parse_para fuel (Some (Tag "texttt" attrs cs)) rd
         = Ok ("\texttt{" +:+ text_escape v +:+ "}"))
        /\ (attrs !! "sec" = Some v ->
            parse_para fuel (Some (Tag "shortref" attrs cs)) rd
            = Ok ("\ref{sec:" +:+ v +:+ "}"))
        /\ (attrs !! "name" = Some v ->
            parse_para fuel (Some (Tag "obj" attrs cs)) rd
            = Ok ("\obj{" +:+ v +:+ "}"))
        /\ (attrs !! "label" = Some v ->
            parse_para fuel (Some (Tag "autoref" attrs cs)) rd
            = Ok ("\autoref{" +:+ v +:+ "}")))
  /\ (attrs !! "text" = None ->
      parse_para fuel (Some (Tag "texttt" attrs cs)) rd = Raise KeyError)
  /\ (attrs !! "sec" = None ->
      parse_para fuel (Some (Tag "shortref" attrs cs)) rd = Raise KeyError)
  /\ (attrs !! "name" = None ->
      parse_para fuel (Some (Tag "obj" attrs cs)) rd = Raise KeyError)
  /\ (attrs !! "label" = None ->
      parse_para fuel (Some (Tag "autoref" attrs cs)) rd = Raise KeyError).
Proof.
  split; [intros s; apply parse_para_text|].
  split.
  { rewrite parse_para_tag.
    change (bind (get_text (Some (Tag "computeroutput" attrs cs)) true)
              (fun s => Ok ("\texttt{" +:+ s +:+ "}"))
            = Ok ("\texttt{"
                  +:+ text_escape (bs4.get_text (Tag "computeroutput" attrs cs))
                  +:+ "}")).
    unfold get_text. rewrite node_text_get_text. reflexivity. }
  split; [rewrite parse_para_tag; reflexivity|].
  split.
  { intros v. repeat split; intros Ha; rewrite parse_para_tag.
    - change (bind (bs4.getitem (Tag "texttt" attrs cs) "text")
                (fun t => let! s := get_text (Some (NavigableString t)) true in
                          Ok ("\texttt{" +:+ s +:+ "}"))
              = Ok ("\texttt{" +:+ text_escape v +:+ "}")).
      cbn [bs4.getitem]. rewrite Ha. reflexivity.
    - change (bind (bs4.getitem (Tag "shortref" attrs cs) "sec")
                (fun s => Ok ("\ref{sec:" +:+ s +:+ "}"))
              = Ok ("\ref{sec:" +:+ v +:+ "}")).
      cbn [bs4.getitem]. rewrite Ha. reflexivity.
    - change (bind (bs4.getitem (Tag "obj" attrs cs) "name")
                (fun o => Ok ("\obj{" +:+ o +:+ "}"))
              = Ok ("\obj{" +:+ v +:+ "}")).
      cbn [bs4.getitem]. rewrite Ha. reflexivity.
    - change (bind (bs4.getitem (Tag "autoref" attrs cs) "label")
                (fun l => Ok ("\autoref{" +:+ l +:+ "}"))
              = Ok ("\autoref{" +:+ v +:+ "}")).
      cbn [bs4.getitem]. rewrite Ha. reflexivity. }
  repeat split; intros Ha; rewrite parse_para_tag.
  - change (bind (bs4.getitem (Tag "texttt" attrs cs) "text")
              (fun t => let! s := get_text (Some (NavigableString t)) true in
                        Ok ("\texttt{" +:+ s +:+ "}"))
            = Raise KeyError).
    cbn [bs4.getitem]. rewrite Ha. reflexivity.
  - change (bind (bs4.getitem (Tag "shortref" attrs cs) "sec")
              (fun s => Ok ("\ref{sec:" +:+ s +:+ "}")) = Raise KeyError).
    cbn [bs4.getitem]. rewrite Ha. reflexivity.
  - change (bind (bs4.getitem (Tag "obj" attrs cs) "name")
              (fun o => Ok ("\obj{" +:+ o +:+ "}")) = Raise KeyError).
    cbn [bs4.getitem]. rewrite Ha. reflexivity.
  - change (bind (bs4.getitem (Tag "autoref" attrs cs) "label")
              (fun l => Ok ("\autoref{" +:+ l +:+ "}")) = Raise KeyError).
    cbn [bs4.getitem]. rewrite Ha. reflexivity.
Qed.

Lemma attribute_rules_witness :
  parse_para 0 (Some (Tag "obj" {[ "name" := "seL4_TCB" ]} [txt "ignored"])) ∅
  = Ok "\obj{seL4_TCB}"
  /\ parse_para 0 (Some (Tag "obj" ∅ [txt "seL4_TCB"])) ∅ = Raise KeyError.
Proof.
  split.
  - assert (Ha : ({[ "name" := "seL4_TCB" ]} : gmap string string) !! "name"
                 = Some "seL4_TCB") by reflexivity.
    exact (proj1 (proj2 (proj2 (proj1 (proj2 (proj2 (proj2
             (attribute_rules 0 _ [txt "ignored"] ∅)))) "seL4_TCB"))) Ha).
  - apply (attribute_rules 0 ∅ [txt "seL4_TCB"] ∅). reflexivity.
Defined.

(** ** What rendering can raise *)

Lemma parse_items_raises
    (self : option node -> gmap string ref_data -> result string)
    (items : list node) (acc : string) (rd : gmap string ref_data) :
  (forall pn, raises_render_exn (self pn rd)) ->
  raises_render_exn (parse_items self acc items rd).
Proof.
  intros Hself. revert acc. induction items as [|x items IH]; intros acc e H.
  - discriminate.
  - cbn [parse_items] in H. destruct (self (Some x) rd) as [sx|e'] eqn:Hx.
    + cbn [bind] in H. exact (IH _ _ H).
    + cbn [bind] in H. inversion H; subst e'. exact (Hself _ _ Hx).
Qed.

Lemma parse_list_raises
    (self : option node -> gmap string ref_data -> result string)
    (n : node) (rd : gmap string ref_data) (tag : string) :
  (forall pn, raises_render_exn (self pn rd)) ->
  raises_render_exn (parse_list self n rd tag).
Proof.
  intros Hself e H. unfold parse_list in H.
  destruct (parse_items self ("\begin{" +:+ tag +:+ "}" +:+ LF) (bs4.contents n) rd)
    as [out|e'] eqn:Hi; [discriminate|].
  cbn [bind] in H. inversion H; subst e'.
  exact (parse_items_raises self _ _ rd Hself _ Hi).
Qed.

Lemma getitem_raises (nm key : string) (attrs : gmap string string)
    (cs : list node) (k : string -> result string) :
  (forall v, raises_render_exn (k v)) ->
  raises_render_exn (let! v := bs4.getitem (Tag nm attrs cs) key in k v).
Proof.
  intros Hk e. cbn [bs4.getitem]. destruct (attrs !! key) as [v|]; cbn [bind].
  - apply Hk.
  - intros H. inversion H. reflexivity.
Qed.

Lemma ref_format_raises (key : string) (rd : gmap string ref_data) :
  raises_render_exn (ref_format key rd).
Proof.
  intros e. unfold ref_format. destruct (rd !! key); [discriminate|].
  intros H. inversion H. reflexivity.
Qed.

Lemma ok_raises (s : string) : raises_render_exn (Ok s).
Proof. intros e H. discriminate. Qed.

Lemma dispatch_raises
    (self : option node -> gmap string ref_data -> result string)
    (nm : string) (attrs : gmap string string) (cs : list node)
    (rd : gmap string ref_data) :
  (forall pn, raises_render_exn (self pn rd)) ->
  raises_render_exn (dispatch self nm (Tag nm attrs cs) rd).
Proof.
  intros Hself. unfold dispatch.
  destruct (decide (nm ∈ parse_table_keys)) as [Hin|Hnin].
  2:{ rewrite get_parse_table_unknown by exact Hnin. apply ok_raises. }
  unfold parse_table_keys in Hin.
  repeat (apply elem_of_cons in Hin as [->|Hin]); try (inversion Hin; fail).
  - change (raises_render_exn (parse_items self "" cs rd)).
    apply parse_items_raises. exact Hself.
  - apply ok_raises.
  - change (raises_render_exn
              (let! t := bs4.getitem (Tag "texttt" attrs cs) "text" in
               Ok ("\texttt{" +:+ text_escape t +:+ "}"))).
    apply getitem_raises. intros v. apply ok_raises.
  - change (raises_render_exn (ref_to_format (Tag "ref" attrs cs) rd)).
    unfold ref_to_format. destruct (Nat.ltb 0 (size rd)); [|apply ok_raises].
    apply getitem_raises. intros v. apply ref_format_raises.
  - change (raises_render_exn (nref_to_format (Tag "nameref" attrs cs) rd)).
    unfold nref_to_format. destruct (Nat.ltb 0 (size rd)); [|apply ok_raises].
    apply getitem_raises. intros v. apply ref_format_raises.
  - change (raises_render_exn
              (let! v := bs4.getitem (Tag "shortref" attrs cs) "sec" in
               Ok ("\ref{sec:" +:+ v +:+ "}"))).
    apply getitem_raises. intros v. apply ok_raises.
  - change (raises_render_exn
              (let! v := bs4.getitem (Tag "obj" attrs cs) "name" in
               Ok ("\obj{" +:+ v +:+ "}"))).
    apply getitem_raises. intros v. apply ok_raises.
  - apply ok_raises.
  - change (raises_render_exn
              (parse_list self (Tag "orderedlist" attrs cs) rd "enumerate")).
    apply parse_list_raises. exact Hself.
  - change (raises_render_exn
              (let! s := self (bs4.find "para" (Tag "listitem" attrs cs)) rd in
               Ok ("\item " +:+ s +:+ LF))).
    intros e H.
    destruct (self (bs4.find "para" (Tag "listitem" attrs cs)) rd) as [s|e'] eqn:Hq;
      [discriminate|].
    cbn [bind] in H. inversion H; subst e'. exact (Hself _ _ Hq).
  - change (raises_render_exn
              (parse_list self (Tag "itemizedlist" attrs cs) rd "itemize")).
    apply parse_list_raises. exact Hself.
  - change (raises_render_exn
              (let! v := bs4.getitem (Tag "autoref" attrs cs) "label" in
               Ok ("\autoref{" +:+ v +:+ "}"))).
    apply getitem_raises. intros v. apply ok_raises.
Qed.

Lemma parse_para_raises (fuel : nat) (pn : option node)
    (rd : gmap string ref_data) :
  raises_render_exn (parse_para fuel pn rd).
Proof.
  revert pn rd. induction fuel as [|fuel IH]; intros [[s|nm attrs cs]|] rd;
    try (rewrite parse_para_text; apply ok_raises);
    try (rewrite parse_para_None; intros e H; inversion H; reflexivity).
  - rewrite parse_para_dispatch. apply dispatch_raises.
    intros pn e H. inversion H. reflexivity.
  - rewrite parse_para_dispatch. apply dispatch_raises. intros pn. apply IH.
Qed.

(** X7. Rendering raises nothing but [KeyError] (a missing attribute or an
    unknown reference), [AttributeError] (a list item without paragraph, or
    no node at all) and [RecursionError]; and when the bound is at least the
    nesting depth of the node, only the first two. *)
Theorem render_exceptions (fuel : nat) (pn : option node)
    (rd : gmap string ref_data) (e : exn) :
  parse_para fuel pn rd = Raise e ->
  (e = KeyError \/ e = AttributeError \/ e = RecursionError)
  /\ (forall n, pn = Some n -> bs4.height n <= fuel ->
       e = KeyError \/ e = AttributeError).
Proof.
  intros H. pose proof (parse_para_raises fuel pn rd e H) as He.
  split.
  - destruct e; try discriminate; auto.
  - intros n -> Hh. pose proof (parse_para_within_bound fuel n rd Hh) as Hne.
    destruct e; try discriminate; auto. contradiction.
Qed.

Lemma render_exceptions_witness :
  parse_para 1 (Some (elem "listitem" [txt "one"])) ∅ = Raise AttributeError
  /\ (AttributeError = KeyError \/ AttributeError = AttributeError).
Proof.
  split; [reflexivity|].
  apply (proj2 (render_exceptions 1 (Some (elem "listitem" [txt "one"])) ∅
                  AttributeError eq_refl) (elem "listitem" [txt "one"]) eq_refl).
  vm_compute. lia.
Defined.

(** X8. Rendering does not depend on the recursion bound once the bound
    reaches the nesting depth of the node: any two such bounds give the same
    result, and it is not [RecursionError]. *)
Theorem render_independent_of_bound (n : node) (rd : gmap string ref_data)
    (fuel1 fuel2 : nat) :
  bs4.height n <= fuel1 ->
  bs4.height n <= fuel2 ->
  parse_para fuel1 (Some n) rd = parse_para fuel2 (Some n) rd
  /\ parse_para fuel1 (Some n) rd <> Raise RecursionError.
Proof.
  intros H1 H2.
  destruct (parse_para_enough_fuel n rd fuel1 H1) as [Hne Heq1].
  destruct (parse_para_enough_fuel n rd fuel2 H2) as [_ Heq2].
  split; [congruence | exact Hne].
Qed.

Lemma render_independent_of_bound_witness :
  parse_para 2 (Some (elem "para" [txt "a_b"; elem "para" [txt "c"]])) ∅
  = parse_para 7 (Some (elem "para" [txt "a_b"; elem "para" [txt "c"]])) ∅.
Proof.
  apply (render_independent_of_bound
           (elem "para" [txt "a_b"; elem "para" [txt "c"]]) ∅ 2 7);
    vm_compute; lia.
Defined.

(** ** The reference table, further *)

Lemma ref_found (fuel : nat) (attrs : gmap string string) (cs : list node)
    (rd : gmap string ref_data) (k : string) (d : ref_data) :
  attrs !! "refid" = Some k ->
  rd !! k = Some d ->
  parse_para fuel (Some (Tag "ref" attrs cs)) rd
  = Ok ("\apifunc{" +:+ rd_name d +:+ "}{" +:+ rd_label d +:+ "}").
Proof.
  intros Ha Hk. rewrite parse_para_ref. unfold ref_to_format.
  rewrite (size_pos_lookup _ _ _ Hk). cbn [bs4.getitem]. rewrite Ha. cbn [bind].
  unfold ref_format. rewrite Hk. reflexivity.
Qed.

Lemma table_key_present (fs : list (string * string * string))
    (f : string * string * string) :
  f ∈ fs ->
  is_Some (foldl add_member ∅ fs !! field_id f)
  /\ is_Some (foldl add_member ∅ fs !! field_name f).
Proof.
  intros Hf. split; apply elem_of_dom; rewrite table_dom, elem_of_union,
    !elem_of_list_to_set; [left | right]; apply list_elem_of_fmap_2; exact Hf.
Qed.

(** X9. In the table built from a document, the id and the display name of
    every member of that document are keys: a reference by id or by name to
    a member never fails and renders "\apifunc" with the name and label of
    the descriptor found, whether or not ids and names are unique. With ids
    pairwise distinct and different from every name, a reference by id
    renders the member's own escaped name and label. *)
Theorem member_references_resolve (soup : node)
    (fs : list (string * string * string)) (rd : gmap string ref_data)
    (f : string * string * string) :
  map_result member_fields (bs4.find_all "memberdef" soup) = Ok fs ->
  build_ref_dict soup = Ok rd ->
  f ∈ fs ->
  (exists d,
     rd !! field_id f = Some d
     /\ forall fuel attrs cs,
          attrs !! "refid" = Some (field_id f) ->
          parse_para fuel (Some (Tag "ref" attrs cs)) rd
          = Ok ("\apifunc{" +:+ rd_name d +:+ "}{" +:+ rd_label d +:+ "}"))
  /\ (exists d,
        rd !! field_name f = Some d
        /\ forall fuel attrs cs,
             attrs !! "name" = Some (field_name f) ->
             parse_para fuel (Some (Tag "nameref" attrs cs)) rd
             = Ok ("\apifunc{" +:+ rd_name d +:+ "}{" +:+ rd_label d +:+ "}"))
  /\ (NoDup (field_id <$> fs) ->
      Forall (fun k => k ∉ field_name <$> fs) (field_id <$> fs) ->
      forall fuel attrs cs,
        attrs !! "refid" = Some (field_id f) ->
        parse_para fuel (Some (Tag "ref" attrs cs)) rd
        = Ok ("\apifunc{" +:+ text_escape (field_name f) +:+ "}{"
              +:+ field_label f +:+ "}")).
Proof.
  intros Hfs Hrd Hf. rewrite (build_ref_dict_fields _ _ Hfs) in Hrd.
  inversion Hrd; subst rd; clear Hrd.
  destruct (table_key_present fs f Hf) as [[di Hi] [dn Hn]].
  split; [|split].
  - exists di. split; [exact Hi|]. intros fuel attrs cs Ha.
    eapply ref_found; eassumption.
  - exists dn. split; [exact Hn|]. intros fuel attrs cs Ha.
    eapply nameref_found; eassumption.
  - intros Hnd Hdis fuel attrs cs Ha.
    rewrite (ref_found fuel attrs cs _ _ _ Ha (table_lookup_id fs f Hnd Hdis Hf)).
    reflexivity.
Qed.

Lemma member_references_resolve_witness :
  exists rd,
    build_ref_dict two_member_doc = Ok rd
    /\ parse_para 0 (Some (Tag "ref" {[ "refid" := "group_2b" ]} [txt "x"])) rd
       = Ok "\apifunc{seL4\_Send}{sel4_send}".
Proof.
  exists (foldl add_member ∅
            [ ("seL4_Yield", "sel4_yield", "group_1a");
              ("seL4_Send", "sel4_send", "group_2b") ]).
  assert (Hb : build_ref_dict two_member_doc
               = Ok (foldl add_member ∅
                       [ ("seL4_Yield", "sel4_yield", "group_1a");
                         ("seL4_Send", "sel4_send", "group_2b") ]))
    by reflexivity.
  split; [exact Hb|].
  assert (Ha : ({[ "refid" := "group_2b" ]} : gmap string string) !! "refid"
               = Some "group_2b") by reflexivity.
  refine (proj2 (proj2 (member_references_resolve two_member_doc
            [ ("seL4_Yield", "sel4_yield", "group_1a");
              ("seL4_Send", "sel4_send", "group_2b") ] _
            ("seL4_Send", "sel4_send", "group_2b") eq_refl Hb _)) _ _ 0 _ _ Ha).
  - right. left.
  - refine (bool_decide_unpack _ _). vm_compute. exact I.
  - refine (bool_decide_unpack _ _). vm_compute. exact I.
Defined.

Lemma map_result_raise {A B : Type} (f : A -> result B) (l : list A) (e : exn) :
  map_result f l = Raise e <->
  exists pre x post,
    l = pre ++ x :: post
    /\ Forall (fun y => is_ok (f y) = true) pre
    /\ f x = Raise e.
Proof.
  split.
  - induction l as [|a l IH]; [discriminate|]. cbn [map_result].
    destruct (f a) as [b|e'] eqn:Ha.
    + cbn [bind]. destruct (map_result f l) as [k|e'] eqn:Hl; [discriminate|].
      cbn [bind]. intros H. inversion H; subst e'.
      destruct (IH eq_refl) as (pre & x & post & -> & Hpre & Hx).
      exists (a :: pre), x, post. split; [reflexivity|]. split; [|exact Hx].
      constructor; [rewrite Ha; reflexivity | exact Hpre].
    + cbn [bind]. intros H. inversion H; subst e'.
      exists [], a, l. split; [reflexivity|]. split; [constructor | exact Ha].
  - intros (pre & x & post & -> & Hpre & Hx).
    induction Hpre as [|a pre Ha _ IH].
    + cbn [app map_result]. rewrite Hx. reflexivity.
    + cbn [app map_result]. apply is_ok_true in Ha as [b ->]. cbn [bind].
      rewrite IH. reflexivity.
Qed.

(** X10. [build_ref_dict] fails exactly when some member cannot be read, and
    then raises what the first such member raises: [AttributeError] for a
    member without [name] node, [TypeError] for one without [manual] node,
    [KeyError] for a [manual] without [label] or a member without [id]. No
    partial table is returned. *)
Theorem build_ref_dict_failure (soup : node) :
  (forall e,
     build_ref_dict soup = Raise e <->
     exists pre m post,
       bs4.find_all "memberdef" soup = pre ++ m :: post
       /\ Forall (fun y => is_ok (member_fields y) = true) pre
       /\ member_fields m = Raise e)
  /\ (forall m, bs4.find "name" m = None -> member_fields m = Raise AttributeError)
  /\ (forall m nm,
        bs4.find "name" m = Some nm -> bs4.find "manual" m = None ->
        member_fields m = Raise TypeError)
  /\ (forall m nm mattrs mcs mtag,
        bs4.find "name" m = Some nm ->
        bs4.find "manual" m = Some (Tag mtag mattrs mcs) ->
        mattrs !! "label" = None ->
        member_fields m = Raise KeyError)
  /\ (forall tag attrs cs nm man label,
        bs4.find "name" (Tag tag attrs cs) = Some nm ->
        bs4.find "manual" (Tag tag attrs cs) = Some man ->
        bs4.getitem man "label" = Ok label ->
        attrs !! "id" = None ->
        member_fields (Tag tag attrs cs) = Raise KeyError).
Proof.
  split; [|split; [|split; [|split]]].
  - intros e. unfold build_ref_dict. rewrite build_loop_fields, <- map_result_raise.
    destruct (map_result member_fields (bs4.find_all "memberdef" soup));
      cbn [bind]; split; intros H; try discriminate; inversion H; reflexivity.
  - intros m Hn. unfold member_fields. rewrite Hn. reflexivity.
  - intros m nm Hn Hm. unfold member_fields. rewrite Hn, Hm. reflexivity.
  - intros m nm mattrs mcs mtag Hn Hm Hl. unfold member_fields.
    rewrite Hn, Hm. cbn [deref bind bs4.getitem]. rewrite Hl. reflexivity.
  - intros tag attrs cs nm man label Hn Hm Hl Hi. unfold member_fields.
    rewrite Hn, Hm. cbn [deref bind]. rewrite Hl. cbn [bind bs4.getitem].
    rewrite Hi. reflexivity.
Qed.

Lemma build_ref_dict_failure_witness :
  build_ref_dict unlabelled_doc = Raise TypeError.
Proof.
  apply (proj1 (build_ref_dict_failure unlabelled_doc)).
  exists [], untyped_member, []. split; [reflexivity|]. split; [constructor|].
  apply (proj1 (proj2 (proj2 (build_ref_dict_failure unlabelled_doc)))
           untyped_member (elem "name" [txt "h"])); reflexivity.
Defined.

Lemma table_size_le (fs : list (string * string * string)) :
  size (foldl add_member ∅ fs) <= 2 * length fs.
Proof.
  induction fs as [|f fs IH] using rev_ind.
  - cbn. rewrite map_size_empty. lia.
  - rewrite table_snoc, length_app. cbn [length]. unfold add_member at 1.
    rewrite !map_size_insert.
    destruct (_ !! field_name f), (_ !! field_id f); cbn; lia.
Qed.

Lemma table_empty (fs : list (string * string * string)) :
  foldl add_member ∅ fs = ∅ <-> fs = [].
Proof.
  split; [|intros ->; reflexivity].
  intros H. destruct fs as [|f fs]; [reflexivity|].
  destruct (table_key_present (f :: fs) f) as [[d Hd] _]; [left|].
  rewrite H, lookup_empty in Hd. discriminate.
Qed.

(** ** The stages of parse_detailed_desc, further *)

(** X12. The pairing of declared names with types succeeds exactly when the
    member has more type nodes than declared names (the return type and one
    type per name); otherwise it raises [StopIteration], which is the only
    exception it can raise, and [parse_detailed_desc] raises it too. *)
Theorem declared_params_stop_iteration (parent : node) :
  (is_ok (declared_params parent) = true <->
   length (bs4.find_all "declname" parent) < length (bs4.find_all "type" parent))
  /\ (forall e, declared_params parent = Raise e -> e = StopIteration)
  /\ (length (bs4.find_all "type" parent) <= length (bs4.find_all "declname" parent) ->
      forall fuel rd, parse_detailed_desc fuel parent rd = Raise StopIteration).
Proof.
  assert (Hcases :
    (length (bs4.find_all "declname" parent) < length (bs4.find_all "type" parent)
     /\ is_ok (declared_params parent) = true)
    \/ (length (bs4.find_all "type" parent) <= length (bs4.find_all "declname" parent)
        /\ declared_params parent = Raise StopIteration)).
  { unfold declared_params.
    destruct (bs4.find_all "type" parent) as [|r types_iter].
    - right. split; [cbn; lia | reflexivity].
    - cbn [length].
      destruct (Nat.le_gt_cases (length (bs4.find_all "declname" parent))
                  (length types_iter)) as [Hle|Hgt].
      + left. split; [lia|].
        destruct (pair_params_ok _ types_iter ∅ [] Hle) as (params & -> & _).
        reflexivity.
      + right. split; [lia|]. rewrite pair_params_short by exact Hgt. reflexivity. }
  split; [|split].
  - destruct Hcases as [[Hlt Hok]|[Hle Hr]].
    + split; intros _; assumption.
    + rewrite Hr. split; [discriminate | lia].
  - intros e He. destruct Hcases as [[_ Hok]|[_ Hr]].
    + rewrite He in Hok. discriminate.
    + rewrite Hr in He. inversion He. reflexivity.
  - intros Hle fuel rd. destruct Hcases as [[Hlt _]|[_ Hr]]; [lia|].
    unfold parse_detailed_desc, desc_params. rewrite Hr. reflexivity.
Qed.

Lemma declared_params_stop_iteration_witness :
  parse_detailed_desc 0 short_typed_member ∅ = Raise StopIteration.
Proof.
  apply (proj2 (proj2 (declared_params_stop_iteration short_typed_member))).
  vm_compute. lia.
Defined.

(** X13. Attaching the documented descriptions keeps the parameter
    dictionary's keys and every parameter's type; a description is either
    what it was or the rendering of the description of a documented item
    with that parameter's name. *)
Theorem attach_descs_keeps_types (fuel : nat) (items : list node)
    (rd : gmap string ref_data) (params params' : gmap string param_info) :
  attach_descs fuel items rd params = Ok params' ->
  dom params' = dom params
  /\ forall nm info',
       params' !! nm = Some info' ->
       exists info,
         params !! nm = Some info
         /\ pi_type info' = pi_type info
         /\ (pi_desc info' = pi_desc info
             \/ exists item desc r,
                  item ∈ items
                  /\ get_text (bs4.find "parametername" item) false = Ok nm
                  /\ bs4.find "parameterdescription" item = Some desc
                  /\ parse_para fuel (bs4.find "para" desc) rd = Ok r
                  /\ pi_desc info' = Some r).
Proof.
  intros H. split; [eapply attach_descs_dom; exact H|].
  revert params H. induction items as [|item items IH]; intros params H nm info' Hl.
  - inversion H; subst. exists info'. auto.
  - cbn [attach_descs] in H.
    apply bind_Ok in H as (nm0 & Hnm0 & H).
    apply bind_Ok in H as (desc & Hdesc & H).
    apply bind_Ok in H as (r & Hr & H).
    destruct (params !! nm0) as [info0|] eqn:Hl0; [|discriminate].
    destruct (bs4.find "parameterdescription" item) as [desc'|] eqn:Hfd;
      [|discriminate].
    cbn [deref] in Hdesc. inversion Hdesc; subst desc'.
    destruct (IH _ H nm info' Hl) as (info1 & Hl1 & Hty & Hd).
    destruct (decide (nm0 = nm)) as [->|Hne].
    + rewrite lookup_insert_eq in Hl1. inversion Hl1; subst info1.
      exists info0. split; [exact Hl0|]. split; [exact Hty|]. right.
      destruct Hd as [Hd|(item' & desc' & r' & Hin & ? & ? & ? & ?)].
      * exists item, desc, r. cbn [pi_desc] in Hd. repeat split; try assumption. left.
      * exists item', desc', r'. repeat split; try assumption. right. exact Hin.
    + rewrite lookup_insert_ne in Hl1 by exact Hne.
      exists info1. split; [exact Hl1|]. split; [exact Hty|].
      destruct Hd as [Hd|(item' & desc' & r' & Hin & ? & ? & ? & ?)]; [left; exact Hd|].
      right. exists item', desc', r'. repeat split; try assumption. right. exact Hin.
Qed.

Lemma attach_descs_keeps_types_witness :
  exists params',
    attach_descs 1 (bs4.find_all "parameteritem" send_member) ∅
      {[ "dest" := mk_param_info "seL4_CPtr" None ]} = Ok params'
    /\ dom params' = ({[ "dest" ]} : gset string).
Proof.
  eexists. split; [vm_compute; reflexivity|].
  refine (eq_trans (proj1 (attach_descs_keeps_types 1
            (bs4.find_all "parameteritem" send_member) ∅
            {[ "dest" := mk_param_info "seL4_CPtr" None ]} _ _)) _).
  - vm_compute. reflexivity.
  - apply dom_singleton_L.
Defined.

Lemma todo_if_empty_nonempty (s : string) : todo_if_empty s <> "".
Proof. destruct s; discriminate. Qed.

(** X14. No component of what [parse_detailed_desc] returns is blank: the
    details and the return documentation are a text or "\todo", and the
    parameter block is "\param{void}{}{}" or starts with a parameter
    line. *)
Theorem detailed_desc_never_blank (fuel : nat) (parent : node)
    (rd : gmap string ref_data) (details ps ret : string) :
  parse_detailed_desc fuel parent rd = Ok (details, ps, ret) ->
  details <> "" /\ ps <> "" /\ ret <> ""
  /\ (ps = "\param{void}{}{}" \/ exists rest, ps = "\param{" +:+ rest).
Proof.
  unfold parse_detailed_desc. intros H.
  apply bind_Ok in H as ([ret_type ps'] & Hp & H).
  apply bind_Ok in H as (d & _ & H).
  apply bind_Ok in H as (r & _ & H). inversion H; subst; clear H.
  assert (Hps : ps = "\param{void}{}{}" \/ exists rest, ps = "\param{" +:+ rest).
  { pose proof Hp as Hp'. unfold desc_params in Hp'.
    apply bind_Ok in Hp' as ([[rt params] order] & Hd & _).
    assert (rt = ret_type) as ->.
    { pose proof (declared_params_ret _ _ _ _ Hd) as H1.
      pose proof (desc_params_ret _ _ _ _ _ Hp) as H2. congruence. }
    destruct (desc_params_block _ _ _ _ _ _ _ Hd (declared_params_dom _ _ _ _ Hd) Hp)
      as (params' & _ & _ & Hnil & Hcons).
    destruct order as [|nm order]; [left; apply Hnil; reflexivity|].
    right. destruct Hcons as (entries & Hall & ->); [discriminate|].
    inversion Hall as [|? e ? es (info & _ & He) _]; subst.
    rewrite join_empty_cons, !append_assoc. eexists. reflexivity. }
  split; [apply todo_if_empty_nonempty|]. split; [|split; [apply todo_if_empty_nonempty | exact Hps]].
  destruct Hps as [->|[rest ->]]; discriminate.
Qed.

Lemma detailed_desc_never_blank_witness :
  parse_detailed_desc 2 yield_member ∅
  = Ok ("See \autoref{sec:sys_yield}", "\param{void}{}{}", "\noret")
  /\ "\noret" <> "".
Proof.
  split; [reflexivity|].
  apply (detailed_desc_never_blank 2 yield_member ∅
           "See \autoref{sec:sys_yield}" "\param{void}{}{}" "\noret").
  reflexivity.
Defined.

Lemma details_loop_map (fuel : nat) (paras : list node)
    (rd : gmap string ref_data) (acc : string) :
  details_loop fuel paras rd acc
  = (let! rendered :=
       map_result (fun n => parse_para fuel (Some n) rd)
         (List.filter plain_paragraph paras) in
     Ok (acc +:+ join "" (List.map (fun s => s +:+ LF +:+ LF) rendered))).
Proof.
  revert acc. induction paras as [|n paras IH]; intros acc.
  - cbn. rewrite append_nil_r. reflexivity.
  - cbn [details_loop List.filter]. unfold plain_paragraph at 1.
    destruct (bs4.find "parameterlist" n); [apply IH|].
    cbn [map_result]. destruct (parse_para fuel (Some n) rd) as [s|e]; [|reflexivity].
    cbn [bind]. rewrite IH.
    destruct (map_result _ (List.filter plain_paragraph paras)) as [l|e];
      [|reflexivity].
    cbn [bind List.map]. rewrite join_empty_cons, !append_assoc. reflexivity.
Qed.

(** X15. The details are the renderings of the direct paragraph children of
    the detailed description that hold no parameter list, in order, each
    followed by a blank line; a paragraph that holds a parameter list is not
    rendered at all, so nothing in it can make the details fail. A member
    without detailed description raises [AttributeError]. *)
Theorem details_skip_parameter_paragraphs (fuel : nat) (parent : node)
    (rd : gmap string ref_data) :
  (forall dd,
     bs4.find "detaileddescription" parent = Some dd ->
     desc_details fuel parent rd
     = (let! rendered :=
          map_result (fun n => parse_para fuel (Some n) rd)
            (List.filter plain_paragraph (bs4.find_all_children "para" dd)) in
        Ok (join "" (List.map (fun s => s +:+ LF +:+ LF) rendered))))
  /\ (bs4.find "detaileddescription" parent = None ->
      desc_details fuel parent rd = Raise AttributeError).
Proof.
  split.
  - intros dd Hdd. unfold desc_details. rewrite Hdd. cbn [deref bind].
    rewrite details_loop_map.
    destruct (map_result _ (List.filter plain_paragraph _)); reflexivity.
  - intros Hdd. unfold desc_details. rewrite Hdd. reflexivity.
Qed.

Lemma details_skip_parameter_paragraphs_witness :
  desc_details 2 send_member ∅ = Ok ("See " +:+ LF +:+ LF)
  /\ desc_details 0 proto_member ∅ = Raise AttributeError.
Proof.
  split.
  - refine (eq_trans (proj1 (details_skip_parameter_paragraphs 2 send_member ∅)
              _ eq_refl) _).
    reflexivity.
  - apply (proj2 (details_skip_parameter_paragraphs 0 proto_member ∅)). reflexivity.
Defined.

(** ** parse_prototype, further *)

(** X16. [parse_prototype] returns exactly for a member that has the
    [inline] and [static] attributes and a [type] and a [name] node. A
    missing attribute raises [KeyError], [inline] being read first; with
    both attributes, a missing [type] or [name] node raises
    [AttributeError]. *)
Theorem parse_prototype_failure (tag : string) (attrs : gmap string string)
    (cs : list node) :
  let parent := Tag tag attrs cs in
  (is_ok (parse_prototype parent) = true <->
   is_Some (attrs !! "inline") /\ is_Some (attrs !! "static")
   /\ is_Some (bs4.find "type" parent) /\ is_Some (bs4.find "name" parent))
  /\ (attrs !! "inline" = None -> parse_prototype parent = Raise KeyError)
  /\ (attrs !! "static" = None -> parse_prototype parent = Raise KeyError)
  /\ (is_Some (attrs !! "inline") -> is_Some (attrs !! "static") ->
      bs4.find "type" parent = None \/ bs4.find "name" parent = None ->
      parse_prototype parent = Raise AttributeError).
Proof.
  intros parent. subst parent. unfold parse_prototype. cbn [bs4.getitem].
  split; [|split; [|split]].
  - destruct (attrs !! "inline") as [i|]; cbn [bind];
      [|split; [discriminate | intros ([? ?] & _); discriminate]].
    destruct (attrs !! "static") as [st|]; cbn [bind];
      [|split; [discriminate | intros (_ & [? ?] & _); discriminate]].
    destruct (bs4.find "type" (Tag tag attrs cs)) as [t|]; cbn [get_text bind];
      [|split; [discriminate | intros (_ & _ & [? ?] & _); discriminate]].
    destruct (bs4.find "name" (Tag tag attrs cs)) as [n|]; cbn [get_text bind];
      [|split; [discriminate | intros (_ & _ & _ & [? ?]); discriminate]].
    split; [intros _; repeat split; eauto | reflexivity].
  - intros ->. reflexivity.
  - intros Hs. destruct (attrs !! "inline"); cbn [bind]; [rewrite Hs|]; reflexivity.
  - intros [i ->] [st ->] Hor. cbn [bind].
    destruct (bs4.find "type" (Tag tag attrs cs)) as [t|]; cbn [get_text bind];
      [|reflexivity].
    destruct Hor as [Hor|Hor]; [discriminate|]. rewrite Hor. reflexivity.
Qed.

Lemma parse_prototype_failure_witness :
  parse_prototype (Tag "memberdef" {[ "static" := "yes" ]} [elem "type" [txt "int"]])
  = Raise KeyError.
Proof.
  apply (proj1 (proj2 (parse_prototype_failure "memberdef" {[ "static" := "yes" ]}
                         [elem "type" [txt "int"]]))).
  reflexivity.
Defined.

(** ** generate_general_syscall_doc, further *)

Lemma members_loop_map (fuel : nat) (level : string)
    (rd : gmap string ref_data) (members : list node) (out : string) :
  members_loop fuel level rd members out
  = (let! blocks := map_result (member_block fuel level rd) members in
     Ok (out +:+ join "" blocks)).
Proof.
  revert out. induction members as [|m members IH]; intros out.
  - cbn. rewrite append_nil_r. reflexivity.
  - cbn [members_loop map_result]. unfold member_block at 1.
    destruct (parse_detailed_desc fuel m rd) as [[[d ps] r]|e]; [|reflexivity].
    cbn [bind]. destruct (generate_api_doc fuel level m ps r d) as [doc|e];
      [|reflexivity].
    cbn [bind]. rewrite IH.
    destruct (map_result (member_block fuel level rd) members); [|reflexivity].
    cbn [bind]. rewrite join_empty_cons, append_assoc. reflexivity.
Qed.

(** X17. For a document with at least one member whose reference table
    builds and whose top-level descriptions render to [top], the output is
    [top] followed by the blocks of the members in document order, each
    block made from that member alone and the table; the run raises what the
    first failing member raises. *)
Theorem document_blocks_in_order (fuel : nat) (soup : node) (level : string)
    (rd : gmap string ref_data) (summary : node) (top : string) :
  build_ref_dict soup = Ok rd ->
  bs4.find "compounddef" soup = Some summary ->
  top_descriptions fuel
    (bs4.find_all_children "detaileddescription" summary) "" = Ok top ->
  bs4.find_all "memberdef" soup <> [] ->
  generate_general_syscall_doc fuel soup level
  = (let! blocks :=
       map_result (member_block fuel level rd) (bs4.find_all "memberdef" soup) in
     Ok (top +:+ join "" blocks)).
Proof.
  intros Hb Hs Htop Hne. unfold generate_general_syscall_doc.
  rewrite Hb. cbn [bind]. rewrite Hs. cbn [deref bind]. rewrite Htop. cbn [bind].
  destruct (bs4.find_all "memberdef" soup) as [|m ms]; [contradiction|].
  cbn [length Nat.eqb]. apply members_loop_map.
Qed.

Lemma document_blocks_in_order_witness :
  exists block1 block2,
    member_block 3 "subsection"
      (foldl add_member ∅ [ ("seL4_Yield", "sel4_yield", "group_1a");
                            ("seL4_Send", "sel4_send", "group_2b") ])
      yield_member = Ok block1
    /\ member_block 3 "subsection"
         (foldl add_member ∅ [ ("seL4_Yield", "sel4_yield", "group_1a");
                               ("seL4_Send", "sel4_send", "group_2b") ])
         send_member = Ok block2
    /\ generate_general_syscall_doc 3 two_member_doc "subsection"
       = Ok ("System calls" +:+ block1 +:+ block2).
Proof.
  eexists. eexists. split; [vm_compute; reflexivity|].
  split; [vm_compute; reflexivity|].
  refine (eq_trans (document_blocks_in_order 3 two_member_doc "subsection"
            (foldl add_member ∅ [ ("seL4_Yield", "sel4_yield", "group_1a");
                                  ("seL4_Send", "sel4_send", "group_2b") ])
            _ "System calls" _ _ _ _) _).
  - reflexivity.
  - reflexivity.
  - reflexivity.
  - discriminate.
  - vm_compute. reflexivity.
Defined.

(** X18. Failures before the members are read are not masked, also for a
    document without members: the run raises what [build_ref_dict] raises;
    when the table builds, a document without [compounddef] raises
    [AttributeError] instead of returning "No methods."; and it raises what
    a top-level description raises. *)
Theorem document_failures_first (fuel : nat) (soup : node) (level : string) :
  (forall e, build_ref_dict soup = Raise e ->
     generate_general_syscall_doc fuel soup level = Raise e)
  /\ (is_ok (build_ref_dict soup) = true ->
      bs4.find "compounddef" soup = None ->
      generate_general_syscall_doc fuel soup level = Raise AttributeError)
  /\ (forall summary e,
        is_ok (build_ref_dict soup) = true ->
        bs4.find "compounddef" soup = Some summary ->
        top_descriptions fuel
          (bs4.find_all_children "detaileddescription" summary) "" = Raise e ->
        generate_general_syscall_doc fuel soup level = Raise e).
Proof.
  unfold generate_general_syscall_doc. split; [|split].
  - intros e ->. reflexivity.
  - intros [rd ->]%is_ok_true ->. reflexivity.
  - intros summary e [rd ->]%is_ok_true -> Htop. cbn [bind deref].
    rewrite Htop. reflexivity.
Qed.

Lemma document_failures_first_witness :
  bs4.find_all "memberdef" bare_doc = []
  /\ generate_general_syscall_doc 0 bare_doc "subsection" = Raise AttributeError.
Proof.
  split; [reflexivity|].
  apply (proj1 (proj2 (document_failures_first 0 bare_doc "subsection")));
    reflexivity.
Defined.

(** ** Parameters and their documentation *)

Lemma pair_params_undocumented (names types_iter : list node)
    (params params' : gmap string param_info) (order order' : list string) :
  pair_params names types_iter params order = Ok (params', order') ->
  (forall nm info, params !! nm = Some info -> pi_desc info = None) ->
  forall nm info, params' !! nm = Some info -> pi_desc info = None.
Proof.
  revert types_iter params order.
  induction names as [|n names IH]; intros types_iter params order H Hnone.
  - inversion H; subst. exact Hnone.
  - destruct types_iter as [|t types_iter]; [discriminate|].
    cbn [pair_params] in H.
    destruct (String.eqb (bs4.get_text t) "void").
    + eapply IH; eassumption.
    + eapply IH; [exact H|]. intros nm info.
      destruct (decide (bs4.get_text n = nm)) as [->|Hne].
      * rewrite lookup_insert_eq. intros Heq. inversion Heq. reflexivity.
      * rewrite lookup_insert_ne by exact Hne. apply Hnone.
Qed.

(** X19. For a member without documented parameter items the parameter stage
    always returns; when the parameter list is not empty the block is one
    line per listed name, in order, with the escaped type, the escaped name
    and "\todo" as the description. *)
Theorem undocumented_parameters_todo (fuel : nat) (parent ret_type : node)
    (rd : gmap string ref_data) (params : gmap string param_info)
    (order : list string) :
  declared_params parent = Ok (ret_type, params, order) ->
  bs4.find_all "parameteritem" parent = [] ->
  exists ps,
    desc_params fuel parent rd = Ok (ret_type, ps)
    /\ (order <> [] ->
        exists entries,
          ps = join "" entries
          /\ Forall2
               (fun nm e =>
                  exists info,
                    params !! nm = Some info
                    /\ e = "\param{" +:+ text_escape (pi_type info) +:+ "}{"
                          +:+ text_escape nm +:+ "}{\todo}" +:+ LF)
               order entries).
Proof.
  intros Hd Hitems.
  pose proof (declared_params_dom _ _ _ _ Hd) as Hdom.
  assert (Hnone : forall nm info, params !! nm = Some info -> pi_desc info = None).
  { unfold declared_params in Hd.
    destruct (bs4.find_all "type" parent) as [|r types_iter]; [discriminate|].
    apply bind_Ok in Hd as ([p o] & Hpair & Hd). inversion Hd; subst.
    eapply pair_params_undocumented; [exact Hpair|].
    intros nm info. rewrite lookup_empty. discriminate. }
  assert (Hok : exists ps, desc_params fuel parent rd = Ok (ret_type, ps)).
  { unfold desc_params. rewrite Hd. cbn [bind]. rewrite Hitems.
    cbn [attach_descs bind]. unfold params_block.
    destruct (Nat.eqb (size params) 0); [eexists; reflexivity|].
    destruct (params_loop_ok params order "") as (entries & _ & ->).
    { intros nm Hnm. apply elem_of_dom. rewrite Hdom.
      apply elem_of_list_to_set. exact Hnm. }
    eexists. reflexivity. }
  destruct Hok as [ps Hps]. exists ps. split; [exact Hps|]. intros Hne.
  destruct (desc_params_block _ _ _ _ _ _ _ Hd Hdom Hps)
    as (params' & Hatt & _ & _ & Hcons).
  rewrite Hitems in Hatt. inversion Hatt; subst params'.
  destruct (Hcons Hne) as (entries & Hall & ->).
  exists entries. split; [reflexivity|].
  eapply Forall2_impl; [exact Hall|].
  intros nm e (info & Hinfo & ->). exists info. split; [exact Hinfo|].
  rewrite (Hnone _ _ Hinfo). reflexivity.
Qed.

Lemma undocumented_parameters_todo_witness :
  desc_params 0 undocumented_member ∅
  = Ok (elem "type" [txt "int"],
        "\param{seL4\_Word}{msg\_info}{\todo}" +:+ LF).
Proof.
  destruct (undocumented_parameters_todo 0 undocumented_member
              (elem "type" [txt "int"]) ∅
              {[ "msg_info" := mk_param_info "seL4_Word" None ]} ["msg_info"]
              eq_refl eq_refl) as (ps & Hps & Hlines).
  destruct Hlines as (entries & -> & Hall); [discriminate|].
  inversion Hall as [|? e ? es (info & Hinfo & ->) Hrest]; subst.
  inversion Hrest; subst.
  vm_compute in Hinfo. inversion Hinfo; subst info. exact Hps.
Defined.

Lemma attach_descs_step (fuel : nat) (item : node) (rest : list node)
    (rd : gmap string ref_data) (params : gmap string param_info) :
  is_ok (attach_descs fuel (item :: rest) rd params) = true <->
  exists nm desc r info,
    get_text (bs4.find "parametername" item) false = Ok nm
    /\ bs4.find "parameterdescription" item = Some desc
    /\ parse_para fuel (bs4.find "para" desc) rd = Ok r
    /\ params !! nm = Some info
    /\ is_ok (attach_descs fuel rest rd
                (<[ nm := mk_param_info (pi_type info) (Some r) ]> params)) = true.
Proof.
  cbn [attach_descs]. split.
  - destruct (get_text (bs4.find "parametername" item) false) as [nm|];
      [|discriminate]. cbn [bind].
    destruct (bs4.find "parameterdescription" item) as [desc|]; [|discriminate].
    cbn [deref bind].
    destruct (parse_para fuel (bs4.find "para" desc) rd) as [r|] eqn:Hr;
      [|discriminate].
    cbn [bind]. destruct (params !! nm) as [info|] eqn:Hl; [|discriminate].
    intros H. exists nm, desc, r, info. auto.
  - intros (nm & desc & r & info & -> & -> & Hr & Hl & H).
    cbn [deref bind]. rewrite Hr. cbn [bind]. rewrite Hl. exact H.
Qed.

(** X20. Attaching the documented items succeeds exactly when every item has
    a name that is a declared (non-void) parameter name and a description
    whose paragraph renders; the names are compared unescaped, so a
    parameter with a reserved character in its name is found. *)
Theorem attach_descs_success (fuel : nat) (items : list node)
    (rd : gmap string ref_data) (params : gmap string param_info) :
  is_ok (attach_descs fuel items rd params) = true
  <-> Forall (attachable fuel rd params) items.
Proof.
  revert params. induction items as [|item items IH]; intros params.
  - split; [constructor | reflexivity].
  - rewrite attach_descs_step, Forall_cons. split.
    + intros (nm & desc & r & info & Hnm & Hdesc & Hr & Hl & H).
      split.
      * exists nm, desc. rewrite Hr. eauto.
      * apply IH in H. eapply Forall_impl; [exact H|].
        intros x (nm' & desc' & Hnm' & Hs & Hd' & Hr').
        exists nm', desc'. repeat split; try assumption.
        apply elem_of_dom. apply elem_of_dom in Hs.
        rewrite dom_insert_lookup_L in Hs by eauto. exact Hs.
    + intros [(nm & desc & Hnm & [info Hl] & Hdesc & Hr) Hall].
      apply is_ok_true in Hr as [r Hr].
      exists nm, desc, r, info. repeat split; try assumption.
      apply IH. eapply Forall_impl; [exact Hall|].
      intros x (nm' & desc' & Hnm' & Hs & Hd' & Hr').
      exists nm', desc'. repeat split; try assumption.
      apply elem_of_dom. rewrite dom_insert_lookup_L by eauto.
      apply elem_of_dom. exact Hs.
Qed.

Lemma attach_descs_success_witness :
  is_ok (attach_descs 1 (bs4.find_all "parameteritem" send_member) ∅
           {[ "dest" := mk_param_info "seL4_CPtr" None ]}) = true.
Proof.
  apply (proj2 (attach_descs_success 1 (bs4.find_all "parameteritem" send_member) ∅
                  {[ "dest" := mk_param_info "seL4_CPtr" None ]})).
  repeat constructor.
  exists "dest", (elem "parameterdescription" [elem "para" [txt "The cap."]]).
  repeat split; try reflexivity. eexists. reflexivity.
Defined.

(** * The parameter block and the lookup failures, on parse_detailed_desc *)

(** ** The parameter block *)

Lemma desc_params_no_items (fuel : nat) (parent ret_type : node)
    (rd : gmap string ref_data) (params : gmap string param_info)
    (order : list string) :
  declared_params parent = Ok (ret_type, params, order) ->
  bs4.find_all "parameteritem" parent = [] ->
  exists ps, desc_params fuel parent rd = Ok (ret_type, ps).
Proof.
  intros Hd Hitems. pose proof (declared_params_dom _ _ _ _ Hd) as Hdom.
  unfold desc_params. rewrite Hd. cbn [bind]. rewrite Hitems.
  cbn [attach_descs bind]. unfold params_block.
  destruct (Nat.eqb (size params) 0); [eexists; reflexivity|].
  destruct (params_loop_ok params order "") as (entries & _ & ->).
  { intros nm Hnm. apply elem_of_dom. rewrite Hdom.
    apply elem_of_list_to_set. exact Hnm. }
  eexists. reflexivity.
Qed.

Lemma parse_detailed_desc_params (fuel : nat) (parent ret_type : node)
    (rd : gmap string ref_data) (details ps ret : string) :
  bs4.find "type" parent = Some ret_type ->
  parse_detailed_desc fuel parent rd = Ok (details, ps, ret) ->
  desc_params fuel parent rd = Ok (ret_type, ps).
Proof.
  intros Hty H. unfold parse_detailed_desc in H.
  apply bind_Ok in H as ([rt ps'] & Hp & H).
  apply bind_Ok in H as (d & _ & H).
  apply bind_Ok in H as (r & _ & H). inversion H; subst.
  pose proof (desc_params_ret _ _ _ _ _ Hp) as Hrt. rewrite Hty in Hrt.
  inversion Hrt; subst. exact Hp.
Qed.

(** C2. For a member whose type sequence is the return type followed by at
    least one type per declared name, the parameter list of
    [parse_detailed_desc] is the declared names in declaration order without
    the positions whose paired type is literally "void", so its length is
    the number of declared names minus the number of those positions. The
    parameter block that [parse_detailed_desc] returns is made from that
    list: when the list is empty the block is "\param{void}{}{}", otherwise
    it is one line per listed name, in order. And [parse_detailed_desc] does
    return when the member has no documented parameter item and its details
    and return documentation render; in particular a member whose only
    parameter is an unnamed "void" gets "\param{void}{}{}". *)
Theorem parameter_list_exact (parent ret_type : node) (types_iter : list node) :
  bs4.find_all "type" parent = ret_type :: types_iter ->
  length (bs4.find_all "declname" parent) <= length types_iter ->
  let names := bs4.find_all "declname" parent in
  let order := non_void_names names types_iter in
  let voids := List.filter void_typed (combine names types_iter) in
  exists params,
    declared_params parent = Ok (ret_type, params, order)
    /\ dom params = list_to_set order
    /\ length order = length names - length voids
    /\ length order + length voids = length names
    /\ (forall fuel rd ps,
          desc_params fuel parent rd = Ok (ret_type, ps) ->
          (order = [] -> ps = "\param{void}{}{}")
          /\ (order <> [] ->
              exists params' entries,
                Forall2 (param_entry params') order entries
                /\ ps = join "" entries))
    /\ (forall fuel rd,
          order = [] ->
          bs4.find_all "parameteritem" parent = [] ->
          desc_params fuel parent rd = Ok (ret_type, "\param{void}{}{}"))
    /\ (forall fuel rd details ps ret,
          parse_detailed_desc fuel parent rd = Ok (details, ps, ret) ->
          desc_params fuel parent rd = Ok (ret_type, ps)
          /\ (order = [] -> ps = "\param{void}{}{}")
          /\ (order <> [] ->
              exists params' entries,
                Forall2 (param_entry params') order entries
                /\ length entries = length names - length voids
                /\ ps = join "" entries))
    /\ (forall fuel rd d r,
          bs4.find_all "parameteritem" parent = [] ->
          desc_details fuel parent rd = Ok d ->
          desc_return fuel ret_type parent rd = Ok r ->
          exists ps,
            parse_detailed_desc fuel parent rd
            = Ok (todo_if_empty (strip d), ps, todo_if_empty (strip r))
            /\ (order = [] -> ps = "\param{void}{}{}")).
Proof.
  intros Hty Hle names order voids.
  destruct (parameter_stage_exact parent ret_type types_iter Hty Hle)
    as (params & Hdecl & Hdom & Hminus & Hplus & Hblock & Hempty).
  fold names in Hdecl, Hdom, Hminus, Hplus, Hblock, Hempty.
  fold order in Hdecl, Hdom, Hminus, Hplus, Hblock, Hempty.
  fold voids in Hminus, Hplus.
  assert (Hfind : bs4.find "type" parent = Some ret_type).
  { unfold bs4.find. rewrite Hty. reflexivity. }
  exists params.
  split; [exact Hdecl|]. split; [exact Hdom|]. split; [exact Hminus|].
  split; [exact Hplus|]. split; [exact Hblock|]. split; [exact Hempty|]. split.
  - intros fuel rd details ps ret H.
    pose proof (parse_detailed_desc_params _ _ _ _ _ _ _ Hfind H) as Hp.
    destruct (Hblock fuel rd ps Hp) as [Hnil Hcons].
    split; [exact Hp|]. split; [exact Hnil|]. intros Hne.
    destruct (Hcons Hne) as (params' & entries & Hall & Hps).
    exists params', entries. split; [exact Hall|]. split; [|exact Hps].
    rewrite <- (Forall2_length _ _ _ Hall). exact Hminus.
  - intros fuel rd d r Hitems Hd Hr.
    destruct (desc_params_no_items fuel parent ret_type rd params order Hdecl Hitems)
      as [ps Hps].
    exists ps. split.
    + rewrite (parse_detailed_desc_stages _ _ _ _ _ _ Hps Hd), Hr. reflexivity.
    + exact (proj1 (Hblock fuel rd ps Hps)).
Qed.

Lemma parameter_list_exact_witness :
  parse_detailed_desc 2 yield_member ∅
  = Ok ("See \autoref{sec:sys_yield}", "\param{void}{}{}", "\noret")
  /\ exists lines,
       length lines = 2
       /\ parse_detailed_desc 3 send_member ∅ = Ok ("See", join "" lines, "first").
Proof.
  split.
  - destruct (parameter_list_exact yield_member (elem "type" [txt "void"])
                [elem "type" [txt "void"]] eq_refl (Nat.le_0_l 1))
      as (params & _ & _ & _ & _ & _ & _ & _ & H).
    destruct (H 2 ∅ ("See \autoref{sec:sys_yield}" +:+ LF +:+ LF) "\noret"
                eq_refl eq_refl eq_refl) as (ps & Hps & Hnil).
    rewrite Hps, (Hnil eq_refl). reflexivity.
  - assert (Hle : length (bs4.find_all "declname" send_member) <= 2)
      by (vm_compute; lia).
    destruct (parameter_list_exact send_member (elem "type" [txt "seL4_Error"])
                [elem "type" [txt "seL4_CPtr"]; elem "type" [txt "seL4_MessageInfo_t"]]
                eq_refl Hle)
      as (params & _ & _ & _ & _ & _ & _ & H & _).
    assert (Hrun : parse_detailed_desc 3 send_member ∅
                   = Ok ("See",
                         "\param{seL4\_CPtr}{dest}{The cap.}" +:+ LF
                         +:+ "\param{seL4\_MessageInfo\_t}{msg\_info}{\todo}" +:+ LF,
                         "first")) by reflexivity.
    destruct (H 3 ∅ _ _ _ Hrun) as (_ & _ & Hlines).
    destruct Hlines as (params' & entries & _ & Hlen & Hps); [discriminate|].
    exists entries. split; [exact Hlen|]. rewrite <- Hps. reflexivity.
Defined.

(** ** Lookup failures, end to end *)

Lemma map_result_ok_forall {A B : Type} (f : A -> result B) (l : list A)
    (k : list B) :
  map_result f l = Ok k -> Forall (fun x => is_ok (f x) = true) l.
Proof.
  revert k. induction l as [|x l IH]; intros k H; [constructor|].
  cbn [map_result] in H. apply bind_Ok in H as (y & Hy & H).
  apply bind_Ok in H as (ys & Hys & _).
  constructor; [rewrite Hy; reflexivity | eapply IH; exact Hys].
Qed.

Lemma parse_items_ok
    (self : option node -> gmap string ref_data -> result string)
    (items : list node) (acc : string) (rd : gmap string ref_data) (s : string) :
  parse_items self acc items rd = Ok s ->
  Forall (fun c => is_ok (self (Some c) rd) = true) items.
Proof.
  rewrite parse_items_map. intros H. apply bind_Ok in H as (l & Hl & _).
  eapply map_result_ok_forall. exact Hl.
Qed.

Lemma forall_filter {A : Type} (p : A -> bool) (Q : A -> Prop) (l : list A) :
  Forall (fun x => p x = true -> Q x) l <-> Forall Q (List.filter p l).
Proof.
  induction l as [|x l IH]; [split; constructor|].
  cbn [List.filter]. rewrite Forall_cons, IH. destruct (p x) eqn:Hp.
  - rewrite Forall_cons. tauto.
  - split; [tauto|]. intros H. split; [discriminate | exact H].
Qed.

Lemma attach_descs_attachable (fuel : nat) (items : list node)
    (rd : gmap string ref_data) (params params' : gmap string param_info) :
  attach_descs fuel items rd params = Ok params' ->
  Forall (attachable fuel rd params) items.
Proof.
  revert params. induction items as [|item items IH]; intros params H; [constructor|].
  cbn [attach_descs] in H.
  apply bind_Ok in H as (nm & Hnm & H).
  apply bind_Ok in H as (desc & Hdesc & H).
  apply bind_Ok in H as (r & Hr & H).
  destruct (params !! nm) as [info|] eqn:Hl; [|discriminate].
  destruct (bs4.find "parameterdescription" item) as [desc'|] eqn:Hfd; [|discriminate].
  cbn [deref] in Hdesc. inversion Hdesc; subst desc'.
  constructor.
  - exists nm, desc. rewrite Hr, Hl. eauto.
  - eapply Forall_impl; [exact (IH _ H)|].
    intros x (nm' & desc' & Hnm' & Hs & Hd' & Hr').
    exists nm', desc'. repeat split; try assumption.
    apply elem_of_dom. apply elem_of_dom in Hs.
    rewrite dom_insert_lookup_L in Hs by eauto. exact Hs.
Qed.

Lemma desc_details_raise (fuel : nat) (parent dd : node)
    (rd : gmap string ref_data) (pre post : list node) (n : node) (e : exn) :
  bs4.find "detaileddescription" parent = Some dd ->
  bs4.find_all_children "para" dd = pre ++ n :: post ->
  Forall (fun x => plain_paragraph x = true ->
                   is_ok (parse_para fuel (Some x) rd) = true) pre ->
  plain_paragraph n = true ->
  parse_para fuel (Some n) rd = Raise e ->
  desc_details fuel parent rd = Raise e.
Proof.
  intros Hdd Hparas Hpre Hn He. unfold desc_details. rewrite Hdd. cbn [deref bind].
  rewrite details_loop_map, Hparas, List.filter_app. cbn [List.filter]. rewrite Hn.
  apply bind_Raise. apply map_result_raise.
  exists (List.filter plain_paragraph pre), n, (List.filter plain_paragraph post).
  split; [reflexivity|]. split; [|exact He].
  apply forall_filter. exact Hpre.
Qed.

Lemma desc_details_ok (fuel : nat) (parent dd : node)
    (rd : gmap string ref_data) (d : string) :
  bs4.find "detaileddescription" parent = Some dd ->
  desc_details fuel parent rd = Ok d ->
  Forall (fun x => plain_paragraph x = true ->
                   is_ok (parse_para fuel (Some x) rd) = true)
    (bs4.find_all_children "para" dd).
Proof.
  intros Hdd. unfold desc_details. rewrite Hdd. cbn [deref bind].
  rewrite details_loop_map. intros H. apply bind_Ok in H as (l & Hl & _).
  apply forall_filter. eapply map_result_ok_forall. exact Hl.
Qed.

Lemma desc_return_first (fuel : nat) (ret_type parent : node)
    (rd : gmap string ref_data) (pre post : list node) (n : node) :
  split (node_text ret_type) <> [] ->
  bs4.find_all "simplesect" parent = pre ++ n :: post ->
  forallb other_section pre = true ->
  return_section n = true ->
  desc_return fuel ret_type parent rd = parse_para fuel (bs4.find "para" n) rd.
Proof.
  intros Hsp Hl Hpre Hn. rewrite desc_return_split.
  destruct (last_item_ok _ Hsp) as (w & ws & _ & ->). cbn [bind].
  rewrite Hl. apply return_scan_first; assumption.
Qed.

Lemma desc_return_split_ok (fuel : nat) (ret_type parent : node)
    (rd : gmap string ref_data) (r : string) :
  desc_return fuel ret_type parent rd = Ok r -> split (node_text ret_type) <> [].
Proof.
  rewrite desc_return_split. intros H Hnil. rewrite Hnil in H. discriminate.
Qed.

Lemma parse_detailed_desc_ok (fuel : nat) (parent : node)
    (rd : gmap string ref_data) (d ps r : string) :
  parse_detailed_desc fuel parent rd = Ok (d, ps, r) ->
  exists ret_type d' r',
    desc_params fuel parent rd = Ok (ret_type, ps)
    /\ desc_details fuel parent rd = Ok d'
    /\ desc_return fuel ret_type parent rd = Ok r'.
Proof.
  unfold parse_detailed_desc. intros H.
  apply bind_Ok in H as ([rt ps'] & Hp & H).
  apply bind_Ok in H as (d' & Hd & H).
  apply bind_Ok in H as (r' & Hr & H). inversion H; subst.
  exists rt, d', r'. auto.
Qed.

Lemma member_block_ok (fuel : nat) (level : string)
    (rd : gmap string ref_data) (m : node) :
  is_ok (member_block fuel level rd m) = true ->
  is_ok (parse_detailed_desc fuel m rd) = true.
Proof.
  unfold member_block. destruct (parse_detailed_desc fuel m rd); [reflexivity|].
  discriminate.
Qed.

Lemma top_descriptions_app (fuel : nat) (l1 l2 : list node) (out : string) :
  top_descriptions fuel (l1 ++ l2) out
  = (let! out' := top_descriptions fuel l1 out in
     top_descriptions fuel l2 out').
Proof.
  revert out. induction l1 as [|ddesc l1 IH]; intros out; [reflexivity|].
  cbn [app top_descriptions]. destruct (bs4.find "para" ddesc) as [q|]; [|apply IH].
  destruct (parse_para fuel (Some q) ∅); [|reflexivity]. cbn [bind]. apply IH.
Qed.

(** C6. A lookup that fails raises [KeyError], and nothing on the way to the
    caller catches it.
    - [ref_format] raises it for an absent key, so a reference by id or by
      name whose key is absent from a non-empty table raises it.
    - A paragraph, an ordered or itemized list and a list item raise what
      their first failing child (for a list item, its paragraph) raises.
    - [parse_detailed_desc] raises [KeyError] at a documented parameter item
      whose name is not among the declared non-void names, and never returns
      for a member with such an item; it raises what the rendering of an
      item's description raises, what the first failing paragraph of the
      details raises, and what the rendering of the first return section
      raises.
    - [generate_general_syscall_doc] raises what [parse_detailed_desc] or
      [generate_api_doc] raises for a member, and never returns when a member
      fails; it raises what [build_ref_dict] or a top-level description
      raises. [generate_api_doc] raises what [parse_brief] or
      [parse_prototype] raises, and [parse_brief] and the top-level loop what
      their first failing paragraph raises.
    Conversely a result is returned only when nothing failed: every child of
    a rendered paragraph or list rendered, every documented item of a member
    named a declared parameter and rendered, every paragraph of the details
    and the first return section rendered, and every member of the document
    was parsed. *)
Theorem lookup_failures_propagate :
  (forall refid rd, rd !! refid = None -> ref_format refid rd = Raise KeyError)
  /\ (forall fuel attrs cs (rd : gmap string ref_data) key,
        rd <> ∅ -> rd !! key = None ->
        (attrs !! "refid" = Some key ->
         parse_para fuel (Some (Tag "ref" attrs cs)) rd = Raise KeyError)
        /\ (attrs !! "name" = Some key ->
            parse_para fuel (Some (Tag "nameref" attrs cs)) rd = Raise KeyError))
  /\ (forall fuel attrs pre item post rd e,
        Forall (fun x => is_ok (parse_para fuel (Some x) rd) = true) pre ->
        parse_para fuel (Some item) rd = Raise e ->
        parse_para (S fuel) (Some (Tag "para" attrs (pre ++ item :: post))) rd
        = Raise e)
  /\ (forall fuel parent rd ret_type params order pre item post params' nm desc r,
        declared_params parent = Ok (ret_type, params, order) ->
        bs4.find_all "parameteritem" parent = pre ++ item :: post ->
        attach_descs fuel pre rd params = Ok params' ->
        get_text (bs4.find "parametername" item) false = Ok nm ->
        nm ∉ order ->
        bs4.find "parameterdescription" item = Some desc ->
        parse_para fuel (bs4.find "para" desc) rd = Ok r ->
        parse_detailed_desc fuel parent rd = Raise KeyError)
  /\ (forall fuel parent rd ret_type params order item nm,
        declared_params parent = Ok (ret_type, params, order) ->
        item ∈ bs4.find_all "parameteritem" parent ->
        get_text (bs4.find "parametername" item) false = Ok nm ->
        nm ∉ order ->
        is_ok (parse_detailed_desc fuel parent rd) = false)
  /\ (forall fuel parent rd ret_type ps e,
        desc_params fuel parent rd = Ok (ret_type, ps) ->
        desc_details fuel parent rd = Raise e ->
        parse_detailed_desc fuel parent rd = Raise e)
  /\ (forall fuel soup level rd summary out pre member post out' e,
        build_ref_dict soup = Ok rd ->
        bs4.find "compounddef" soup = Some summary ->
        top_descriptions fuel
          (bs4.find_all_children "detaileddescription" summary) "" = Ok out ->
        bs4.find_all "memberdef" soup = pre ++ member :: post ->
        members_loop fuel level rd pre out = Ok out' ->
        parse_detailed_desc fuel member rd = Raise e ->
        generate_general_syscall_doc fuel soup level = Raise e)
  /\ (forall fuel soup level rd member,
        build_ref_dict soup = Ok rd ->
        member ∈ bs4.find_all "memberdef" soup ->
        is_ok (parse_detailed_desc fuel member rd) = false ->
        is_ok (generate_general_syscall_doc fuel soup level) = false)
  /\ (forall fuel kind attrs pre item post rd e,
        kind = "orderedlist" \/ kind = "itemizedlist" ->
        Forall (fun x => is_ok (parse_para fuel (Some x) rd) = true) pre ->
        parse_para fuel (Some item) rd = Raise e ->
        parse_para (S fuel) (Some (Tag kind attrs (pre ++ item :: post))) rd
        = Raise e)
  /\ (forall fuel attrs cs q rd e,
        bs4.find "para" (Tag "listitem" attrs cs) = Some q ->
        parse_para fuel (Some q) rd = Raise e ->
        parse_para (S fuel) (Some (Tag "listitem" attrs cs)) rd = Raise e)
  /\ (forall fuel parent rd ret_type params order pre item post params' nm desc e,
        declared_params parent = Ok (ret_type, params, order) ->
        bs4.find_all "parameteritem" parent = pre ++ item :: post ->
        attach_descs fuel pre rd params = Ok params' ->
        get_text (bs4.find "parametername" item) false = Ok nm ->
        bs4.find "parameterdescription" item = Some desc ->
        parse_para fuel (bs4.find "para" desc) rd = Raise e ->
        parse_detailed_desc fuel parent rd = Raise e)
  /\ (forall fuel parent rd ret_type ps dd pre n post e,
        desc_params fuel parent rd = Ok (ret_type, ps) ->
        bs4.find "detaileddescription" parent = Some dd ->
        bs4.find_all_children "para" dd = pre ++ n :: post ->
        Forall (fun x => plain_paragraph x = true ->
                         is_ok (parse_para fuel (Some x) rd) = true) pre ->
        plain_paragraph n = true ->
        parse_para fuel (Some n) rd = Raise e ->
        parse_detailed_desc fuel parent rd = Raise e)
  /\ (forall fuel parent rd ret_type ps d pre n post e,
        desc_params fuel parent rd = Ok (ret_type, ps) ->
        desc_details fuel parent rd = Ok d ->
        split (node_text ret_type) <> [] ->
        bs4.find_all "simplesect" parent = pre ++ n :: post ->
        forallb other_section pre = true ->
        return_section n = true ->
        parse_para fuel (bs4.find "para" n) rd = Raise e ->
        parse_detailed_desc fuel parent rd = Raise e)
  /\ (forall fuel soup level rd summary out pre member post out' details ps ret e,
        build_ref_dict soup = Ok rd ->
        bs4.find "compounddef" soup = Some summary ->
        top_descriptions fuel
          (bs4.find_all_children "detaileddescription" summary) "" = Ok out ->
        bs4.find_all "memberdef" soup = pre ++ member :: post ->
        members_loop fuel level rd pre out = Ok out' ->
        parse_detailed_desc fuel member rd = Ok (details, ps, ret) ->
        generate_api_doc fuel level member ps ret details = Raise e ->
        generate_general_syscall_doc fuel soup level = Raise e)
  /\ (forall fuel kind attrs cs rd s,
        kind = "para" \/ kind = "orderedlist" \/ kind = "itemizedlist" ->
        parse_para (S fuel) (Some (Tag kind attrs cs)) rd = Ok s ->
        Forall (fun c => is_ok (parse_para fuel (Some c) rd) = true) cs)
  /\ (forall fuel attrs cs rd s,
        parse_para (S fuel) (Some (Tag "listitem" attrs cs)) rd = Ok s ->
        is_ok (parse_para fuel (bs4.find "para" (Tag "listitem" attrs cs)) rd) = true)
  /\ (forall fuel parent rd ret_type params order details ps ret,
        declared_params parent = Ok (ret_type, params, order) ->
        parse_detailed_desc fuel parent rd = Ok (details, ps, ret) ->
        Forall (attachable fuel rd params) (bs4.find_all "parameteritem" parent)
        /\ (forall dd,
              bs4.find "detaileddescription" parent = Some dd ->
              Forall (fun x => plain_paragraph x = true ->
                               is_ok (parse_para fuel (Some x) rd) = true)
                (bs4.find_all_children "para" dd))
        /\ (forall pre n post,
              bs4.find_all "simplesect" parent = pre ++ n :: post ->
              forallb other_section pre = true ->
              return_section n = true ->
              is_ok (parse_para fuel (bs4.find "para" n) rd) = true))
  /\ (forall fuel soup level rd out,
        build_ref_dict soup = Ok rd ->
        generate_general_syscall_doc fuel soup level = Ok out ->
        Forall (fun member => is_ok (parse_detailed_desc fuel member rd) = true)
          (bs4.find_all "memberdef" soup))
  /\ (forall fuel member brief pre n post e,
        bs4.find "briefdescription" member = Some brief ->
        bs4.find_all "para" brief = pre ++ n :: post ->
        Forall (fun x => is_ok (parse_para fuel (Some x) ∅) = true) pre ->
        parse_para fuel (Some n) ∅ = Raise e ->
        parse_brief fuel member = Raise e)
  /\ (forall fuel level member manual label name ps ret details e,
        bs4.find "manual" member = Some manual ->
        bs4.getitem manual "label" = Ok label ->
        bs4.getitem manual "name" = Ok name ->
        (parse_brief fuel member = Raise e ->
         generate_api_doc fuel level member ps ret details = Raise e)
        /\ (is_ok (parse_brief fuel member) = true ->
            parse_prototype member = Raise e ->
            generate_api_doc fuel level member ps ret details = Raise e))
  /\ (forall fuel pre ddesc post q out out' e,
        top_descriptions fuel pre out = Ok out' ->
        bs4.find "para" ddesc = Some q ->
        parse_para fuel (Some q) ∅ = Raise e ->
        top_descriptions fuel (pre ++ ddesc :: post) out = Raise e)
  /\ (forall fuel soup level e,
        (build_ref_dict soup = Raise e ->
         generate_general_syscall_doc fuel soup level = Raise e)
        /\ (forall summary,
              is_ok (build_ref_dict soup) = true ->
              bs4.find "compounddef" soup = Some summary ->
              top_descriptions fuel
                (bs4.find_all_children "detaileddescription" summary) "" = Raise e ->
              generate_general_syscall_doc fuel soup level = Raise e)).
Proof.
  destruct lookup_failures_first as (H1 & H2 & H3 & H4 & H5 & H6 & H7 & H8).
  split; [exact H1|]. split; [exact H2|]. split; [exact H3|].
  split; [exact H4|]. split; [exact H5|]. split; [exact H6|].
  split; [exact H7|]. split; [exact H8|].
  split; [|split; [|split; [|split; [|split; [|split; [|split; [|split;
    [|split; [|split; [|split; [|split; [|split]]]]]]]]]]]].
  - intros fuel kind attrs pre item post rd e Hk Hpre Hitem.
    assert (Hl : exists tag,
      parse_para (S fuel) (Some (Tag kind attrs (pre ++ item :: post))) rd
      = parse_list (parse_para fuel) (Tag kind attrs (pre ++ item :: post)) rd tag).
    { destruct Hk as [->| ->]; [exists "enumerate" | exists "itemize"];
        apply parse_para_list; auto. }
    destruct Hl as [tag ->]. unfold parse_list. cbn [bs4.contents].
    rewrite (parse_items_raise (parse_para fuel) pre post item rd _ e Hpre Hitem).
    reflexivity.
  - intros fuel attrs cs q rd e Hq He.
    rewrite parse_para_listitem, Hq, He. reflexivity.
  - intros fuel parent rd ret_type params order pre item post params' nm desc e
      Hd Hitems Hpre Hnm Hdesc He.
    unfold parse_detailed_desc, desc_params. rewrite Hd. cbn [bind].
    rewrite Hitems, attach_descs_app, Hpre. cbn [bind attach_descs].
    rewrite Hnm. cbn [bind]. rewrite Hdesc. cbn [deref bind]. rewrite He.
    reflexivity.
  - intros fuel parent rd ret_type ps dd pre n post e Hp Hdd Hparas Hpre Hn He.
    unfold parse_detailed_desc. rewrite Hp. cbn [bind].
    rewrite (desc_details_raise _ _ _ _ _ _ _ _ Hdd Hparas Hpre Hn He). reflexivity.
  - intros fuel parent rd ret_type ps d pre n post e Hp Hd Hsp Hl Hpre Hn He.
    rewrite (parse_detailed_desc_stages _ _ _ _ _ _ Hp Hd).
    rewrite (desc_return_first _ _ _ _ _ _ _ Hsp Hl Hpre Hn), He. reflexivity.
  - intros fuel soup level rd summary out pre member post out' details ps ret e
      Hb Hs Htop Hms Hpre Hm Hdoc.
    unfold generate_general_syscall_doc. rewrite Hb. cbn [bind].
    rewrite Hs. cbn [deref bind]. rewrite Htop. cbn [bind]. rewrite Hms.
    rewrite length_app. cbn [length].
    replace (length pre + S (length post)) with (S (length pre + length post)) by lia.
    cbn [Nat.eqb]. rewrite members_loop_app, Hpre. cbn [bind members_loop].
    rewrite Hm. cbn [bind]. rewrite Hdoc. reflexivity.
  - intros fuel kind attrs cs rd s [->|Hk].
    + rewrite parse_para_para. apply parse_items_ok.
    + assert (Hl : exists tag,
        parse_para (S fuel) (Some (Tag kind attrs cs)) rd
        = parse_list (parse_para fuel) (Tag kind attrs cs) rd tag).
      { destruct Hk as [->| ->]; [exists "enumerate" | exists "itemize"];
          apply parse_para_list; auto. }
      destruct Hl as [tag ->]. unfold parse_list. cbn [bs4.contents].
      intros H. apply bind_Ok in H as (out & Hout & _).
      eapply parse_items_ok. exact Hout.
  - intros fuel attrs cs rd s. rewrite parse_para_listitem.
    intros H. apply bind_Ok in H as (out & -> & _). reflexivity.
  - intros fuel parent rd ret_type params order details ps ret Hd H.
    destruct (parse_detailed_desc_ok _ _ _ _ _ _ H) as (rt & d' & r' & Hp & Hdet & Hret).
    assert (rt = ret_type) as ->.
    { pose proof (declared_params_ret _ _ _ _ Hd) as Ha.
      pose proof (desc_params_ret _ _ _ _ _ Hp) as Hb. congruence. }
    split; [|split].
    + unfold desc_params in Hp. rewrite Hd in Hp. cbn [bind] in Hp.
      apply bind_Ok in Hp as (params' & Hatt & _).
      eapply attach_descs_attachable. exact Hatt.
    + intros dd Hdd. eapply desc_details_ok; eassumption.
    + intros pre n post Hl Hpre Hn.
      rewrite <- (desc_return_first fuel ret_type parent rd pre post n
                    (desc_return_split_ok _ _ _ _ _ Hret) Hl Hpre Hn).
      rewrite Hret. reflexivity.
  - intros fuel soup level rd out Hb H.
    unfold generate_general_syscall_doc in H. rewrite Hb in H. cbn [bind] in H.
    apply bind_Ok in H as (summary & _ & H). apply bind_Ok in H as (top & _ & H).
    destruct (bs4.find_all "memberdef" soup) as [|m ms]; [constructor|].
    cbn [length Nat.eqb] in H. rewrite members_loop_map in H.
    apply bind_Ok in H as (blocks & Hblocks & _).
    eapply Forall_impl; [exact (map_result_ok_forall _ _ _ Hblocks)|].
    intros x. apply member_block_ok.
  - intros fuel member brief pre n post e Hb Hparas Hpre He.
    unfold parse_brief. rewrite Hb. cbn [deref bind]. rewrite Hparas.
    apply bind_Raise. apply map_result_raise.
    exists pre, n, post. auto.
  - intros fuel level member manual label name ps ret details e Hm Hl Hn.
    unfold generate_api_doc. rewrite Hm. cbn [deref bind]. rewrite Hl. cbn [bind].
    rewrite Hn. cbn [bind]. split.
    + intros ->. reflexivity.
    + intros [b ->]%is_ok_true ->. reflexivity.
  - intros fuel pre ddesc post q out out' e Hpre Hq He.
    rewrite top_descriptions_app, Hpre. cbn [bind top_descriptions].
    rewrite Hq, He. reflexivity.
  - intros fuel soup level e. unfold generate_general_syscall_doc. split.
    + intros ->. reflexivity.
    + intros summary [rd ->]%is_ok_true -> Htop. cbn [bind deref].
      rewrite Htop. reflexivity.
Qed.

Lemma lookup_failures_propagate_witness :
  parse_para 0 (Some (Tag "ref" {[ "refid" := "group_9z" ]} [txt "x"]))
    {[ "group_1a" := mk_ref_data "seL4\_Yield" "sel4_yield" "group_1a" ]}
  = Raise KeyError
  /\ parse_detailed_desc 2 misdocumented_member ∅ = Raise KeyError
  /\ generate_general_syscall_doc 2 misdocumented_doc "subsection" = Raise KeyError
  /\ generate_general_syscall_doc 5 dangling_return_doc "subsection" = Raise KeyError.
Proof.
  destruct lookup_failures_propagate
    as (_ & Href & _ & Hdesc & _ & _ & Hdoc & _ & _ & _ & _ & _ & Hret & _).
  assert (Hm : forall rd, parse_detailed_desc 2 misdocumented_member rd = Raise KeyError).
  { intros rd.
    eapply (Hdesc 2 misdocumented_member rd _ _ _ [] _ [] _ "dst").
    - reflexivity.
    - reflexivity.
    - reflexivity.
    - reflexivity.
    - refine (bool_decide_unpack _ _). vm_compute. exact I.
    - reflexivity.
    - reflexivity. }
  split; [|split; [|split]].
  - refine (proj1 (Href 0 _ _ _ "group_9z" _ _) _).
    + intros H. apply (f_equal size) in H. vm_compute in H. discriminate.
    + reflexivity.
    + reflexivity.
  - apply Hm.
  - eapply (Hdoc 2 misdocumented_doc "subsection" _ _ _ [] misdocumented_member []).
    + reflexivity.
    + reflexivity.
    + reflexivity.
    + reflexivity.
    + reflexivity.
    + apply Hm.
  - eapply (Hdoc 5 dangling_return_doc "subsection" _ _ _ [] dangling_return_member []).
    + reflexivity.
    + reflexivity.
    + reflexivity.
    + reflexivity.
    + reflexivity.
    + eapply (Hret 5 dangling_return_member _ _ _ _ []).
      * vm_compute. reflexivity.
      * vm_compute. reflexivity.
      * discriminate.
      * reflexivity.
      * reflexivity.
      * reflexivity.
      * vm_compute. reflexivity.
Defined.

(** ** The reference table and the two tables of a run *)

Lemma para_ref_dropped (fuel : nat) (attrs attrs' : gmap string string)
    (cs pre post : list node) :
  parse_para (S fuel) (Some (Tag "para" attrs' (pre ++ Tag "ref" attrs cs :: post))) ∅
  = parse_para (S fuel) (Some (Tag "para" attrs' (pre ++ post))) ∅.
Proof.
  rewrite !parse_para_para, !parse_items_map, !map_result_app.
  destruct (map_result _ pre) as [k1|e]; [|reflexivity]. cbn [bind map_result].
  assert (Href : parse_para fuel (Some (Tag "ref" attrs cs)) ∅ = Ok "")
    by (rewrite parse_para_ref; reflexivity).
  rewrite Href. cbn [bind].
  destruct (map_result _ post) as [k2|e]; [|reflexivity]. cbn [bind].
  rewrite !join_empty_app, join_empty_cons. reflexivity.
Qed.

(** X11. The table never has more than two entries per member, and it is
    empty exactly for a document without members. So in a document that has
    a member, wherever a node is rendered with this table, the emptiness
    guard of the reference rules does not apply and a reference whose key is
    not in the table raises [KeyError]; [parse_detailed_desc], which renders
    the details with the table it is given, raises it for such a reference
    in a paragraph of the details. The brief description is rendered with
    the default empty table instead: there the guard applies and a reference
    adds nothing to its paragraph. *)
Theorem ref_table_size_bounds (soup : node) (rd : gmap string ref_data) :
  build_ref_dict soup = Ok rd ->
  size rd <= 2 * length (bs4.find_all "memberdef" soup)
  /\ (rd = ∅ <-> bs4.find_all "memberdef" soup = [])
  /\ (bs4.find_all "memberdef" soup <> [] ->
      forall fuel attrs cs k,
        rd !! k = None ->
        (attrs !! "refid" = Some k ->
         parse_para fuel (Some (Tag "ref" attrs cs)) rd = Raise KeyError)
        /\ (attrs !! "name" = Some k ->
            parse_para fuel (Some (Tag "nameref" attrs cs)) rd = Raise KeyError))
  /\ (bs4.find_all "memberdef" soup <> [] ->
      forall fuel member ret_type ps dd pre post pattrs cpre cpost attrs cs k,
        desc_params (S fuel) member rd = Ok (ret_type, ps) ->
        bs4.find "detaileddescription" member = Some dd ->
        bs4.find_all_children "para" dd
        = pre ++ Tag "para" pattrs (cpre ++ Tag "ref" attrs cs :: cpost) :: post ->
        Forall (fun x => plain_paragraph x = true ->
                         is_ok (parse_para (S fuel) (Some x) rd) = true) pre ->
        plain_paragraph (Tag "para" pattrs (cpre ++ Tag "ref" attrs cs :: cpost))
        = true ->
        Forall (fun x => is_ok (parse_para fuel (Some x) rd) = true) cpre ->
        attrs !! "refid" = Some k ->
        rd !! k = None ->
        parse_detailed_desc (S fuel) member rd = Raise KeyError)
  /\ (forall fuel member brief pattrs cpre cpost attrs cs,
        bs4.find "briefdescription" member = Some brief ->
        bs4.find_all "para" brief
        = [Tag "para" pattrs (cpre ++ Tag "ref" attrs cs :: cpost)] ->
        parse_brief (S fuel) member
        = parse_para (S fuel) (Some (Tag "para" pattrs (cpre ++ cpost))) ∅).
Proof.
  unfold build_ref_dict. rewrite build_loop_fields.
  destruct (map_result member_fields (bs4.find_all "memberdef" soup)) as [fs|]
    eqn:Hfs; [|discriminate].
  cbn [bind]. intros H. inversion H; subst rd; clear H.
  pose proof (map_result_length _ _ _ Hfs) as Hlen.
  assert (Hempty : foldl add_member ∅ fs = ∅ <-> bs4.find_all "memberdef" soup = []).
  { rewrite table_empty. split.
    - intros ->. destruct (bs4.find_all "memberdef" soup); [reflexivity|discriminate].
    - intros Hm. rewrite Hm in Hlen. destruct fs; [reflexivity|discriminate]. }
  split; [rewrite <- Hlen; apply table_size_le|]. split; [exact Hempty|].
  split; [|split].
  - intros Hne fuel attrs cs k Hk.
    assert (Hrd : foldl add_member ∅ fs <> ∅) by (rewrite Hempty; exact Hne).
    split; intros Ha; [eapply ref_missing | eapply nameref_missing]; eassumption.
  - intros Hne fuel member ret_type ps dd pre post pattrs cpre cpost attrs cs k
      Hp Hdd Hparas Hpre Hplain Hcpre Ha Hk.
    assert (Hrd : foldl add_member ∅ fs <> ∅) by (rewrite Hempty; exact Hne).
    unfold parse_detailed_desc. rewrite Hp. cbn [bind].
    rewrite (desc_details_raise _ _ _ _ _ _ _ KeyError Hdd Hparas Hpre Hplain);
      [reflexivity|].
    rewrite parse_para_para. apply parse_items_raise; [exact Hcpre|].
    eapply ref_missing; eassumption.
  - intros fuel member brief pattrs cpre cpost attrs cs Hb Hparas.
    unfold parse_brief. rewrite Hb. cbn [deref bind]. rewrite Hparas.
    cbn [map_result]. rewrite para_ref_dropped.
    destruct (parse_para (S fuel) (Some (Tag "para" pattrs (cpre ++ cpost))) ∅);
      reflexivity.
Qed.

Lemma ref_table_size_bounds_witness :
  exists rd,
    build_ref_dict two_member_doc = Ok rd
    /\ size rd <= 4
    /\ parse_para 0 (Some (Tag "ref" {[ "refid" := "group_9z" ]} [])) rd
       = Raise KeyError.
Proof.
  exists (foldl add_member ∅
            [ ("seL4_Yield", "sel4_yield", "group_1a");
              ("seL4_Send", "sel4_send", "group_2b") ]).
  assert (Hb : build_ref_dict two_member_doc
               = Ok (foldl add_member ∅
                       [ ("seL4_Yield", "sel4_yield", "group_1a");
                         ("seL4_Send", "sel4_send", "group_2b") ]))
    by reflexivity.
  destruct (ref_table_size_bounds two_member_doc _ Hb) as (Hsize & _ & Hmiss & _).
  split; [exact Hb|]. split; [exact Hsize|].
  assert (Ha : ({[ "refid" := "group_9z" ]} : gmap string string) !! "refid"
               = Some "group_9z") by reflexivity.
  refine (proj1 (Hmiss _ 0 _ [] "group_9z" _) Ha).
  - discriminate.
  - reflexivity.
Defined.
